(** * TableDirect: the order-claiming and completion-aggregation engine

    A shallow embedding of the kitchen side of the repository:
    - [lib/database.ts]: [claimOrder], [releaseOrder], [createKitchenSession],
      [markItemCompleted], [checkOrderCompletion];
    - [lib/supabase.ts]: [dbHelpers.createSession], [dbHelpers.endSession];
    - [pages/KitchenInterface.tsx]: [markItemComplete], [updateOrderStatus];
    - [pages/dashboard/StaffManagement.tsx]: [terminateSession].

    The code talks to a Postgres database through the Supabase client.  Every
    [await supabase...] is one round trip that the database executes as one
    statement; the client code between two round trips sees only what the
    previous statements returned.  A function of the source is therefore
    embedded as a program [Prog A]: a finite tree of round trips and clock
    reads.  [run] executes a program alone; [interleave] executes several
    programs (several kitchen devices) under a schedule, one round trip at a
    time. *)

From Stdlib Require Import String List Bool Arith Lia DecimalString.
Import ListNotations.
Open Scope string_scope.
Open Scope list_scope.

Set Implicit Arguments.

(* ================================================================== *)
(** * Values *)

(** Row identifiers are Postgres [uuid] values.  The client sees them as
    non-empty strings, so a non-null identifier is truthy in JavaScript; they
    are only ever compared for equality. *)
Definition uuid := string.

(** [new Date().toISOString()]: the time of the world's clock. *)
Definition timestamp := nat.

(** The three values the code writes into [order_items.status]. *)
Inductive ItemStatus : Type :=
| item_pending
| item_claimed
| item_completed.

(** [OrderStatus] of [types/index.ts]. *)
Inductive OrderStatus : Type :=
| pending
| preparing
| ready
| served
| cancelled.

(** The two values the code writes into [active_sessions.status]. *)
Inductive SessionStatus : Type :=
| active
| inactive.

Definition ItemStatus_eqb (a b : ItemStatus) : bool :=
  match a, b with
  | item_pending, item_pending => true
  | item_claimed, item_claimed => true
  | item_completed, item_completed => true
  | _, _ => false
  end.

Definition OrderStatus_eqb (a b : OrderStatus) : bool :=
  match a, b with
  | pending, pending => true
  | preparing, preparing => true
  | ready, ready => true
  | served, served => true
  | cancelled, cancelled => true
  | _, _ => false
  end.

Definition SessionStatus_eqb (a b : SessionStatus) : bool :=
  match a, b with
  | active, active => true
  | inactive, inactive => true
  | _, _ => false
  end.

(** [column = value] on a nullable uuid column: never true on [null]. *)
Definition eq_col (c : option uuid) (v : uuid) : bool :=
  match c with
  | Some u => String.eqb u v
  | None => false
  end.

(** [column IS NULL]. *)
Definition is_null {A : Type} (c : option A) : bool :=
  match c with
  | Some _ => false
  | None => true
  end.

(** JavaScript truthiness of an optional string argument ([station?: string]):
    [undefined] and the empty string are falsy. *)
Definition truthy (s : option string) : bool :=
  match s with
  | Some v => negb (String.eqb v "")
  | None => false
  end.

(* ================================================================== *)
(** * Rows *)

Module OrderItem.
Record t : Type := mk {
  id : uuid;
  order_id : uuid;
  menu_item_id : uuid;
  quantity : nat;
  status : ItemStatus;
  claimed_by_user_id : option uuid;
  claimed_at : option timestamp;
  completed_at : option timestamp
}.
End OrderItem.

Module Order.
Record t : Type := mk {
  id : uuid;
  restaurant_id : uuid;
  status : OrderStatus;
  claimed_by : option uuid;
  claimed_at : option timestamp;
  updated_at : timestamp
}.
End Order.

Module ActiveSession.
Record t : Type := mk {
  id : uuid;
  user_id : uuid;
  restaurant_id : uuid;
  session_type : option string;
  station : option string;
  station_id : option string;
  session_token : option string;
  user_name : option string;
  status : SessionStatus;
  last_heartbeat : option timestamp;
  created_at : timestamp
}.
End ActiveSession.

Module User.
Record t : Type := mk {
  id : uuid;
  restaurant_id : option uuid
}.
End User.

(* ================================================================== *)
(** * The entity store *)

(** The four tables the code reads and writes.  A table is the list of its
    rows.  Two things of the database are not in the repository's sources and
    are kept as data of the store: whether [active_sessions] carries the
    unique index on [(user_id, restaurant_id)] that the upsert of
    [createKitchenSession] names in [onConflict], and the counter from which
    the database draws the [id] of an inserted row. *)
Record Store : Type := mkStore {
  order_items : list OrderItem.t;
  orders : list Order.t;
  active_sessions : list ActiveSession.t;
  users : list User.t;
  unique_user_restaurant : bool;
  next_uuid : nat
}.

Definition with_order_items (s : Store) (v : list OrderItem.t) : Store :=
  mkStore v (orders s) (active_sessions s) (users s)
          (unique_user_restaurant s) (next_uuid s).

Definition with_orders (s : Store) (v : list Order.t) : Store :=
  mkStore (order_items s) v (active_sessions s) (users s)
          (unique_user_restaurant s) (next_uuid s).

Definition with_active_sessions (s : Store) (v : list ActiveSession.t) : Store :=
  mkStore (order_items s) (orders s) v (users s)
          (unique_user_restaurant s) (next_uuid s).

(** [{ data, error }], the result of a round trip. *)
Inductive Resp (A : Type) : Type :=
| Data (data : A)
| Error.

Arguments Error {A}.

(** [.update(patch) ... where]: every row that satisfies the filter is
    patched, the others are left as they are; no row is an error. *)
Definition update {Row : Type} (patch : Row -> Row) (where_ : Row -> bool)
  (tbl : list Row) : list Row :=
  map (fun r => if where_ r then patch r else r) tbl.

(** [.select() ... where]. *)
Definition select {Row : Type} (where_ : Row -> bool) (tbl : list Row) : list Row :=
  filter where_ tbl.

(** [.delete() ... where]. *)
Definition delete {Row : Type} (where_ : Row -> bool) (tbl : list Row) : list Row :=
  filter (fun r => negb (where_ r)) tbl.

(** [.single()]: exactly one row, or an error. *)
Definition single {Row : Type} (rows : list Row) : Resp Row :=
  match rows with
  | [r] => Data r
  | _ => Error
  end.

(* ================================================================== *)
(** * Programs over the store *)

(** One statement of the database: the answer and the store after it. *)
Definition Stmt (R : Type) : Type := Store -> Resp R * Store.

Inductive Prog (A : Type) : Type :=
| Ret (a : A)
| Now (k : timestamp -> Prog A)
| Await (R : Type) (stmt : Stmt R) (k : Resp R -> Prog A).

Arguments Ret {A} a.
Arguments Now {A} k.
Arguments Await {A R} stmt k.

Fixpoint bind {A B : Type} (p : Prog A) (f : A -> Prog B) : Prog B :=
  match p with
  | Ret a => f a
  | Now k => Now (fun t => bind (k t) f)
  | Await stmt k => Await stmt (fun r => bind (k r) f)
  end.

Definition supabase {R : Type} (stmt : Stmt R) : Prog (Resp R) := Await stmt Ret.

Definition now : Prog timestamp := Now Ret.

Declare Scope prog_scope.
Delimit Scope prog_scope with prog.
Notation "x <- c ;; k" := (bind c (fun x => k))
  (at level 61, c at next level, right associativity) : prog_scope.
Notation "c ;;; k" := (bind c (fun _ => k))
  (at level 61, right associativity) : prog_scope.
Open Scope prog_scope.

(** The world a program runs in: the store, the clock, and the outcome of the
    coming round trips ([true]: the round trip fails in transit, the statement
    is not executed and the client gets an error; an exhausted list means no
    further failure). *)
Record World : Type := mkWorld {
  db : Store;
  clock : timestamp;
  faults : list bool
}.

(** One round trip.  Time passes with every round trip. *)
Definition roundtrip {R : Type} (stmt : Stmt R) (w : World) : Resp R * World :=
  match faults w with
  | true :: fs => (Error, mkWorld (db w) (S (clock w)) fs)
  | _ =>
      let (r, s) := stmt (db w) in
      (r, mkWorld s (S (clock w)) (tl (faults w)))
  end.

(** A program run alone, to its end. *)
Fixpoint run {A : Type} (p : Prog A) (w : World) : A * World :=
  match p with
  | Ret a => (a, w)
  | Now k => run (k (clock w)) w
  | Await stmt k =>
      let (r, w') := roundtrip stmt w in
      run (k r) w'
  end.

(** One scheduling step of a program: its client code up to and including its
    next round trip.  A finished program does not move. *)
Fixpoint step {A : Type} (p : Prog A) (w : World) : Prog A * World :=
  match p with
  | Ret a => (Ret a, w)
  | Now k => step (k (clock w)) w
  | Await stmt k =>
      let (r, w') := roundtrip stmt w in
      (k r, w')
  end.

(** Thread [i] of the pool takes one step. *)
Fixpoint step_thread {A : Type} (i : nat) (pool : list (Prog A)) (w : World)
  : list (Prog A) * World :=
  match pool with
  | [] => ([], w)
  | p :: rest =>
      match i with
      | O => let (p', w') := step p w in (p' :: rest, w')
      | S j => let (rest', w') := step_thread j rest w in (p :: rest', w')
      end
  end.

(** Several programs, one per kitchen device, under a schedule. *)
Fixpoint interleave {A : Type} (schedule : list nat) (pool : list (Prog A))
  (w : World) : list (Prog A) * World :=
  match schedule with
  | [] => (pool, w)
  | i :: rest =>
      let (pool', w') := step_thread i pool w in
      interleave rest pool' w'
  end.

(** The result of a finished program. *)
Definition result {A : Type} (p : Prog A) : option A :=
  match p with
  | Ret a => Some a
  | _ => None
  end.

(** No round trip fails in transit. *)
Definition reliable (w : World) : Prop := Forall (fun f => f = false) (faults w).

(* ================================================================== *)
(** * lib/database.ts *)

(** ** claimOrder *)

(** [.from('order_items').select('id, claimed_by_user_id').eq('order_id', orderId)] *)
Definition select_claims (orderId : uuid) : Stmt (list (uuid * option uuid)) :=
  fun s =>
    (Data (map (fun i => (OrderItem.id i, OrderItem.claimed_by_user_id i))
               (select (fun i => String.eqb (OrderItem.order_id i) orderId)
                       (order_items s))),
     s).

(** [item.claimed_by_user_id && item.claimed_by_user_id !== userId] *)
Definition claimed_by_other (userId : uuid) (claimed_by_user_id : option uuid) : bool :=
  match claimed_by_user_id with
  | Some u => negb (String.eqb u userId)
  | None => false
  end.

(** The patch [{ claimed_by_user_id: userId, claimed_at: ..., status: 'claimed' }]. *)
Definition claim_patch (userId : uuid) (t : timestamp) (i : OrderItem.t) : OrderItem.t :=
  OrderItem.mk (OrderItem.id i) (OrderItem.order_id i) (OrderItem.menu_item_id i)
    (OrderItem.quantity i) item_claimed (Some userId) (Some t)
    (OrderItem.completed_at i).

(** [.eq('order_id', orderId).is('claimed_by_user_id', null)] *)
Definition unclaimed_of (orderId : uuid) (i : OrderItem.t) : bool :=
  String.eqb (OrderItem.order_id i) orderId && is_null (OrderItem.claimed_by_user_id i).

Definition update_claim (orderId userId : uuid) (t : timestamp) : Stmt unit :=
  fun s =>
    (Data tt,
     with_order_items s
       (update (claim_patch userId t) (unclaimed_of orderId) (order_items s))).

(** A patch [{ status: ..., updated_at: ... }] of an order. *)
Definition status_patch (st : OrderStatus) (t : timestamp) (o : Order.t) : Order.t :=
  Order.mk (Order.id o) (Order.restaurant_id o) st (Order.claimed_by o)
    (Order.claimed_at o) t.

(** [.update({ status: 'preparing', ... }).eq('id', orderId).eq('status', 'pending')] *)
Definition update_order_preparing (orderId : uuid) (t : timestamp) : Stmt unit :=
  fun s =>
    (Data tt,
     with_orders s
       (update (status_patch preparing t)
          (fun o => String.eqb (Order.id o) orderId
                    && OrderStatus_eqb (Order.status o) pending)
          (orders s))).

(** ** createKitchenSession *)

(** [.from('users').select('restaurant_id').eq('id', userId).single()] *)
Definition select_user_restaurant (userId : uuid) : Stmt (option uuid) :=
  fun s =>
    match single (select (fun u => String.eqb (User.id u) userId) (users s)) with
    | Data u => (Data (User.restaurant_id u), s)
    | Error => (Error, s)
    end.

(** The identifier the database gives to row number [n]. *)
Definition gen_uuid (n : nat) : uuid :=
  String.append "uuid-" (NilEmpty.string_of_uint (Nat.to_uint n)).

Definition same_pair (user_id restaurant_id : uuid) (r : ActiveSession.t) : bool :=
  String.eqb (ActiveSession.user_id r) user_id
  && String.eqb (ActiveSession.restaurant_id r) restaurant_id.

(** The columns the upsert sets on a conflicting row; the other columns of the
    row stay. *)
Definition kitchen_patch (station : string) (t : timestamp) (r : ActiveSession.t)
  : ActiveSession.t :=
  ActiveSession.mk (ActiveSession.id r) (ActiveSession.user_id r)
    (ActiveSession.restaurant_id r) (Some "kitchen") (Some station)
    (ActiveSession.station_id r) (ActiveSession.session_token r)
    (ActiveSession.user_name r) active (Some t) t.

(** The row the upsert inserts when no row conflicts. *)
Definition kitchen_row (id user_id restaurant_id : uuid) (station : string)
  (t : timestamp) : ActiveSession.t :=
  ActiveSession.mk id user_id restaurant_id (Some "kitchen") (Some station)
    None None None active (Some t) t.

(** [.upsert({...}, { onConflict: 'user_id,restaurant_id' })]: Postgres
    refuses the statement when no unique index matches the conflict target. *)
Definition upsert_kitchen_session (user_id restaurant_id : uuid) (station : string)
  (t : timestamp) : Stmt unit :=
  fun s =>
    if negb (unique_user_restaurant s) then (Error, s)
    else if existsb (same_pair user_id restaurant_id) (active_sessions s)
    then (Data tt,
          with_active_sessions s
            (update (kitchen_patch station t) (same_pair user_id restaurant_id)
               (active_sessions s)))
    else (Data tt,
          mkStore (order_items s) (orders s)
            (active_sessions s
               ++ [kitchen_row (gen_uuid (next_uuid s)) user_id restaurant_id station t])
            (users s) (unique_user_restaurant s) (S (next_uuid s))).

Definition createKitchenSession (userId : uuid) (station : string) : Prog unit :=
  r <- supabase (select_user_restaurant userId) ;;
  match r with
  | Data (Some restaurant_id) =>
      t <- now ;;
      _ <- supabase (upsert_kitchen_session userId restaurant_id station t) ;;
      Ret tt
  | _ => Ret tt
  end.

Definition claimOrder (orderId userId : uuid) (station : option string) : Prog bool :=
  r <- supabase (select_claims orderId) ;;
  match r with
  | Error => Ret false
  | Data orderItems =>
      if Nat.eqb (length orderItems) 0 then Ret false
      else
        let alreadyClaimed :=
          existsb (fun item => claimed_by_other userId (snd item)) orderItems in
        if alreadyClaimed then Ret false
        else
          t <- now ;;
          r <- supabase (update_claim orderId userId t) ;;
          match r with
          | Error => Ret false
          | Data _ =>
              t' <- now ;;
              _ <- supabase (update_order_preparing orderId t') ;;
              (match station with
               | Some st => if truthy station then createKitchenSession userId st
                            else Ret tt
               | None => Ret tt
               end) ;;;
              Ret true
          end
  end.

(** ** releaseOrder *)

(** The patch [{ claimed_by_user_id: null, claimed_at: null, status: 'pending' }]. *)
Definition release_patch (i : OrderItem.t) : OrderItem.t :=
  OrderItem.mk (OrderItem.id i) (OrderItem.order_id i) (OrderItem.menu_item_id i)
    (OrderItem.quantity i) item_pending None None (OrderItem.completed_at i).

(** [.eq('order_id', orderId).eq('claimed_by_user_id', userId)] *)
Definition claimed_of (orderId userId : uuid) (i : OrderItem.t) : bool :=
  String.eqb (OrderItem.order_id i) orderId && eq_col (OrderItem.claimed_by_user_id i) userId.

Definition update_release (orderId userId : uuid) : Stmt unit :=
  fun s =>
    (Data tt,
     with_order_items s (update release_patch (claimed_of orderId userId) (order_items s))).

(** [.select('id').eq('order_id', orderId).not('claimed_by_user_id', 'is', null)] *)
Definition select_remaining (orderId : uuid) : Stmt (list uuid) :=
  fun s =>
    (Data (map OrderItem.id
             (select (fun i => String.eqb (OrderItem.order_id i) orderId
                               && negb (is_null (OrderItem.claimed_by_user_id i)))
                     (order_items s))),
     s).

(** [.update({ status, updated_at }).eq('id', orderId)] *)
Definition update_order_status (orderId : uuid) (st : OrderStatus) (t : timestamp)
  : Stmt unit :=
  fun s =>
    (Data tt,
     with_orders s
       (update (status_patch st t) (fun o => String.eqb (Order.id o) orderId) (orders s))).

Definition releaseOrder (orderId userId : uuid) : Prog bool :=
  r <- supabase (update_release orderId userId) ;;
  match r with
  | Error => Ret false
  | Data _ =>
      r <- supabase (select_remaining orderId) ;;
      match r with
      | Error => Ret false
      | Data remainingItems =>
          (if Nat.eqb (length remainingItems) 0
           then
             t <- now ;;
             _ <- supabase (update_order_status orderId pending t) ;;
             Ret tt
           else Ret tt) ;;;
          Ret true
      end
  end.

(** ** markItemCompleted *)

(** The patch [{ status: 'completed', completed_at: ... }]. *)
Definition complete_patch (t : timestamp) (i : OrderItem.t) : OrderItem.t :=
  OrderItem.mk (OrderItem.id i) (OrderItem.order_id i) (OrderItem.menu_item_id i)
    (OrderItem.quantity i) item_completed (OrderItem.claimed_by_user_id i)
    (OrderItem.claimed_at i) (Some t).

(** [.eq('id', itemId).eq('claimed_by_user_id', userId)] *)
Definition owned_item (itemId userId : uuid) (i : OrderItem.t) : bool :=
  String.eqb (OrderItem.id i) itemId && eq_col (OrderItem.claimed_by_user_id i) userId.

Definition update_completed (itemId userId : uuid) (t : timestamp) : Stmt unit :=
  fun s =>
    (Data tt,
     with_order_items s (update (complete_patch t) (owned_item itemId userId) (order_items s))).

Definition markItemCompleted (itemId userId : uuid) : Prog bool :=
  t <- now ;;
  r <- supabase (update_completed itemId userId t) ;;
  match r with
  | Error => Ret false
  | Data _ => Ret true
  end.

(** ** checkOrderCompletion *)

(** [.from('order_items').select('status').eq('order_id', orderId)] *)
Definition select_statuses (orderId : uuid) : Stmt (list ItemStatus) :=
  fun s =>
    (Data (map OrderItem.status
             (select (fun i => String.eqb (OrderItem.order_id i) orderId) (order_items s))),
     s).

Definition checkOrderCompletion (orderId : uuid) : Prog unit :=
  r <- supabase (select_statuses orderId) ;;
  match r with
  | Error => Ret tt
  | Data items =>
      let allCompleted := forallb (fun st => ItemStatus_eqb st item_completed) items in
      if allCompleted
      then
        t <- now ;;
        _ <- supabase (update_order_status orderId ready t) ;;
        Ret tt
      else Ret tt
  end.

(* ================================================================== *)
(** * lib/supabase.ts: dbHelpers *)

(** A function of [dbHelpers] throws the error of a failed statement; its
    embedding returns [Error] where the source throws. *)

(** [`session_${userId}_${Date.now()}`] *)
Definition session_token_of (userId : uuid) (t : timestamp) : string :=
  String.append "session_"
    (String.append userId
       (String.append "_" (NilEmpty.string_of_uint (Nat.to_uint t)))).

(** The row [createSession] inserts; [created_at] is filled by the database. *)
Definition session_row (id userId restaurantId : uuid) (userName : string)
  (stationId : option string) (sessionToken : string) (t : timestamp)
  : ActiveSession.t :=
  ActiveSession.mk id userId restaurantId None None stationId (Some sessionToken)
    (Some userName) active None t.

(** [.from('active_sessions').insert({...}).select().single()]: a plain
    insert.  When the table carries the unique index, a second row for the
    pair is a unique violation; otherwise the row is added. *)
Definition insert_session (userId restaurantId : uuid) (userName : string)
  (stationId : option string) (sessionToken : string) (t : timestamp)
  : Stmt ActiveSession.t :=
  fun s =>
    if unique_user_restaurant s
       && existsb (same_pair userId restaurantId) (active_sessions s)
    then (Error, s)
    else
      let row := session_row (gen_uuid (next_uuid s)) userId restaurantId userName
                   stationId sessionToken t in
      (Data row,
       mkStore (order_items s) (orders s) (active_sessions s ++ [row]) (users s)
         (unique_user_restaurant s) (S (next_uuid s))).

Definition createSession (userId restaurantId : uuid) (userName : string)
  (stationId : option string) : Prog (Resp ActiveSession.t) :=
  t <- now ;;
  let sessionToken := session_token_of userId t in
  r <- supabase (insert_session userId restaurantId userName stationId sessionToken t) ;;
  Ret r.

(** The patch [{ claimed_by: null, claimed_at: null, status: 'pending' }] of an
    order. *)
Definition order_release_patch (o : Order.t) : Order.t :=
  Order.mk (Order.id o) (Order.restaurant_id o) pending None None (Order.updated_at o).

(** [.from('orders').update({...}).eq('claimed_by', sessionId)] *)
Definition update_orders_release (sessionId : uuid) : Stmt unit :=
  fun s =>
    (Data tt,
     with_orders s
       (update order_release_patch (fun o => eq_col (Order.claimed_by o) sessionId)
          (orders s))).

(** [.from('active_sessions').delete().eq('id', sessionId)] *)
Definition delete_session (sessionId : uuid) : Stmt unit :=
  fun s =>
    (Data tt,
     with_active_sessions s
       (delete (fun r => String.eqb (ActiveSession.id r) sessionId) (active_sessions s))).

Definition endSession (sessionId : uuid) : Prog (Resp unit) :=
  _ <- supabase (update_orders_release sessionId) ;;
  r <- supabase (delete_session sessionId) ;;
  Ret r.

(* ================================================================== *)
(** * The pages *)

(** A page reloads what it shows after a change: statements that only read. *)
Definition read_only : Stmt unit := fun s => (Data tt, s).

(** [loadKitchenOrders] of [KitchenInterface.tsx]: one select. *)
Definition loadKitchenOrders : Prog unit :=
  _ <- supabase read_only ;;
  Ret tt.

(** [loadStaffData] of [StaffManagement.tsx]: the users, then the sessions. *)
Definition loadStaffData : Prog unit :=
  r <- supabase read_only ;;
  match r with
  | Error => Ret tt
  | Data _ =>
      _ <- supabase read_only ;;
      Ret tt
  end.

(** [.update({ status: 'completed', completed_at }).eq('id', itemId)] *)
Definition update_completed_any (itemId : uuid) (t : timestamp) : Stmt unit :=
  fun s =>
    (Data tt,
     with_order_items s
       (update (complete_patch t) (fun i => String.eqb (OrderItem.id i) itemId)
          (order_items s))).

(** [markItemComplete] of [KitchenInterface.tsx]. *)
Definition markItemComplete (itemId : uuid) : Prog unit :=
  t <- now ;;
  r <- supabase (update_completed_any itemId t) ;;
  match r with
  | Error => Ret tt
  | Data _ => loadKitchenOrders
  end.

(** [updateOrderStatus] of [OrderManagement.tsx] (and of
    [KitchenInterface.tsx]): the explicit staff action. *)
Definition updateOrderStatus (orderId : uuid) (st : OrderStatus) : Prog unit :=
  t <- now ;;
  _ <- supabase (update_order_status orderId st t) ;;
  Ret tt.

(** [.from('active_sessions').update({ status: 'inactive' }).eq('id', sessionId)] *)
Definition inactive_patch (r : ActiveSession.t) : ActiveSession.t :=
  ActiveSession.mk (ActiveSession.id r) (ActiveSession.user_id r)
    (ActiveSession.restaurant_id r) (ActiveSession.session_type r)
    (ActiveSession.station r) (ActiveSession.station_id r)
    (ActiveSession.session_token r) (ActiveSession.user_name r) inactive
    (ActiveSession.last_heartbeat r) (ActiveSession.created_at r).

Definition update_session_inactive (sessionId : uuid) : Stmt unit :=
  fun s =>
    (Data tt,
     with_active_sessions s
       (update inactive_patch (fun r => String.eqb (ActiveSession.id r) sessionId)
          (active_sessions s))).

(** [terminateSession] of [StaffManagement.tsx]. *)
Definition terminateSession (sessionId : uuid) : Prog unit :=
  r <- supabase (update_session_inactive sessionId) ;;
  match r with
  | Error => Ret tt
  | Data _ => loadStaffData
  end.

(* ================================================================== *)
(** * Vocabulary of the statements *)

(** The items of an order. *)
Definition items_of (orderId : uuid) (s : Store) : list OrderItem.t :=
  select (fun i => String.eqb (OrderItem.order_id i) orderId) (order_items s).

(** Some item of the order has a claim-owner that is not [userId]. *)
Definition claimed_by_another (orderId userId : uuid) (s : Store) : Prop :=
  exists i u,
    In i (items_of orderId s)
    /\ OrderItem.claimed_by_user_id i = Some u /\ u <> userId.

(** [userId] holds no claim on an item of the order. *)
Definition holds_nothing (orderId userId : uuid) (s : Store) : Prop :=
  forall i, In i (items_of orderId s) -> OrderItem.claimed_by_user_id i <> Some userId.

(** Every item of the order is completed. *)
Definition all_completed (orderId : uuid) (s : Store) : Prop :=
  forall i, In i (items_of orderId s) -> OrderItem.status i = item_completed.

(** The statuses of the rows of [orders] with this id. *)
Definition order_status (orderId : uuid) (s : Store) : list OrderStatus :=
  map Order.status (select (fun o => String.eqb (Order.id o) orderId) (orders s)).

(** The sessions of a (worker, restaurant) pair. *)
Definition sessions_of (userId restaurantId : uuid) (s : Store) : list ActiveSession.t :=
  select (same_pair userId restaurantId) (active_sessions s).

(** At most one session row for every (worker, restaurant) pair. *)
Definition one_session_per_pair (s : Store) : Prop :=
  forall userId restaurantId, length (sessions_of userId restaurantId s) <= 1.

(** The outcome and the final world of a program run alone. *)
Definition outcome {A : Type} (p : Prog A) (w : World) : A := fst (run p w).
Definition after {A : Type} (p : Prog A) (w : World) : Store := db (snd (run p w)).

(* ================================================================== *)
(** * Sample kitchens *)

Definition new_item (id orderId : uuid) : OrderItem.t :=
  OrderItem.mk id orderId "dish" 1 item_pending None None None.

Definition new_order (id : uuid) : Order.t :=
  Order.mk id "R" pending None None 0.

(** Order O1 with items A and B, order O2 with item C, order O3 without
    items; workers W1 and W2 of restaurant R. *)
Definition kitchen : Store :=
  mkStore [new_item "A" "O1"; new_item "B" "O1"; new_item "C" "O2"]
          [new_order "O1"; new_order "O2"; new_order "O3"]
          []
          [User.mk "W1" (Some "R"); User.mk "W2" (Some "R")]
          true 0.

Definition opening : World := mkWorld kitchen 0 [].

(** The world after a program has run. *)
Definition then_ {A : Type} (w : World) (p : Prog A) : World := snd (run p w).

(** A day in the kitchen: W1 claims O2 and completes its item C, the
    aggregation runs, and the staff marks O2 served. *)
Definition served_O2 : World :=
  then_ (then_ (then_ (then_ opening (claimOrder "O2" "W1" None))
                  (markItemCompleted "C" "W1"))
           (checkOrderCompletion "O2"))
    (updateOrderStatus "O2" served).

(** The staff cancels the pending order O2, which nobody has claimed. *)
Definition cancelled_O2 : World :=
  then_ opening (updateOrderStatus "O2" cancelled).

(** The same kitchen on a database whose [active_sessions] has no unique
    index on the pair. *)
Definition kitchen_no_index : Store :=
  mkStore (order_items kitchen) (orders kitchen) (active_sessions kitchen)
          (users kitchen) false 0.

(** W1 has opened a session, on either database. *)
Definition logged_in : World :=
  then_ opening (createSession "W1" "R" "Ann" None).

Definition logged_in_no_index : World :=
  then_ (mkWorld kitchen_no_index 0 []) (createSession "W1" "R" "Ann" None).

(** Two devices claim O1 at the same time: each fetches the items before
    the other has written its claim. *)
Definition race : list (Prog bool) * World :=
  interleave [0; 1; 0; 1; 0; 1]
    [claimOrder "O1" "W1" None; claimOrder "O1" "W2" None] opening.

(** W1 claims O1 and completes A. *)
Definition A_done : World :=
  then_ (then_ opening (claimOrder "O1" "W1" None)) (markItemCompleted "A" "W1").

(** W1 claims O2 and completes its item C. *)
Definition C_done : World :=
  then_ (then_ opening (claimOrder "O2" "W1" None)) (markItemCompleted "C" "W1").

(** W1 opens a session (the database names it [gen_uuid 0]) and claims O1
    and O2. *)
Definition working : World :=
  then_ (then_ logged_in (claimOrder "O1" "W1" None)) (claimOrder "O2" "W1" None).

(** A world in which the next round trip fails in transit. *)
Definition outage (w : World) : World := mkWorld (db w) (clock w) [true].

(* ================================================================== *)
(** * More of lib/database.ts *)

Unset Implicit Arguments.

(** The patch [{ last_heartbeat: ... }]. *)
Definition heartbeat_patch (t : timestamp) (r : ActiveSession.t) : ActiveSession.t :=
  ActiveSession.mk (ActiveSession.id r) (ActiveSession.user_id r)
    (ActiveSession.restaurant_id r) (ActiveSession.session_type r)
    (ActiveSession.station r) (ActiveSession.station_id r)
    (ActiveSession.session_token r) (ActiveSession.user_name r)
    (ActiveSession.status r) (Some t) (ActiveSession.created_at r).

(** [.eq('user_id', userId).eq('status', 'active')] *)
Definition active_session_of (userId : uuid) (r : ActiveSession.t) : bool :=
  String.eqb (ActiveSession.user_id r) userId
  && SessionStatus_eqb (ActiveSession.status r) active.

Definition update_heartbeat (userId : uuid) (t : timestamp) : Stmt unit :=
  fun s =>
    (Data tt,
     with_active_sessions s
       (update (heartbeat_patch t) (active_session_of userId) (active_sessions s))).

(** [updateSessionHeartbeat] of [lib/database.ts]. *)
Definition updateSessionHeartbeat (userId : uuid) : Prog unit :=
  t <- now ;;
  _ <- supabase (update_heartbeat userId t) ;;
  Ret tt.

(* ================================================================== *)
(** * database-fixes.sql and the rest of dbHelpers *)

(** The condition of [claim_order]: the order exists, is claimed by nobody or
    by this session, and is ['pending']. *)
Definition claimable_by (order_uuid session_uuid : uuid) (o : Order.t) : bool :=
  String.eqb (Order.id o) order_uuid
  && (is_null (Order.claimed_by o) || eq_col (Order.claimed_by o) session_uuid)
  && OrderStatus_eqb (Order.status o) pending.

(** [SET claimed_by = session_uuid, claimed_at = now(), status = 'preparing'] *)
Definition order_claim_patch (session_uuid : uuid) (t : timestamp) (o : Order.t)
  : Order.t :=
  Order.mk (Order.id o) (Order.restaurant_id o) preparing (Some session_uuid)
    (Some t) (Order.updated_at o).

(** [public.claim_order(order_uuid, session_uuid)]; [t] is the [now()] of the
    database. *)
Definition claim_order (order_uuid session_uuid : uuid) (t : timestamp) : Stmt bool :=
  fun s =>
    if existsb (claimable_by order_uuid session_uuid) (orders s)
    then (Data true,
          with_orders s
            (update (order_claim_patch session_uuid t)
               (fun o => String.eqb (Order.id o) order_uuid) (orders s)))
    else (Data false, s).

(** The condition of [release_order]: the order is claimed by this session. *)
Definition claimed_by_session (order_uuid session_uuid : uuid) (o : Order.t) : bool :=
  String.eqb (Order.id o) order_uuid && eq_col (Order.claimed_by o) session_uuid.

(** [public.release_order(order_uuid, session_uuid)] *)
Definition release_order (order_uuid session_uuid : uuid) : Stmt bool :=
  fun s =>
    if existsb (claimed_by_session order_uuid session_uuid) (orders s)
    then (Data true,
          with_orders s
            (update order_release_patch
               (fun o => String.eqb (Order.id o) order_uuid) (orders s)))
    else (Data false, s).

(** The patch [{ last_seen: ..., status: 'active' }]; [last_seen] is not among
    the columns the rows of the model keep. *)
Definition active_patch (r : ActiveSession.t) : ActiveSession.t :=
  ActiveSession.mk (ActiveSession.id r) (ActiveSession.user_id r)
    (ActiveSession.restaurant_id r) (ActiveSession.session_type r)
    (ActiveSession.station r) (ActiveSession.station_id r)
    (ActiveSession.session_token r) (ActiveSession.user_name r) active
    (ActiveSession.last_heartbeat r) (ActiveSession.created_at r).

Definition update_session_active (sessionId : uuid) : Stmt unit :=
  fun s =>
    (Data tt,
     with_active_sessions s
       (update active_patch (fun r => String.eqb (ActiveSession.id r) sessionId)
          (active_sessions s))).

(** One line of a cart as [createOrder] receives it; of its fields the rows
    of the model keep the menu item and the quantity. *)
Record OrderLine : Type := mkOrderLine {
  line_menu_item_id : uuid;
  line_quantity : nat
}.

(** The order row of the insert ([status: 'pending']).  Modelled from the
    spec: the column defaults, set by a schema that is not in the sources;
    the row is unclaimed and [updated_at] is the time of the insert. *)
Definition inserted_order (id restaurant_id : uuid) (t : timestamp) : Order.t :=
  Order.mk id restaurant_id pending None None t.

(** Modelled from the spec: the column defaults of [order_items], set by a
    schema that is not in the sources; an inserted item is ['pending'] and
    unclaimed. *)
Definition inserted_item (id order_id : uuid) (l : OrderLine) : OrderItem.t :=
  OrderItem.mk id order_id (line_menu_item_id l) (line_quantity l)
    item_pending None None None.

(** [.from('orders').insert({..., status: 'pending'}).select().single()] *)
Definition insert_order (restaurant_id : uuid) (t : timestamp) : Stmt Order.t :=
  fun s =>
    let row := inserted_order (gen_uuid (next_uuid s)) restaurant_id t in
    (Data row,
     mkStore (order_items s) (orders s ++ [row]) (active_sessions s) (users s)
       (unique_user_restaurant s) (S (next_uuid s))).

(** The rows of one insert take their ids from the counter, in order. *)
Fixpoint item_rows (n : nat) (order_id : uuid) (lines : list OrderLine)
  : list OrderItem.t :=
  match lines with
  | [] => []
  | l :: rest => inserted_item (gen_uuid n) order_id l :: item_rows (S n) order_id rest
  end.

(** [.from('order_items').insert(orderItems)] *)
Definition insert_items (order_id : uuid) (lines : list OrderLine) : Stmt unit :=
  fun s =>
    (Data tt,
     mkStore (order_items s ++ item_rows (next_uuid s) order_id lines) (orders s)
       (active_sessions s) (users s) (unique_user_restaurant s)
       (length lines + next_uuid s)).

Module dbHelpers.

(** [dbHelpers.claimOrder]: [supabase.rpc('claim_order', ...)]. *)
Definition claimOrder (orderId sessionId : uuid) : Prog (Resp bool) :=
  t <- now ;;
  r <- supabase (claim_order orderId sessionId t) ;;
  Ret r.

(** [dbHelpers.releaseOrder]: [supabase.rpc('release_order', ...)]. *)
Definition releaseOrder (orderId sessionId : uuid) : Prog (Resp bool) :=
  r <- supabase (release_order orderId sessionId) ;;
  Ret r.

(** [dbHelpers.updateSessionHeartbeat]. *)
Definition updateSessionHeartbeat (sessionId : uuid) : Prog (Resp unit) :=
  r <- supabase (update_session_active sessionId) ;;
  Ret r.

(** [dbHelpers.createOrder]: the order, then its items. *)
Definition createOrder (restaurant_id : uuid) (items : list OrderLine)
  : Prog (Resp Order.t) :=
  t <- now ;;
  r <- supabase (insert_order restaurant_id t) ;;
  match r with
  | Error => Ret Error
  | Data order =>
      r <- supabase (insert_items (Order.id order) items) ;;
      match r with
      | Error => Ret Error
      | Data _ => Ret (Data order)
      end
  end.

End dbHelpers.

(* ================================================================== *)
(** * More of the pages *)

(** [handleClaimOrder] of [KitchenInterface.tsx]; [user] and [station] are
    the page's state. *)
Definition handleClaimOrder (user : option uuid) (station : string) (orderId : uuid)
  : Prog unit :=
  match user with
  | None => Ret tt
  | Some userId =>
      success <- claimOrder orderId userId (Some station) ;;
      if success then loadKitchenOrders else Ret tt
  end.

(** [handleReleaseOrder] of [KitchenInterface.tsx]. *)
Definition handleReleaseOrder (user : option uuid) (orderId : uuid) : Prog unit :=
  match user with
  | None => Ret tt
  | Some userId =>
      success <- releaseOrder orderId userId ;;
      if success then loadKitchenOrders else Ret tt
  end.

(** [.from('active_sessions').delete().eq('user_id', userId)] *)
Definition delete_sessions_of (userId : uuid) : Stmt unit :=
  fun s =>
    (Data tt,
     with_active_sessions s
       (delete (fun r => String.eqb (ActiveSession.user_id r) userId) (active_sessions s))).

(** [.from('users').update({ restaurant_id: null, role: 'customer' }).eq('id', userId)];
    [role] is not among the columns the rows of the model keep. *)
Definition update_user_removed (userId : uuid) : Stmt unit :=
  fun s =>
    (Data tt,
     mkStore (order_items s) (orders s) (active_sessions s)
       (update (fun u => User.mk (User.id u) None)
          (fun u => String.eqb (User.id u) userId) (users s))
       (unique_user_restaurant s) (next_uuid s)).

(** [removeStaff] of [StaffManagement.tsx]; [confirmed] is the answer to the
    [confirm] dialog. *)
Definition removeStaff (confirmed : bool) (userId : uuid) : Prog unit :=
  if confirmed
  then
    _ <- supabase (delete_sessions_of userId) ;;
    r <- supabase (update_user_removed userId) ;;
    match r with
    | Error => Ret tt
    | Data _ => loadStaffData
    end
  else Ret tt.

From Stdlib Require Import ZArith.

(** ** Ages of orders on the kitchen page *)

(** [Math.floor(diffMs / (1000 * 60))]; the times are the milliseconds of
    [Date.getTime()], whole numbers that the division and the floor treat
    exactly. *)
Definition diffMins (now_ms createdAt_ms : Z) : Z :=
  Z.div (now_ms - createdAt_ms) (1000 * 60).



Inductive Urgency : Type :=
| urgent
| warning
| normal.

(** [getOrderUrgency] of [KitchenInterface.tsx]. *)
Definition getOrderUrgency (now_ms createdAt_ms : Z) : Urgency :=
  let m := diffMins now_ms createdAt_ms in
  if Z.ltb 20 m then urgent
  else if Z.ltb 10 m then warning
  else normal.

(* ================================================================== *)
(** * contexts/CartContext.tsx: the cart reducer *)

Module Cart.

(** The numbers of the cart, quantities and prices, are JavaScript numbers;
    the reducer adds them, multiplies them and compares them with zero. *)
Class Number (num : Type) : Type := {
  zero : num;
  add : num -> num -> num;
  mul : num -> num -> num;
  lez : num -> bool
}.

(** The fields of a menu item the reducer reads. *)
Record MenuItem (num : Type) : Type := mkMenuItem {
  id : uuid;
  price : num
}.

Arguments mkMenuItem {num} id price.
Arguments id {num} m.
Arguments price {num} m.

Record CartItem (num : Type) : Type := mkCartItem {
  menu_item : MenuItem num;
  quantity : num;
  special_instructions : option string;
  subtotal : num
}.

Arguments mkCartItem {num} menu_item quantity special_instructions subtotal.
Arguments menu_item {num} c.
Arguments quantity {num} c.
Arguments special_instructions {num} c.
Arguments subtotal {num} c.

Inductive CartAction (num : Type) : Type :=
| ADD_ITEM (item : MenuItem num) (quantity : num) (specialInstructions : option string)
| REMOVE_ITEM (menuItemId : uuid)
| UPDATE_QUANTITY (menuItemId : uuid) (quantity : num)
| UPDATE_INSTRUCTIONS (menuItemId : uuid) (instructions : string)
| CLEAR_CART
| LOAD_CART (items : list (CartItem num)).

Arguments ADD_ITEM {num} item quantity specialInstructions.
Arguments REMOVE_ITEM {num} menuItemId.
Arguments UPDATE_QUANTITY {num} menuItemId quantity.
Arguments UPDATE_INSTRUCTIONS {num} menuItemId instructions.
Arguments CLEAR_CART {num}.
Arguments LOAD_CART {num} items.

(** [a === b] on an optional string. *)
Definition same_note (a b : option string) : bool :=
  match a, b with
  | Some x, Some y => String.eqb x y
  | None, None => true
  | _, _ => false
  end.

(** [Array.prototype.findIndex]; [None] is the source's [-1]. *)
Fixpoint findIndex {A : Type} (p : A -> bool) (l : list A) : option nat :=
  match l with
  | [] => None
  | x :: rest => if p x then Some 0 else option_map S (findIndex p rest)
  end.

(** The array with the element at index [i] changed. *)
Fixpoint change_at {A : Type} (i : nat) (f : A -> A) (l : list A) : list A :=
  match l, i with
  | [], _ => []
  | x :: rest, O => f x :: rest
  | x :: rest, S j => x :: change_at j f rest
  end.

(** [cartItem.menu_item.id === item.id &&
     cartItem.special_instructions === specialInstructions] *)
Definition same_line {num : Type} (itemId : uuid) (note : option string)
  (c : CartItem num) : bool :=
  String.eqb (id (menu_item c)) itemId && same_note (special_instructions c) note.

(** [existingItem.quantity += quantity; existingItem.subtotal = ...] *)
Definition more {num : Type} `{Number num} (q : num) (c : CartItem num) : CartItem num :=
  mkCartItem (menu_item c) (add (quantity c) q) (special_instructions c)
    (mul (add (quantity c) q) (price (menu_item c))).

(** [{ ...item, quantity, subtotal: quantity * item.menu_item.price }] *)
Definition with_quantity {num : Type} `{Number num} (q : num) (c : CartItem num)
  : CartItem num :=
  mkCartItem (menu_item c) q (special_instructions c) (mul q (price (menu_item c))).

(** [{ ...item, special_instructions: instructions }] *)
Definition with_instructions {num : Type} (instructions : string) (c : CartItem num)
  : CartItem num :=
  mkCartItem (menu_item c) (quantity c) (Some instructions) (subtotal c).

(** [cartReducer]; the state is its [items]. *)
Definition cartReducer {num : Type} `{Number num} (state : list (CartItem num))
  (action : CartAction num) : list (CartItem num) :=
  match action with
  | ADD_ITEM item q specialInstructions =>
      match findIndex (same_line (id item) specialInstructions) state with
      | Some existingItemIndex => change_at existingItemIndex (more q) state
      | None =>
          state ++ [mkCartItem item q specialInstructions (mul q (price item))]
      end
  | REMOVE_ITEM menuItemId =>
      filter (fun c => negb (String.eqb (id (menu_item c)) menuItemId)) state
  | UPDATE_QUANTITY menuItemId q =>
      if lez q
      then filter (fun c => negb (String.eqb (id (menu_item c)) menuItemId)) state
      else map (fun c => if String.eqb (id (menu_item c)) menuItemId
                         then with_quantity q c else c) state
  | UPDATE_INSTRUCTIONS menuItemId instructions =>
      map (fun c => if String.eqb (id (menu_item c)) menuItemId
                    then with_instructions instructions c else c) state
  | CLEAR_CART => []
  | LOAD_CART items => items
  end.

(** [state.items.reduce((sum, item) => sum + item.subtotal, 0)] *)
Definition total {num : Type} `{Number num} (items : list (CartItem num)) : num :=
  fold_left (fun sum item => add sum (subtotal item)) items zero.

(** [state.items.reduce((sum, item) => sum + item.quantity, 0)] *)
Definition itemCount {num : Type} `{Number num} (items : list (CartItem num)) : num :=
  fold_left (fun sum item => add sum (quantity item)) items zero.

(** Whole numbers as the numbers of a cart. *)
#[export] Instance Number_Z : Number Z := {
  zero := 0%Z;
  add := Z.add;
  mul := Z.mul;
  lez := fun n => Z.leb n 0
}.

End Cart.

(** ** The cart reducer on objects *)

(** The lines of a cart are objects, and the state is the array of their
    addresses: [[...state.items]] copies the addresses, not the lines, and
    [existingItem.quantity += quantity] writes into the line that the given
    state holds.  The memory is the list of the objects by address. *)
Module CartMemory.
Import Cart.

Definition Ref : Type := nat.

(** The object at an address. *)
Definition deref {num : Type} (h : list (CartItem num)) (r : Ref)
  : option (CartItem num) :=
  nth_error h r.

(** A test of the source on the object at an address. *)
Definition test {num : Type} (p : CartItem num -> bool) (h : list (CartItem num))
  (r : Ref) : bool :=
  match deref h r with
  | Some c => p c
  | None => false
  end.

(** [state.items.map(item => p(item) ? { ...item, ... } : item)]: a new object
    for every line that passes the test, the same object for the others. *)
Fixpoint map_alloc {num : Type} (p : CartItem num -> bool)
  (f : CartItem num -> CartItem num) (h : list (CartItem num)) (state : list Ref)
  : list (CartItem num) * list Ref :=
  match state with
  | [] => (h, [])
  | r :: rest =>
      match deref h r with
      | Some c =>
          if p c
          then let (h', rest') := map_alloc p f (h ++ [f c]) rest in
               (h', length h :: rest')
          else let (h', rest') := map_alloc p f h rest in (h', r :: rest')
      | None => let (h', rest') := map_alloc p f h rest in (h', r :: rest')
      end
  end.

(** [cartReducer] on a memory: the memory and the state afterwards. *)
Definition cartReducer {num : Type} `{Number num} (h : list (CartItem num))
  (state : list Ref) (action : CartAction num) : list (CartItem num) * list Ref :=
  match action with
  | ADD_ITEM item q specialInstructions =>
      match findIndex (test (same_line (id item) specialInstructions) h) state with
      | Some existingItemIndex =>
          match nth_error state existingItemIndex with
          | Some existingItem => (change_at existingItem (more q) h, state)
          | None => (h, state)
          end
      | None =>
          (h ++ [mkCartItem item q specialInstructions (mul q (price item))],
           state ++ [length h])
      end
  | REMOVE_ITEM menuItemId =>
      (h, filter (test (fun c => negb (String.eqb (id (menu_item c)) menuItemId)) h) state)
  | UPDATE_QUANTITY menuItemId q =>
      if lez q
      then (h, filter (test (fun c => negb (String.eqb (id (menu_item c)) menuItemId)) h)
                 state)
      else map_alloc (fun c => String.eqb (id (menu_item c)) menuItemId)
             (with_quantity q) h state
  | UPDATE_INSTRUCTIONS menuItemId instructions =>
      map_alloc (fun c => String.eqb (id (menu_item c)) menuItemId)
        (with_instructions instructions) h state
  | CLEAR_CART => (h, [])
  | LOAD_CART items => (h ++ items, seq (length h) (length items))
  end.

(** The lines a state shows in a memory. *)
Definition view {num : Type} (h : list (CartItem num)) (state : list Ref)
  : list (option (CartItem num)) :=
  map (deref h) state.

End CartMemory.

(** ** Vocabulary of the statements on the cart *)

Module CartSpec.
Import Cart.

(** What a line is a line of: the menu item and the note. *)
Definition line_key {num : Type} (c : CartItem num) : uuid * option string :=
  (id (menu_item c), special_instructions c).

(** No two lines of the cart share the menu item and the note. *)
Definition lines_distinct {num : Type} (state : list (CartItem num)) : Prop :=
  NoDup (map line_key state).

(** Every line's subtotal is its quantity times the price of its menu item. *)
Definition priced {num : Type} `{Number num} (state : list (CartItem num)) : Prop :=
  Forall (fun c => subtotal c = mul (quantity c) (price (menu_item c))) state.

(** The first line of a menu item and note. *)
Definition line_of {num : Type} (state : list (CartItem num)) (itemId : uuid)
  (note : option string) : option (CartItem num) :=
  find (same_line itemId note) state.

Definition key_eq_dec (a b : uuid * option string) : {a = b} + {a <> b}.
Proof. repeat decide equality. Defined.

End CartSpec.

(** The id the database gives to the next inserted row is the id of no order
    that an item of the store refers to. *)
Definition next_id_unused (s : Store) : Prop :=
  forall i, In i (order_items s) -> OrderItem.order_id i <> gen_uuid (next_uuid s).

(** A program of the source, as a tree of round trips. *)
Ltac as_tree := unfold supabase, now; cbn [bind].

(* ================================================================== *)
(** * Running programs *)

Unset Implicit Arguments.

Lemma run_bind {A B : Type} (p : Prog A) (f : A -> Prog B) (w : World) :
  run (bind p f) w = run (f (fst (run p w))) (snd (run p w)).
Proof.
  revert w. induction p as [a | k IH | R stmt k IH]; intros w; simpl.
  - reflexivity.
  - apply IH.
  - destruct (roundtrip stmt w) as [r w']. apply IH.
Qed.

Lemma run_Await {A R : Type} (stmt : Stmt R) (k : Resp R -> Prog A) (w : World) :
  run (Await stmt k) w = run (k (fst (roundtrip stmt w))) (snd (roundtrip stmt w)).
Proof. simpl. destruct (roundtrip stmt w); reflexivity. Qed.

Lemma run_Now {A : Type} (k : timestamp -> Prog A) (w : World) :
  run (Now k) w = run (k (clock w)) w.
Proof. reflexivity. Qed.

(** A round trip that does not fail in transit executes its statement. *)
Lemma roundtrip_reliable {R : Type} (stmt : Stmt R) (w : World) :
  reliable w ->
  roundtrip stmt w
  = (fst (stmt (db w)), mkWorld (snd (stmt (db w))) (S (clock w)) (tl (faults w))).
Proof.
  unfold reliable, roundtrip. intros H.
  destruct (faults w) as [| f fs]; [| inversion H; subst f];
    destruct (stmt (db w)); reflexivity.
Qed.

Lemma reliable_tl (s : Store) (c : timestamp) (w : World) :
  reliable w -> reliable (mkWorld s c (tl (faults w))).
Proof.
  unfold reliable. simpl. intros H.
  destruct (faults w); [constructor | inversion H; assumption].
Qed.

(** Whatever happens in transit, a round trip leaves the store as it was or
    as the statement makes it. *)
Lemma roundtrip_cases {R : Type} (stmt : Stmt R) (w : World) :
  (fst (roundtrip stmt w) = Error /\ db (snd (roundtrip stmt w)) = db w)
  \/ (fst (roundtrip stmt w) = fst (stmt (db w))
      /\ db (snd (roundtrip stmt w)) = snd (stmt (db w))).
Proof.
  unfold roundtrip.
  destruct (faults w) as [| [|] fs]; simpl;
    try (left; split; reflexivity);
    destruct (stmt (db w)); right; split; reflexivity.
Qed.

Lemma roundtrip_clock {R : Type} (stmt : Stmt R) (w : World) :
  clock (snd (roundtrip stmt w)) = S (clock w).
Proof.
  unfold roundtrip.
  destruct (faults w) as [| [|] fs]; simpl; try reflexivity;
    destruct (stmt (db w)); reflexivity.
Qed.

(** ** Tables *)

Lemma update_Forall2 {Row : Type} (patch : Row -> Row) (where_ : Row -> bool)
  (tbl : list Row) :
  Forall2 (fun r r' => r' = if where_ r then patch r else r) tbl (update patch where_ tbl).
Proof.
  induction tbl as [| r tbl IH]; simpl; constructor; [reflexivity | exact IH].
Qed.

Lemma update_none {Row : Type} (patch : Row -> Row) (where_ : Row -> bool)
  (tbl : list Row) :
  (forall r, In r tbl -> where_ r = false) -> update patch where_ tbl = tbl.
Proof.
  induction tbl as [| r tbl IH]; simpl; intros H; [reflexivity |].
  rewrite (H r (or_introl eq_refl)). f_equal. apply IH.
  intros r' Hr'. apply H. right. exact Hr'.
Qed.

Lemma Forall2_weaken {A B : Type} (P Q : A -> B -> Prop) (l : list A) (l' : list B) :
  (forall a b, In a l -> P a b -> Q a b) -> Forall2 P l l' -> Forall2 Q l l'.
Proof.
  intros H F. induction F as [| a b l l' Hab F IH]; constructor.
  - apply H; [left; reflexivity | exact Hab].
  - apply IH. intros a' b' Ha'. apply H. right. exact Ha'.
Qed.

Lemma In_items_of (orderId : uuid) (s : Store) (i : OrderItem.t) :
  In i (items_of orderId s) <-> In i (order_items s) /\ OrderItem.order_id i = orderId.
Proof.
  unfold items_of, select. rewrite filter_In, String.eqb_eq. reflexivity.
Qed.

(* ================================================================== *)
(** * createKitchenSession touches the sessions only *)

Lemma select_user_restaurant_db (userId : uuid) (s : Store) :
  snd (select_user_restaurant userId s) = s.
Proof.
  unfold select_user_restaurant.
  destruct (single _); reflexivity.
Qed.

Lemma upsert_kitchen_session_frame (u r : uuid) (st : string) (t : timestamp) (s : Store) :
  order_items (snd (upsert_kitchen_session u r st t s)) = order_items s
  /\ orders (snd (upsert_kitchen_session u r st t s)) = orders s.
Proof.
  unfold upsert_kitchen_session.
  destruct (negb (unique_user_restaurant s)); [split; reflexivity |].
  destruct (existsb _ _); split; reflexivity.
Qed.

Lemma createKitchenSession_frame (userId : uuid) (station : string) (w : World) :
  order_items (after (createKitchenSession userId station) w) = order_items (db w)
  /\ orders (after (createKitchenSession userId station) w) = orders (db w).
Proof.
  unfold after, createKitchenSession. as_tree. rewrite run_Await.
  assert (Hdb : db (snd (roundtrip (select_user_restaurant userId) w)) = db w).
  { destruct (roundtrip_cases (select_user_restaurant userId) w) as [[_ H] | [_ H]];
      rewrite H; [reflexivity | apply select_user_restaurant_db]. }
  set (w1 := snd (roundtrip (select_user_restaurant userId) w)) in *.
  destruct (fst (roundtrip (select_user_restaurant userId) w)) as [[rid |] |];
    try (simpl; rewrite Hdb; split; reflexivity).
  rewrite run_Now, run_Await. cbn [run snd].
  destruct (roundtrip_cases (upsert_kitchen_session userId rid station (clock w1)) w1)
    as [[_ H] | [_ H]]; rewrite H.
  - rewrite Hdb. split; reflexivity.
  - destruct (upsert_kitchen_session_frame userId rid station (clock w1) (db w1))
      as [H1 H2].
    rewrite H1, H2, Hdb. split; reflexivity.
Qed.

(* ================================================================== *)
(** * claimOrder *)

(** What the client computes from the rows it fetched. *)
Lemma alreadyClaimed_true (orderId userId : uuid) (s : Store) :
  claimed_by_another orderId userId s ->
  existsb (fun item => claimed_by_other userId (snd item))
    (map (fun i => (OrderItem.id i, OrderItem.claimed_by_user_id i)) (items_of orderId s))
  = true.
Proof.
  intros (i & u & Hin & Hc & Hne).
  apply existsb_exists.
  exists (OrderItem.id i, OrderItem.claimed_by_user_id i). split.
  - apply in_map_iff. exists i. split; [reflexivity | exact Hin].
  - simpl. rewrite Hc. simpl. apply negb_true_iff, String.eqb_neq. exact Hne.
Qed.

Lemma alreadyClaimed_false (orderId userId : uuid) (s : Store) :
  ~ claimed_by_another orderId userId s ->
  existsb (fun item => claimed_by_other userId (snd item))
    (map (fun i => (OrderItem.id i, OrderItem.claimed_by_user_id i)) (items_of orderId s))
  = false.
Proof.
  intros Hno.
  destruct (existsb _ _) eqn:E; [| reflexivity].
  exfalso. apply Hno.
  apply existsb_exists in E. destruct E as ([id cb] & Hin & Hc).
  apply in_map_iff in Hin. destruct Hin as (i & Heq & Hin).
  inversion Heq; subst id cb. simpl in Hc.
  unfold claimed_by_other in Hc.
  destruct (OrderItem.claimed_by_user_id i) as [u |] eqn:Ecb; [| discriminate].
  exists i, u. split; [exact Hin | split; [exact Ecb |]].
  apply String.eqb_neq, negb_true_iff. exact Hc.
Qed.

(** A call that meets a claim of another worker returns [false] and leaves
    the whole store as it was, whatever happens in transit. *)
Lemma claimOrder_conflict (orderId userId : uuid) (station : option string) (w : World) :
  claimed_by_another orderId userId (db w) ->
  outcome (claimOrder orderId userId station) w = false
  /\ after (claimOrder orderId userId station) w = db w.
Proof.
  intros Hc. unfold outcome, after, claimOrder. as_tree. rewrite run_Await.
  destruct (roundtrip_cases (select_claims orderId) w) as [[Hr Hdb] | [Hr Hdb]];
    rewrite Hr.
  - split; [reflexivity | exact Hdb].
  - cbn [select_claims fst]. fold (items_of orderId (db w)).
    destruct (Nat.eqb _ 0); [split; [reflexivity | exact Hdb] |].
    rewrite (alreadyClaimed_true _ _ _ Hc). split; [reflexivity | exact Hdb].
Qed.

(** A call on an order that has items, none of them claimed by another
    worker, with no failure in transit: the call returns [true], the filtered
    update has run on the items, and the guarded update on the order. *)
Lemma claimOrder_claimed (orderId userId : uuid) (station : option string) (w : World) :
  reliable w ->
  items_of orderId (db w) <> [] ->
  ~ claimed_by_another orderId userId (db w) ->
  outcome (claimOrder orderId userId station) w = true
  /\ order_items (after (claimOrder orderId userId station) w)
     = update (claim_patch userId (S (clock w))) (unclaimed_of orderId)
         (order_items (db w))
  /\ orders (after (claimOrder orderId userId station) w)
     = update (status_patch preparing (S (S (clock w))))
         (fun o => String.eqb (Order.id o) orderId
                   && OrderStatus_eqb (Order.status o) pending)
         (orders (db w)).
Proof.
  intros Hrel Hne Hno. unfold outcome, after, claimOrder. as_tree.
  rewrite run_Await, (roundtrip_reliable _ _ Hrel).
  cbn [select_claims fst snd]. fold (items_of orderId (db w)).
  rewrite length_map.
  destruct (items_of orderId (db w)) as [| i0 rest] eqn:Eitems; [contradiction |].
  cbn [length Nat.eqb]. rewrite <- Eitems, (alreadyClaimed_false _ _ _ Hno).
  set (w1 := mkWorld (db w) (S (clock w)) (tl (faults w))).
  assert (Hrel1 : reliable w1) by (apply reliable_tl; exact Hrel).
  rewrite run_Now, run_Await, (roundtrip_reliable _ _ Hrel1).
  cbn [update_claim fst snd db clock w1].
  set (w2 := mkWorld _ (S (S (clock w))) (tl (faults w1))).
  assert (Hrel2 : reliable w2) by (apply reliable_tl; exact Hrel1).
  rewrite run_Now, run_Await, (roundtrip_reliable _ _ Hrel2).
  cbn [update_order_preparing fst snd db clock w2].
  set (w3 := mkWorld _ (S (S (S (clock w)))) (tl (faults w2))).
  rewrite run_bind. cbn [run fst snd].
  set (tail := match station with
               | Some st => if truthy station then createKitchenSession userId st
                            else Ret tt
               | None => Ret tt
               end).
  assert (Hframe : order_items (db (snd (run tail w3))) = order_items (db w3)
                   /\ orders (db (snd (run tail w3))) = orders (db w3)).
  { unfold tail. destruct station as [st |]; [| split; reflexivity].
    destruct (truthy (Some st)); [| split; reflexivity].
    apply createKitchenSession_frame. }
  destruct Hframe as [H1 H2]. rewrite H1, H2.
  split; [reflexivity | split; reflexivity].
Qed.

(** C1, as stated, fails on an order without items: no item of O3 is claimed
    by another worker, and the call still returns [false].  It fails as well
    when the store cannot be reached. *)
Lemma claimOrder_empty_order_refused :
  ~ (~ claimed_by_another "O3" "W1" (db opening) ->
     outcome (claimOrder "O3" "W1" None) opening = true)
  /\ ~ (~ claimed_by_another "O1" "W1" (db (outage opening)) ->
        outcome (claimOrder "O1" "W1" None) (outage opening) = true).
Proof.
  split; intros H.
  - assert (Hno : ~ claimed_by_another "O3" "W1" (db opening)).
    { intros (i & u & Hin & _). simpl in Hin. exact Hin. }
    specialize (H Hno). vm_compute in H. discriminate H.
  - assert (Hno : ~ claimed_by_another "O1" "W1" (db (outage opening))).
    { intros (i & u & Hin & Hc & _). simpl in Hin.
      destruct Hin as [<- | [<- | []]]; discriminate Hc. }
    specialize (H Hno). vm_compute in H. discriminate H.
Qed.

(** C1 (amended): a call that meets an item of the order claimed by another
    worker returns [false] and changes nothing in the store; a call on an
    order that has at least one item, none claimed by another worker, returns
    [true] when no round trip fails, and it sets the claim-owner, the
    claimed-at time and the status ['claimed'] on exactly the items of the
    order whose claim-owner was unset, every other item staying as it was. *)
Theorem claimOrder_all_or_nothing (orderId userId : uuid) (station : option string)
  (w : World) :
  (claimed_by_another orderId userId (db w) ->
   outcome (claimOrder orderId userId station) w = false
   /\ after (claimOrder orderId userId station) w = db w)
  /\ (items_of orderId (db w) <> [] ->
      ~ claimed_by_another orderId userId (db w) ->
      reliable w ->
      outcome (claimOrder orderId userId station) w = true
      /\ Forall2
           (fun i i' =>
              i' = if String.eqb (OrderItem.order_id i) orderId
                      && is_null (OrderItem.claimed_by_user_id i)
                   then claim_patch userId (S (clock w)) i
                   else i)
           (order_items (db w))
           (order_items (after (claimOrder orderId userId station) w))).
Proof.
  split.
  - apply claimOrder_conflict.
  - intros Hne Hno Hrel.
    destruct (claimOrder_claimed _ _ station _ Hrel Hne Hno) as (Hout & Hitems & _).
    split; [exact Hout |].
    rewrite Hitems. apply (update_Forall2 _ (unclaimed_of orderId)).
Qed.

(** W2 calls on O1 after W1 has claimed it; W1 calls on the fresh O1. *)
Lemma claimOrder_all_or_nothing_witness :
  (outcome (claimOrder "O1" "W2" None) (then_ opening (claimOrder "O1" "W1" None)) = false
   /\ after (claimOrder "O1" "W2" None) (then_ opening (claimOrder "O1" "W1" None))
      = db (then_ opening (claimOrder "O1" "W1" None)))
  /\ (outcome (claimOrder "O1" "W1" (Some "Grill")) opening = true
      /\ Forall2
           (fun i i' =>
              i' = if String.eqb (OrderItem.order_id i) "O1"
                      && is_null (OrderItem.claimed_by_user_id i)
                   then claim_patch "W1" 1 i
                   else i)
           (order_items (db opening))
           (order_items (after (claimOrder "O1" "W1" (Some "Grill")) opening))).
Proof.
  split.
  - apply (claimOrder_all_or_nothing "O1" "W2" None
             (then_ opening (claimOrder "O1" "W1" None))).
    exists (claim_patch "W1" 1 (new_item "A" "O1")), "W1".
    split; [left; reflexivity | split; [reflexivity | discriminate]].
  - apply (claimOrder_all_or_nothing "O1" "W1" (Some "Grill") opening).
    + discriminate.
    + intros (i & u & Hin & Hc & _). simpl in Hin.
      destruct Hin as [<- | [<- | []]]; discriminate Hc.
    + constructor.
Defined.

(** C10, as stated, fails on an order the store does not know: "every item"
    of it is unclaimed, and the call returns [false].  It fails as well when
    the store cannot be reached. *)
Lemma claimOrder_unknown_order_refused :
  ~ ((forall i, In i (items_of "O9" (db opening)) ->
        OrderItem.claimed_by_user_id i = None
        \/ OrderItem.claimed_by_user_id i = Some "W2") ->
     outcome (claimOrder "O9" "W2" (Some "Prep")) opening = true)
  /\ ~ ((forall i, In i (items_of "O2" (db (outage opening))) ->
           OrderItem.claimed_by_user_id i = None
           \/ OrderItem.claimed_by_user_id i = Some "W2") ->
        outcome (claimOrder "O2" "W2" (Some "Prep")) (outage opening) = true).
Proof.
  split; intros H.
  - assert (Hall : forall i, In i (items_of "O9" (db opening)) ->
                     OrderItem.claimed_by_user_id i = None
                     \/ OrderItem.claimed_by_user_id i = Some "W2").
    { intros i Hin. simpl in Hin. contradiction. }
    specialize (H Hall). vm_compute in H. discriminate H.
  - assert (Hall : forall i, In i (items_of "O2" (db (outage opening))) ->
                     OrderItem.claimed_by_user_id i = None
                     \/ OrderItem.claimed_by_user_id i = Some "W2").
    { intros i Hin. simpl in Hin. destruct Hin as [<- | []]. left. reflexivity. }
    specialize (H Hall). vm_compute in H. discriminate H.
Qed.

(** C10 (amended): on an order that has at least one item, each item either
    unclaimed or already claimed by the caller, the call returns [true] when
    no round trip fails, and every item the caller already owns keeps all its
    fields: claim-owner, claimed-at time and status. *)
Theorem claimOrder_idempotent_for_owner (orderId userId : uuid)
  (station : option string) (w : World) :
  reliable w ->
  items_of orderId (db w) <> [] ->
  (forall i, In i (items_of orderId (db w)) ->
     OrderItem.claimed_by_user_id i = None
     \/ OrderItem.claimed_by_user_id i = Some userId) ->
  outcome (claimOrder orderId userId station) w = true
  /\ Forall2
       (fun i i' => OrderItem.claimed_by_user_id i = Some userId -> i' = i)
       (order_items (db w))
       (order_items (after (claimOrder orderId userId station) w)).
Proof.
  intros Hrel Hne Hown.
  assert (Hno : ~ claimed_by_another orderId userId (db w)).
  { intros (i & u & Hin & Hc & Hneq).
    destruct (Hown i Hin) as [H | H]; rewrite H in Hc; [discriminate |].
    inversion Hc. congruence. }
  destruct (claimOrder_claimed _ _ station _ Hrel Hne Hno) as (Hout & Hitems & _).
  split; [exact Hout |].
  rewrite Hitems.
  apply Forall2_weaken with (2 := update_Forall2 _ (unclaimed_of orderId) _).
  intros i i' _ Hi' Hmine. subst i'.
  unfold unclaimed_of. rewrite Hmine. simpl. rewrite andb_false_r. reflexivity.
Qed.

(** W1 holds A and B of O1 and claims O1 again. *)
Lemma claimOrder_idempotent_for_owner_witness :
  outcome (claimOrder "O1" "W1" None) (then_ opening (claimOrder "O1" "W1" None)) = true
  /\ Forall2
       (fun i i' => OrderItem.claimed_by_user_id i = Some "W1" -> i' = i)
       (order_items (db (then_ opening (claimOrder "O1" "W1" None))))
       (order_items (after (claimOrder "O1" "W1" None)
                       (then_ opening (claimOrder "O1" "W1" None)))).
Proof.
  apply (claimOrder_idempotent_for_owner "O1" "W1" None
           (then_ opening (claimOrder "O1" "W1" None))).
  - constructor.
  - discriminate.
  - intros i Hin. simpl in Hin.
    destruct Hin as [<- | [<- | []]]; right; reflexivity.
Defined.

(* ================================================================== *)
(** * markItemCompleted *)

(** The call is one filtered update; its answer is [true] unless the round
    trip fails. *)
Lemma markItemCompleted_run (itemId userId : uuid) (w : World) :
  (outcome (markItemCompleted itemId userId) w = false
   /\ after (markItemCompleted itemId userId) w = db w)
  \/ (outcome (markItemCompleted itemId userId) w = true
      /\ after (markItemCompleted itemId userId) w
         = with_order_items (db w)
             (update (complete_patch (clock w)) (owned_item itemId userId)
                (order_items (db w)))).
Proof.
  unfold outcome, after, markItemCompleted. as_tree. rewrite run_Now, run_Await.
  destruct (roundtrip_cases (update_completed itemId userId (clock w)) w)
    as [[Hr Hdb] | [Hr Hdb]]; rewrite Hr.
  - left. split; [reflexivity | exact Hdb].
  - right. split; [reflexivity | exact Hdb].
Qed.

Lemma markItemCompleted_reliable (itemId userId : uuid) (w : World) :
  reliable w -> outcome (markItemCompleted itemId userId) w = true.
Proof.
  intros Hrel. unfold outcome, markItemCompleted. as_tree.
  rewrite run_Now, run_Await, (roundtrip_reliable _ _ Hrel). reflexivity.
Qed.

(** The orders are out of reach of [markItemCompleted]. *)
Lemma markItemCompleted_orders (itemId userId : uuid) (w : World) :
  orders (after (markItemCompleted itemId userId) w) = orders (db w).
Proof.
  destruct (markItemCompleted_run itemId userId w) as [[_ H] | [_ H]];
    rewrite H; reflexivity.
Qed.

Lemma with_order_items_same (s : Store) : with_order_items s (order_items s) = s.
Proof. destruct s; reflexivity. Qed.

(** C3, as stated, fails on the answer: A is claimed by W1, W2 marks it
    completed, and the call returns [true]. *)
Lemma markItemCompleted_other_worker_true :
  ~ ((forall i, In i (order_items (db (then_ opening (claimOrder "O1" "W1" None)))) ->
        OrderItem.id i = "A" -> OrderItem.claimed_by_user_id i <> Some "W2") ->
     outcome (markItemCompleted "A" "W2") (then_ opening (claimOrder "O1" "W1" None))
     = false).
Proof.
  intros H.
  assert (Hnot : forall i,
             In i (order_items (db (then_ opening (claimOrder "O1" "W1" None)))) ->
             OrderItem.id i = "A" -> OrderItem.claimed_by_user_id i <> Some "W2").
  { intros i Hin _. simpl in Hin.
    destruct Hin as [<- | [<- | [<- | []]]]; discriminate. }
  specialize (H Hnot). vm_compute in H. discriminate H.
Qed.

(** C3 (amended): a call by a worker who is not the claim-owner of the item
    changes nothing in the store, and it returns [true] unless the round trip
    fails (there is no refusal); on every call, an item that
    [markItemCompleted] changes is the item [itemId], claimed by the caller,
    and the change is the completion patch. *)
Theorem markItemCompleted_owner_only (itemId userId : uuid) (w : World) :
  ((forall i, In i (order_items (db w)) ->
      OrderItem.id i = itemId -> OrderItem.claimed_by_user_id i <> Some userId) ->
   after (markItemCompleted itemId userId) w = db w
   /\ (reliable w -> outcome (markItemCompleted itemId userId) w = true))
  /\ Forall2
       (fun i i' =>
          i' = i
          \/ (OrderItem.id i = itemId
              /\ OrderItem.claimed_by_user_id i = Some userId
              /\ i' = complete_patch (clock w) i))
       (order_items (db w))
       (order_items (after (markItemCompleted itemId userId) w)).
Proof.
  split.
  - intros Hnot. split; [| apply markItemCompleted_reliable].
    destruct (markItemCompleted_run itemId userId w) as [[_ H] | [_ H]];
      rewrite H; [reflexivity |].
    rewrite update_none; [apply with_order_items_same |].
    intros i Hin. unfold owned_item.
    destruct (String.eqb (OrderItem.id i) itemId) eqn:Eid; [| reflexivity].
    apply String.eqb_eq in Eid. specialize (Hnot i Hin Eid). simpl.
    unfold eq_col. destruct (OrderItem.claimed_by_user_id i) as [u |]; [| reflexivity].
    destruct (String.eqb u userId) eqn:Eu; [| reflexivity].
    apply String.eqb_eq in Eu. subst u. contradiction.
  - destruct (markItemCompleted_run itemId userId w) as [[_ H] | [_ H]]; rewrite H.
    + clear H. induction (order_items (db w)); constructor; [left; reflexivity | assumption].
    + cbn [with_order_items order_items].
      apply Forall2_weaken with (2 := update_Forall2 _ (owned_item itemId userId) _).
      intros i i' _ Hi'. subst i'. unfold owned_item, eq_col.
      destruct (String.eqb (OrderItem.id i) itemId) eqn:Eid; [| left; reflexivity].
      destruct (OrderItem.claimed_by_user_id i) as [u |] eqn:Ecb; [| left; reflexivity].
      destruct (String.eqb u userId) eqn:Eu; [| left; reflexivity].
      apply String.eqb_eq in Eid, Eu. subst u.
      right. split; [exact Eid | split; reflexivity].
Qed.

(** W1 has claimed O1; W2 marks A completed. *)
Lemma markItemCompleted_owner_only_witness :
  after (markItemCompleted "A" "W2") (then_ opening (claimOrder "O1" "W1" None))
  = db (then_ opening (claimOrder "O1" "W1" None))
  /\ outcome (markItemCompleted "A" "W2") (then_ opening (claimOrder "O1" "W1" None))
     = true.
Proof.
  destruct (markItemCompleted_owner_only "A" "W2"
              (then_ opening (claimOrder "O1" "W1" None))) as [H _].
  destruct H as [Hdb Hout].
  - intros i Hin _. simpl in Hin.
    destruct Hin as [<- | [<- | [<- | []]]]; discriminate.
  - split; [exact Hdb | apply Hout; constructor].
Defined.

(** [markItemComplete] of the kitchen page has no filter on the claim-owner:
    called on A, which W1 has claimed, it completes A for whoever calls. *)
Lemma markItemComplete_any_caller :
  map OrderItem.status
    (items_of "O1" (after (markItemComplete "A") (then_ opening (claimOrder "O1" "W1" None))))
  = [item_completed; item_claimed].
Proof. reflexivity. Qed.

(* ================================================================== *)
(** * Order statuses under an update of the orders *)

Lemma order_status_patched (orderId : uuid) (st : OrderStatus) (t : timestamp)
  (s : Store) :
  order_status orderId
    (with_orders s
       (update (status_patch st t) (fun o => String.eqb (Order.id o) orderId) (orders s)))
  = map (fun _ => st) (order_status orderId s).
Proof.
  unfold order_status, with_orders, select, update. cbn [orders].
  induction (orders s) as [| o os IH]; [reflexivity |]. cbn [map filter].
  destruct (String.eqb (Order.id o) orderId) eqn:E.
  - cbn [status_patch Order.id]. rewrite E. cbn [map Order.status]. f_equal. exact IH.
  - rewrite E. exact IH.
Qed.

Lemma order_status_other (orderId oid : uuid) (st : OrderStatus) (t : timestamp)
  (s : Store) :
  oid <> orderId ->
  order_status oid
    (with_orders s
       (update (status_patch st t) (fun o => String.eqb (Order.id o) orderId) (orders s)))
  = order_status oid s.
Proof.
  intros Hne. unfold order_status, with_orders, select, update. cbn [orders].
  induction (orders s) as [| o os IH]; [reflexivity |]. cbn [map filter].
  destruct (String.eqb (Order.id o) orderId) eqn:E.
  - cbn [status_patch Order.id].
    apply String.eqb_eq in E.
    assert (E' : String.eqb (Order.id o) oid = false)
      by (apply String.eqb_neq; congruence).
    rewrite E'. exact IH.
  - destruct (String.eqb (Order.id o) oid); [cbn [map]; f_equal |]; exact IH.
Qed.

Lemma map_const_Forall {A B : Type} (b : B) (l : list A) :
  Forall (fun x => x = b) (map (fun _ => b) l).
Proof. induction l; constructor; [reflexivity | assumption]. Qed.

Lemma map_const_id {A : Type} (a : A) (l : list A) :
  Forall (fun x => x = a) l -> map (fun _ => a) l = l.
Proof.
  induction 1 as [| x l Hx _ IH]; [reflexivity |]. simpl. rewrite IH, Hx. reflexivity.
Qed.

(* ================================================================== *)
(** * checkOrderCompletion *)

Lemma ItemStatus_eqb_eq (a b : ItemStatus) : ItemStatus_eqb a b = true <-> a = b.
Proof. destruct a, b; simpl; split; intros H; try reflexivity; discriminate H. Qed.

(** What the client computes from the statuses it fetched. *)
Lemma allCompleted_iff (orderId : uuid) (s : Store) :
  forallb (fun st => ItemStatus_eqb st item_completed)
    (map OrderItem.status (items_of orderId s)) = true
  <-> all_completed orderId s.
Proof.
  unfold all_completed. rewrite forallb_forall. split.
  - intros H i Hin. apply ItemStatus_eqb_eq, H, in_map. exact Hin.
  - intros H st Hin. apply in_map_iff in Hin. destruct Hin as (i & <- & Hin).
    apply ItemStatus_eqb_eq, H. exact Hin.
Qed.

Lemma all_completed_dec (orderId : uuid) (s : Store) :
  all_completed orderId s \/ ~ all_completed orderId s.
Proof.
  destruct (forallb (fun st => ItemStatus_eqb st item_completed)
              (map OrderItem.status (items_of orderId s))) eqn:E.
  - left. apply allCompleted_iff. exact E.
  - right. intros H. apply allCompleted_iff in H. congruence.
Qed.

(** With an item that is not completed the aggregation writes nothing,
    whatever happens in transit. *)
Lemma checkOrderCompletion_incomplete (orderId : uuid) (w : World) :
  ~ all_completed orderId (db w) -> after (checkOrderCompletion orderId) w = db w.
Proof.
  intros Hnot. unfold after, checkOrderCompletion. as_tree. rewrite run_Await.
  destruct (roundtrip_cases (select_statuses orderId) w) as [[Hr Hdb] | [Hr Hdb]];
    rewrite Hr; [exact Hdb |].
  cbn [select_statuses fst]. fold (items_of orderId (db w)).
  destruct (forallb _ _) eqn:E; [| exact Hdb].
  exfalso. apply Hnot, allCompleted_iff. exact E.
Qed.

(** With every item completed the aggregation writes ['ready'] on the order,
    without a look at the status the order has. *)
Lemma checkOrderCompletion_completed (orderId : uuid) (w : World) :
  reliable w ->
  all_completed orderId (db w) ->
  after (checkOrderCompletion orderId) w
  = with_orders (db w)
      (update (status_patch ready (S (clock w)))
         (fun o => String.eqb (Order.id o) orderId) (orders (db w))).
Proof.
  intros Hrel Hall. unfold after, checkOrderCompletion. as_tree.
  rewrite run_Await, (roundtrip_reliable _ _ Hrel).
  cbn [select_statuses fst snd]. fold (items_of orderId (db w)).
  rewrite (proj2 (allCompleted_iff orderId (db w)) Hall).
  set (w1 := mkWorld (db w) (S (clock w)) (tl (faults w))).
  assert (Hrel1 : reliable w1) by (apply reliable_tl; exact Hrel).
  rewrite run_Now, run_Await, (roundtrip_reliable _ _ Hrel1). reflexivity.
Qed.

(** C5, as stated, fails on a served order: every item of O2 is completed and
    O2 is served; the aggregation puts O2 back to ['ready'].  And when the
    store cannot be reached, every item of O2 is completed and O2 is left
    ['preparing']. *)
Lemma checkOrderCompletion_served_to_ready :
  (map OrderItem.status (items_of "O2" (db served_O2)) = [item_completed]
   /\ order_status "O2" (db served_O2) = [served]
   /\ order_status "O2" (after (checkOrderCompletion "O2") served_O2) = [ready])
  /\ (map OrderItem.status (items_of "O2" (db (outage C_done))) = [item_completed]
      /\ order_status "O2" (after (checkOrderCompletion "O2") (outage C_done))
         = [preparing]).
Proof. repeat split. Qed.

(** C5 (amended): when no round trip fails, the aggregation sets the status
    ['ready'] on the order if every item of the order is completed, whatever
    status the order has, and it leaves the store unchanged otherwise; so the
    order is ['ready'] afterwards if and only if every item is completed or
    the order was ['ready'] before, and an order that is ['served'] or
    ['cancelled'] keeps its status as long as one item is not completed.  No
    item and no other order changes. *)
Theorem checkOrderCompletion_ready_iff (orderId : uuid) (w : World) :
  reliable w ->
  (all_completed orderId (db w) ->
   Forall2
     (fun o o' =>
        o' = if String.eqb (Order.id o) orderId
             then status_patch ready (S (clock w)) o
             else o)
     (orders (db w)) (orders (after (checkOrderCompletion orderId) w)))
  /\ (~ all_completed orderId (db w) ->
      after (checkOrderCompletion orderId) w = db w)
  /\ (Forall (fun st => st = ready)
        (order_status orderId (after (checkOrderCompletion orderId) w))
      <-> all_completed orderId (db w)
          \/ Forall (fun st => st = ready) (order_status orderId (db w)))
  /\ order_items (after (checkOrderCompletion orderId) w) = order_items (db w)
  /\ (forall oid, oid <> orderId ->
        order_status oid (after (checkOrderCompletion orderId) w)
        = order_status oid (db w)).
Proof.
  intros Hrel.
  split; [| split; [apply checkOrderCompletion_incomplete |]].
  - intros Hall. rewrite (checkOrderCompletion_completed _ _ Hrel Hall).
    apply (update_Forall2 _ (fun o => String.eqb (Order.id o) orderId)).
  - destruct (all_completed_dec orderId (db w)) as [Hall | Hnot].
    + rewrite (checkOrderCompletion_completed _ _ Hrel Hall).
      split; [split | split].
      * intros _. left. exact Hall.
      * intros _. rewrite order_status_patched. apply map_const_Forall.
      * reflexivity.
      * intros oid Hne. apply order_status_other. exact Hne.
    + rewrite (checkOrderCompletion_incomplete _ _ Hnot).
      split; [split | split].
      * intros H. right. exact H.
      * intros [Hall | H]; [contradiction | exact H].
      * reflexivity.
      * reflexivity.
Qed.

(** The aggregation on O1 while B is still claimed, and once A and B are
    completed. *)
Lemma checkOrderCompletion_ready_iff_witness :
  after (checkOrderCompletion "O1") A_done = db A_done
  /\ Forall2
       (fun o o' =>
          o' = if String.eqb (Order.id o) "O1"
               then status_patch ready (S (clock (then_ A_done (markItemCompleted "B" "W1")))) o
               else o)
       (orders (db (then_ A_done (markItemCompleted "B" "W1"))))
       (orders (after (checkOrderCompletion "O1")
                  (then_ A_done (markItemCompleted "B" "W1")))).
Proof.
  split.
  - refine (proj1 (proj2 (checkOrderCompletion_ready_iff "O1" A_done _)) _).
    + constructor.
    + intros H. specialize (H (claim_patch "W1" 1 (new_item "B" "O1"))).
      simpl in H. discriminate H. right. left. reflexivity.
  - refine (proj1 (checkOrderCompletion_ready_iff "O1"
                     (then_ A_done (markItemCompleted "B" "W1")) _) _).
    + constructor.
    + intros i Hin. simpl in Hin. destruct Hin as [<- | [<- | []]]; reflexivity.
Defined.

(* ================================================================== *)
(** * releaseOrder *)

(** The filtered update of a worker who holds nothing patches no row. *)
Lemma update_release_nothing (orderId userId : uuid) (s : Store) :
  holds_nothing orderId userId s -> snd (update_release orderId userId s) = s.
Proof.
  intros Hnone. unfold update_release. cbn [snd].
  rewrite update_none; [apply with_order_items_same |].
  intros i Hin. unfold claimed_of.
  destruct (String.eqb (OrderItem.order_id i) orderId) eqn:Eo; [| reflexivity].
  apply String.eqb_eq in Eo.
  assert (Hi : In i (items_of orderId s)) by (apply In_items_of; split; assumption).
  specialize (Hnone i Hi). unfold eq_col. simpl.
  destruct (OrderItem.claimed_by_user_id i) as [u |]; [| reflexivity].
  destruct (String.eqb u userId) eqn:Eu; [| reflexivity].
  apply String.eqb_eq in Eu. subst u. contradiction.
Qed.

(** What the client computes from the rows that are still claimed. *)
Lemma remaining_none (orderId : uuid) (s : Store) :
  Nat.eqb
    (length
       (map OrderItem.id
          (select (fun i => String.eqb (OrderItem.order_id i) orderId
                            && negb (is_null (OrderItem.claimed_by_user_id i)))
                  (order_items s)))) 0 = true
  <-> (forall i, In i (items_of orderId s) -> OrderItem.claimed_by_user_id i = None).
Proof.
  rewrite length_map, Nat.eqb_eq, length_zero_iff_nil. unfold select. split.
  - intros Hnil i Hin. apply In_items_of in Hin. destruct Hin as [Hin Ho].
    destruct (OrderItem.claimed_by_user_id i) as [u |] eqn:Ecb; [| reflexivity].
    exfalso.
    assert (Hf : In i (filter (fun i => String.eqb (OrderItem.order_id i) orderId
                                 && negb (is_null (OrderItem.claimed_by_user_id i)))
                         (order_items s))).
    { apply filter_In. split; [exact Hin |].
      rewrite Ecb. simpl. rewrite andb_true_r. apply String.eqb_eq. exact Ho. }
    rewrite Hnil in Hf. exact Hf.
  - intros Hall.
    destruct (filter _ (order_items s)) as [| i rest] eqn:E; [reflexivity |].
    exfalso.
    assert (Hf : In i (filter (fun i => String.eqb (OrderItem.order_id i) orderId
                                 && negb (is_null (OrderItem.claimed_by_user_id i)))
                         (order_items s)))
      by (rewrite E; left; reflexivity).
    apply filter_In in Hf. destruct Hf as [Hin Hc].
    apply andb_true_iff in Hc. destruct Hc as [Ho Hc].
    apply String.eqb_eq in Ho.
    rewrite (Hall i) in Hc; [discriminate Hc |].
    apply In_items_of. split; assumption.
Qed.

(** A release by a worker who holds nothing: the store stays as it was, or
    no item of the order is claimed by anyone and the order is written back to
    ['pending']. *)
Lemma releaseOrder_nothing_run (orderId userId : uuid) (w : World) :
  holds_nothing orderId userId (db w) ->
  after (releaseOrder orderId userId) w = db w
  \/ ((forall i, In i (items_of orderId (db w)) ->
         OrderItem.claimed_by_user_id i = None)
      /\ exists t,
           after (releaseOrder orderId userId) w
           = with_orders (db w)
               (update (status_patch pending t)
                  (fun o => String.eqb (Order.id o) orderId) (orders (db w)))).
Proof.
  intros Hnone. unfold after, releaseOrder. as_tree. rewrite run_Await.
  assert (Hdb1 : db (snd (roundtrip (update_release orderId userId) w)) = db w).
  { destruct (roundtrip_cases (update_release orderId userId) w) as [[_ H] | [_ H]];
      rewrite H; [reflexivity | apply update_release_nothing; exact Hnone]. }
  set (w1 := snd (roundtrip (update_release orderId userId) w)) in *.
  destruct (fst (roundtrip (update_release orderId userId) w)) as [[] |];
    [| left; exact Hdb1].
  rewrite run_Await.
  destruct (roundtrip_cases (select_remaining orderId) w1) as [[Hr Hdb2] | [Hr Hdb2]];
    rewrite Hr.
  - left. cbn [run snd]. rewrite Hdb2. exact Hdb1.
  - cbn [select_remaining fst snd] in Hdb2 |- *.
    set (w2 := snd (roundtrip (select_remaining orderId) w1)) in *.
    rewrite run_bind. cbn [run snd].
    destruct (Nat.eqb _ 0) eqn:Erem.
    + rewrite Hdb1 in Erem.
      assert (Hfree := proj1 (remaining_none orderId (db w)) Erem).
      rewrite run_Now, run_Await. cbn [run snd].
      destruct (roundtrip_cases (update_order_status orderId pending (clock w2)) w2)
        as [[_ H] | [_ H]]; rewrite H.
      * left. rewrite Hdb2. exact Hdb1.
      * right. split; [exact Hfree |]. exists (clock w2).
        rewrite Hdb2, Hdb1. reflexivity.
    + left. cbn [run snd]. rewrite Hdb2. exact Hdb1.
Qed.

Lemma releaseOrder_reliable (orderId userId : uuid) (w : World) :
  reliable w -> outcome (releaseOrder orderId userId) w = true.
Proof.
  intros Hrel. unfold outcome, releaseOrder. as_tree.
  rewrite run_Await, (roundtrip_reliable _ _ Hrel). cbn [update_release fst snd].
  set (w1 := mkWorld _ (S (clock w)) (tl (faults w))).
  assert (Hrel1 : reliable w1) by (apply reliable_tl; exact Hrel).
  rewrite run_Await, (roundtrip_reliable _ _ Hrel1). cbn [select_remaining fst snd].
  rewrite run_bind. reflexivity.
Qed.

(** A release that meets no failure has run its filtered update: every item
    of the order that the caller owns is patched, whatever its status. *)
Lemma releaseOrder_items (orderId userId : uuid) (w : World) :
  reliable w ->
  order_items (after (releaseOrder orderId userId) w)
  = update release_patch (claimed_of orderId userId) (order_items (db w)).
Proof.
  intros Hrel. unfold after, releaseOrder. as_tree.
  rewrite run_Await, (roundtrip_reliable _ _ Hrel). cbn [update_release fst snd].
  set (w1 := mkWorld _ (S (clock w)) (tl (faults w))).
  assert (Hrel1 : reliable w1) by (apply reliable_tl; exact Hrel).
  rewrite run_Await, (roundtrip_reliable _ _ Hrel1). cbn [select_remaining fst snd].
  set (w2 := mkWorld _ (S (clock w1)) (tl (faults w1))).
  rewrite run_bind. cbn [run snd].
  destruct (Nat.eqb _ 0); [| reflexivity].
  rewrite run_Now, run_Await. cbn [run snd].
  destruct (roundtrip_cases (update_order_status orderId pending (clock w2)) w2)
    as [[_ H] | [_ H]]; rewrite H; reflexivity.
Qed.

(** C7, as stated, fails on the order's status: W1 holds nothing on the
    cancelled order O2, and the release writes O2 back to ['pending'].  And
    when the store cannot be reached, the release of a worker who holds
    nothing reports the error. *)
Lemma releaseOrder_revives_cancelled :
  ~ (holds_nothing "O2" "W1" (db cancelled_O2) ->
     order_status "O2" (after (releaseOrder "O2" "W1") cancelled_O2)
     = order_status "O2" (db cancelled_O2))
  /\ ~ (holds_nothing "O2" "W1" (db (outage opening)) ->
        outcome (releaseOrder "O2" "W1") (outage opening) = true).
Proof.
  split; intros H.
  - assert (Hnone : holds_nothing "O2" "W1" (db cancelled_O2)).
    { intros i Hin. simpl in Hin. destruct Hin as [<- | []]. discriminate. }
    specialize (H Hnone). vm_compute in H. discriminate H.
  - assert (Hnone : holds_nothing "O2" "W1" (db (outage opening))).
    { intros i Hin. simpl in Hin. destruct Hin as [<- | []]. discriminate. }
    specialize (H Hnone). vm_compute in H. discriminate H.
Qed.

(** C7 (amended): a release by a worker who holds no claim on an item of the
    order changes no order item, and it returns [true] when no round trip
    fails; the whole store is unchanged when some item of the order is
    claimed by anyone, and no order changes its status when the order is
    already ['pending']. *)
Theorem releaseOrder_holding_nothing (orderId userId : uuid) (w : World) :
  holds_nothing orderId userId (db w) ->
  order_items (after (releaseOrder orderId userId) w) = order_items (db w)
  /\ (reliable w -> outcome (releaseOrder orderId userId) w = true)
  /\ ((exists i, In i (items_of orderId (db w))
                 /\ OrderItem.claimed_by_user_id i <> None) ->
      after (releaseOrder orderId userId) w = db w)
  /\ (Forall (fun st => st = pending) (order_status orderId (db w)) ->
      forall oid,
        order_status oid (after (releaseOrder orderId userId) w)
        = order_status oid (db w)).
Proof.
  intros Hnone.
  destruct (releaseOrder_nothing_run orderId userId w Hnone)
    as [Hsame | (Hfree & t & Hreset)].
  - rewrite Hsame. split; [reflexivity |].
    split; [apply releaseOrder_reliable |].
    split; [reflexivity | reflexivity].
  - rewrite Hreset. split; [reflexivity |].
    split; [apply releaseOrder_reliable |]. split.
    + intros (i & Hin & Hc). exfalso. apply Hc, Hfree. exact Hin.
    + intros Hpending oid.
      destruct (String.eqb oid orderId) eqn:E.
      * apply String.eqb_eq in E. subst oid.
        rewrite order_status_patched. apply map_const_id. exact Hpending.
      * apply order_status_other. apply String.eqb_neq. exact E.
Qed.

(** W2 releases O1, which W1 has claimed; W2 releases the fresh O2. *)
Lemma releaseOrder_holding_nothing_witness :
  (order_items (after (releaseOrder "O1" "W2") (then_ opening (claimOrder "O1" "W1" None)))
   = order_items (db (then_ opening (claimOrder "O1" "W1" None)))
   /\ outcome (releaseOrder "O1" "W2") (then_ opening (claimOrder "O1" "W1" None)) = true
   /\ after (releaseOrder "O1" "W2") (then_ opening (claimOrder "O1" "W1" None))
      = db (then_ opening (claimOrder "O1" "W1" None)))
  /\ order_status "O2" (after (releaseOrder "O2" "W2") opening)
     = order_status "O2" (db opening).
Proof.
  split.
  - destruct (releaseOrder_holding_nothing "O1" "W2"
                (then_ opening (claimOrder "O1" "W1" None))) as (Hi & Ht & Hs & _).
    + intros i Hin. simpl in Hin. destruct Hin as [<- | [<- | []]]; discriminate.
    + split; [exact Hi | split; [apply Ht; constructor | apply Hs]].
      exists (claim_patch "W1" 1 (new_item "A" "O1")).
      split; [left; reflexivity | discriminate].
  - destruct (releaseOrder_holding_nothing "O2" "W2" opening) as (_ & _ & _ & Hp).
    + intros i Hin. simpl in Hin. destruct Hin as [<- | []]. discriminate.
    + apply Hp. repeat constructor.
Defined.

(* ================================================================== *)
(** * Sessions *)

Lemma same_pair_kitchen_patch (u r : uuid) (st : string) (t : timestamp)
  (x : ActiveSession.t) :
  same_pair u r (kitchen_patch st t x) = same_pair u r x.
Proof. reflexivity. Qed.

Lemma select_update_length {Row : Type} (p q : Row -> bool) (f : Row -> Row)
  (l : list Row) :
  (forall x, p (f x) = p x) ->
  length (select p (update f q l)) = length (select p l).
Proof.
  intros Hp. unfold select, update.
  induction l as [| x l IH]; [reflexivity |]. cbn [map filter].
  assert (E : p (if q x then f x else x) = p x) by (destruct (q x); [apply Hp | reflexivity]).
  rewrite E. destruct (p x); cbn [length]; rewrite IH; reflexivity.
Qed.

Lemma select_none_length {Row : Type} (p : Row -> bool) (l : list Row) :
  existsb p l = false -> length (select p l) = 0.
Proof.
  unfold select. induction l as [| x l IH]; [reflexivity |]. cbn [existsb filter].
  intros H. apply orb_false_iff in H. destruct H as [Hx Hl].
  rewrite Hx. apply IH. exact Hl.
Qed.

Lemma select_app {Row : Type} (p : Row -> bool) (l l' : list Row) :
  select p (l ++ l') = select p l ++ select p l'.
Proof. apply filter_app. Qed.

(** The upsert keeps at most one session for every pair. *)
Lemma upsert_one_session (u r : uuid) (st : string) (t : timestamp) (s : Store) :
  one_session_per_pair s ->
  one_session_per_pair (snd (upsert_kitchen_session u r st t s)).
Proof.
  intros Hone. unfold upsert_kitchen_session.
  destruct (negb (unique_user_restaurant s)); [exact Hone |].
  destruct (existsb (same_pair u r) (active_sessions s)) eqn:E;
    intros u' r'; unfold sessions_of; cbn [snd with_active_sessions active_sessions].
  - rewrite select_update_length; [apply Hone |].
    intros x. apply same_pair_kitchen_patch.
  - rewrite select_app, length_app. unfold select at 2. cbn [filter].
    destruct (same_pair u' r' (kitchen_row _ u r st t)) eqn:Enew.
    + unfold same_pair in Enew. cbn [kitchen_row ActiveSession.user_id
                                      ActiveSession.restaurant_id] in Enew.
      apply andb_true_iff in Enew. destruct Enew as [Eu Er].
      apply String.eqb_eq in Eu, Er. subst u' r'.
      rewrite (select_none_length _ _ E). cbn [length]. lia.
    + cbn [length]. rewrite Nat.add_0_r. apply Hone.
Qed.

Lemma createKitchenSession_one_session (userId : uuid) (station : string) (w : World) :
  one_session_per_pair (db w) ->
  one_session_per_pair (after (createKitchenSession userId station) w).
Proof.
  intros Hone. unfold after, createKitchenSession. as_tree. rewrite run_Await.
  assert (Hdb : db (snd (roundtrip (select_user_restaurant userId) w)) = db w).
  { destruct (roundtrip_cases (select_user_restaurant userId) w) as [[_ H] | [_ H]];
      rewrite H; [reflexivity | apply select_user_restaurant_db]. }
  set (w1 := snd (roundtrip (select_user_restaurant userId) w)) in *.
  destruct (fst (roundtrip (select_user_restaurant userId) w)) as [[rid |] |];
    try (cbn [run snd]; rewrite Hdb; exact Hone).
  rewrite run_Now, run_Await. cbn [run snd].
  destruct (roundtrip_cases (upsert_kitchen_session userId rid station (clock w1)) w1)
    as [[_ H] | [_ H]]; rewrite H.
  - rewrite Hdb. exact Hone.
  - apply upsert_one_session. rewrite Hdb. exact Hone.
Qed.

(** On a pair that has a session the upsert patches that row in place. *)
Lemma createKitchenSession_replaces (userId restaurantId : uuid) (station : string)
  (w : World) :
  reliable w ->
  unique_user_restaurant (db w) = true ->
  select (fun u => String.eqb (User.id u) userId) (users (db w))
  = [User.mk userId (Some restaurantId)] ->
  sessions_of userId restaurantId (db w) <> [] ->
  active_sessions (after (createKitchenSession userId station) w)
  = update (kitchen_patch station (S (clock w))) (same_pair userId restaurantId)
      (active_sessions (db w)).
Proof.
  intros Hrel Hidx Huser Hsome. unfold after, createKitchenSession. as_tree.
  rewrite run_Await, (roundtrip_reliable _ _ Hrel).
  cbn [fst snd]. rewrite select_user_restaurant_db.
  unfold select_user_restaurant. rewrite Huser. cbn [single fst User.restaurant_id].
  set (w1 := mkWorld (db w) (S (clock w)) (tl (faults w))).
  assert (Hrel1 : reliable w1) by (apply reliable_tl; exact Hrel).
  rewrite run_Now, run_Await, (roundtrip_reliable _ _ Hrel1). cbn [run snd db clock w1].
  unfold upsert_kitchen_session. rewrite Hidx. cbn [negb].
  destruct (existsb (same_pair userId restaurantId) (active_sessions (db w))) eqn:E;
    [reflexivity |].
  exfalso. apply Hsome. apply length_zero_iff_nil.
  apply select_none_length. exact E.
Qed.

(** [createSession] patches and deletes no row. *)
Lemma createSession_keeps (userId restaurantId : uuid) (userName : string)
  (stationId : option string) (w : World) (s0 : ActiveSession.t) :
  In s0 (active_sessions (db w)) ->
  In s0 (active_sessions (after (createSession userId restaurantId userName stationId) w)).
Proof.
  intros Hin. unfold after, createSession. as_tree. rewrite run_Now, run_Await.
  cbn [run snd].
  match goal with
  | |- context [roundtrip ?stmt w] =>
      destruct (roundtrip_cases stmt w) as [[_ H] | [_ H]]; rewrite H
  end; [exact Hin |].
  unfold insert_session.
  destruct (unique_user_restaurant (db w) && existsb _ _); [exact Hin |].
  cbn [snd active_sessions]. apply in_or_app. left. exact Hin.
Qed.

(** Without the unique index the insert adds its row. *)
Lemma createSession_adds (userId restaurantId : uuid) (userName : string)
  (stationId : option string) (w : World) :
  reliable w ->
  unique_user_restaurant (db w) = false ->
  exists row,
    ActiveSession.user_id row = userId
    /\ ActiveSession.restaurant_id row = restaurantId
    /\ ActiveSession.status row = active
    /\ active_sessions (after (createSession userId restaurantId userName stationId) w)
       = active_sessions (db w) ++ [row].
Proof.
  intros Hrel Hidx. unfold after, createSession. as_tree.
  rewrite run_Now, run_Await, (roundtrip_reliable _ _ Hrel). cbn [run snd db].
  unfold insert_session. rewrite Hidx. cbn [andb snd active_sessions].
  exists (session_row (gen_uuid (next_uuid (db w))) userId restaurantId userName
            stationId (session_token_of userId (clock w)) (clock w)).
  repeat split.
Qed.

(** C9, as stated, fails for [createSession].  Without the unique index a
    second session is added for the pair that has one; with the index the
    insert is refused and the prior session stays as it is.  In neither case
    is the prior session replaced. *)
Lemma createSession_second_session :
  (one_session_per_pair (db logged_in_no_index)
   /\ map ActiveSession.status
        (sessions_of "W1" "R"
           (after (createSession "W1" "R" "Ann" (Some "Grill")) logged_in_no_index))
      = [active; active])
  /\ (outcome (createSession "W1" "R" "Ann" (Some "Grill")) logged_in = Error
      /\ after (createSession "W1" "R" "Ann" (Some "Grill")) logged_in = db logged_in).
Proof.
  split; [split | split]; try reflexivity.
  intros u r. unfold sessions_of. cbn.
  destruct (same_pair u r _); cbn; lia.
Qed.

(** C9 (amended): [createKitchenSession] keeps at most one session for every
    (worker, restaurant) pair, and on a pair that has a session it replaces
    that session's row in place (station, heartbeat, status ['active'])
    rather than adding a second one.  [createSession] does not replace: every
    session row of the table stays as it is, and on a table without the
    unique index the new active session is added at the end. *)
Theorem sessions_per_pair (userId restaurantId : uuid) (station userName : string)
  (stationId : option string) (w : World) :
  (one_session_per_pair (db w) ->
   one_session_per_pair (after (createKitchenSession userId station) w))
  /\ (reliable w ->
      unique_user_restaurant (db w) = true ->
      select (fun u => String.eqb (User.id u) userId) (users (db w))
      = [User.mk userId (Some restaurantId)] ->
      sessions_of userId restaurantId (db w) <> [] ->
      Forall2
        (fun r r' =>
           r' = if same_pair userId restaurantId r
                then kitchen_patch station (S (clock w)) r
                else r)
        (active_sessions (db w))
        (active_sessions (after (createKitchenSession userId station) w)))
  /\ (forall s0, In s0 (active_sessions (db w)) ->
        In s0 (active_sessions
                 (after (createSession userId restaurantId userName stationId) w)))
  /\ (reliable w ->
      unique_user_restaurant (db w) = false ->
      exists row,
        ActiveSession.user_id row = userId
        /\ ActiveSession.restaurant_id row = restaurantId
        /\ ActiveSession.status row = active
        /\ active_sessions
             (after (createSession userId restaurantId userName stationId) w)
           = active_sessions (db w) ++ [row]).
Proof.
  split; [apply createKitchenSession_one_session |].
  split; [| split].
  - intros Hrel Hidx Huser Hsome.
    rewrite (createKitchenSession_replaces userId restaurantId station w
               Hrel Hidx Huser Hsome).
    apply (update_Forall2 _ (same_pair userId restaurantId)).
  - intros s0. apply createSession_keeps.
  - apply createSession_adds.
Qed.

(** W1, who has a session, claims with a station: the session is replaced in
    place. *)
Lemma sessions_per_pair_witness :
  one_session_per_pair (after (createKitchenSession "W1" "Grill") logged_in)
  /\ map ActiveSession.station
       (active_sessions (after (createKitchenSession "W1" "Grill") logged_in))
     = [Some "Grill"]
  /\ length (active_sessions
               (after (createSession "W1" "R" "Ann" None) logged_in_no_index)) = 2.
Proof.
  destruct (sessions_per_pair "W1" "R" "Grill" "Ann" None logged_in)
    as (Hone & Hrep & _).
  destruct (sessions_per_pair "W1" "R" "Grill" "Ann" None logged_in_no_index)
    as (_ & _ & _ & Hadd).
  split; [| split].
  - apply Hone. intros u r. unfold sessions_of. cbn.
    destruct (same_pair u r _); cbn; lia.
  - assert (H := Hrep (Forall_nil _) eq_refl eq_refl
                   ltac:(discriminate)).
    inversion H as [| r r' l l' Hr Hl]; subst. inversion Hl; subst.
    reflexivity.
  - destruct (Hadd (Forall_nil _) eq_refl) as (row & _ & _ & _ & Heq).
    rewrite Heq, length_app. reflexivity.
Defined.

(* ================================================================== *)
(** * Two devices on one order *)

Lemma step_Await {A R : Type} (stmt : Stmt R) (k : Resp R -> Prog A) (w : World) :
  step (Await stmt k) w = (k (fst (roundtrip stmt w)), snd (roundtrip stmt w)).
Proof. simpl. destruct (roundtrip stmt w); reflexivity. Qed.

Lemma step_Now {A : Type} (k : timestamp -> Prog A) (w : World) :
  step (Now k) w = step (k (clock w)) w.
Proof. reflexivity. Qed.

Lemma interleave_cons {A : Type} (i : nat) (schedule : list nat) (pool : list (Prog A))
  (w : World) :
  interleave (i :: schedule) pool w
  = interleave schedule (fst (step_thread i pool w)) (snd (step_thread i pool w)).
Proof. simpl. destruct (step_thread i pool w); reflexivity. Qed.

Lemma step_thread_first {A : Type} (p q : Prog A) (w : World) :
  step_thread 0 [p; q] w = ([fst (step p w); q], snd (step p w)).
Proof. simpl. destruct (step p w); reflexivity. Qed.

Lemma step_thread_second {A : Type} (p q : Prog A) (w : World) :
  step_thread 1 [p; q] w = ([p; fst (step q w)], snd (step q w)).
Proof. simpl. destruct (step q w); reflexivity. Qed.

(** The first step of a call: the fetch and the client's check.  On an order
    with items, none claimed by another worker, the call goes on to its
    update, and the store is as it was. *)
Lemma claimOrder_fetch_step (orderId userId : uuid) (w : World) :
  reliable w ->
  items_of orderId (db w) <> [] ->
  ~ claimed_by_another orderId userId (db w) ->
  exists write,
    step (claimOrder orderId userId None) w
    = (write, mkWorld (db w) (S (clock w)) (tl (faults w)))
    /\ forall w', reliable w' ->
         exists finish,
           step write w'
           = (finish,
              mkWorld (snd (update_claim orderId userId (clock w') (db w')))
                (S (clock w')) (tl (faults w')))
           /\ forall w'', reliable w'' ->
                step finish w''
                = (Ret true,
                   mkWorld (snd (update_order_preparing orderId (clock w'') (db w'')))
                     (S (clock w'')) (tl (faults w''))).
Proof.
  intros Hrel Hne Hno. unfold claimOrder. as_tree.
  rewrite step_Await, (roundtrip_reliable _ _ Hrel).
  cbn [select_claims fst snd]. fold (items_of orderId (db w)).
  rewrite length_map.
  destruct (items_of orderId (db w)) as [| i0 rest] eqn:Eitems; [contradiction |].
  cbn [length Nat.eqb]. rewrite <- Eitems, (alreadyClaimed_false _ _ _ Hno).
  cbv beta iota. eexists. split; [reflexivity |].
  intros w' Hrel'. rewrite step_Now, step_Await, (roundtrip_reliable _ _ Hrel').
  cbn [fst snd update_claim]. cbv beta iota. eexists. split; [reflexivity |].
  intros w'' Hrel''. rewrite step_Now, step_Await, (roundtrip_reliable _ _ Hrel'').
  reflexivity.
Qed.

(** Whatever the store, the order and the two workers: when both devices
    fetch the unclaimed items before either writes, both calls return
    [true]. *)
Lemma claimOrder_race (orderId u1 u2 : uuid) (w : World) :
  reliable w ->
  items_of orderId (db w) <> [] ->
  (forall i, In i (items_of orderId (db w)) -> OrderItem.claimed_by_user_id i = None) ->
  map result
    (fst (interleave [0; 1; 0; 1; 0; 1]
            [claimOrder orderId u1 None; claimOrder orderId u2 None] w))
  = [Some true; Some true].
Proof.
  intros Hrel Hne Hfree.
  assert (Hno : forall u, ~ claimed_by_another orderId u (db w)).
  { intros u (i & v & Hin & Hc & _). rewrite (Hfree i Hin) in Hc. discriminate Hc. }
  destruct (claimOrder_fetch_step orderId u1 w Hrel Hne (Hno u1))
    as (write1 & Hfetch1 & Hwrite1).
  set (w1 := mkWorld (db w) (S (clock w)) (tl (faults w))) in *.
  assert (Hrel1 : reliable w1) by (apply reliable_tl; exact Hrel).
  destruct (claimOrder_fetch_step orderId u2 w1 Hrel1 Hne (Hno u2))
    as (write2 & Hfetch2 & Hwrite2).
  set (w2 := mkWorld (db w1) (S (clock w1)) (tl (faults w1))) in *.
  assert (Hrel2 : reliable w2) by (apply reliable_tl; exact Hrel1).
  destruct (Hwrite1 w2 Hrel2) as (finish1 & Hstep1 & Hfinish1).
  set (w3 := mkWorld _ (S (clock w2)) (tl (faults w2))) in *.
  assert (Hrel3 : reliable w3) by (apply reliable_tl; exact Hrel2).
  destruct (Hwrite2 w3 Hrel3) as (finish2 & Hstep2 & Hfinish2).
  set (w4 := mkWorld _ (S (clock w3)) (tl (faults w3))) in *.
  assert (Hrel4 : reliable w4) by (apply reliable_tl; exact Hrel3).
  specialize (Hfinish1 w4 Hrel4).
  set (w5 := mkWorld _ (S (clock w4)) (tl (faults w4))) in *.
  assert (Hrel5 : reliable w5) by (apply reliable_tl; exact Hrel4).
  specialize (Hfinish2 w5 Hrel5).
  rewrite interleave_cons, step_thread_first, Hfetch1. cbn [fst snd].
  rewrite interleave_cons, step_thread_second, Hfetch2. cbn [fst snd].
  rewrite interleave_cons, step_thread_first, Hstep1. cbn [fst snd].
  rewrite interleave_cons, step_thread_second, Hstep2. cbn [fst snd].
  rewrite interleave_cons, step_thread_first, Hfinish1. cbn [fst snd].
  rewrite interleave_cons, step_thread_second, Hfinish2. cbn [fst snd].
  reflexivity.
Qed.

(** C2 (the code departs from it): W1 and W2 claim O1 at the same time, each
    fetching the items before the other's update; both calls return [true],
    and the items belong to W1 alone. *)
Theorem claimOrder_race_both_claimed :
  map result (fst race) = [Some true; Some true]
  /\ map OrderItem.claimed_by_user_id (items_of "O1" (db (snd race)))
     = [Some "W1"; Some "W1"].
Proof. split; reflexivity. Qed.

(* ================================================================== *)
(** * Completion and the order *)

(** C4 (the code departs from it): W1 completes B, the last open item of O1;
    the call returns [true], every item of O1 is completed, and O1 is still
    ['preparing']: the completion path does not run the aggregation. *)
Theorem markItemCompleted_last_item_not_ready :
  outcome (markItemCompleted "B" "W1") A_done = true
  /\ map OrderItem.status (items_of "O1" (after (markItemCompleted "B" "W1") A_done))
     = [item_completed; item_completed]
  /\ order_status "O1" (after (markItemCompleted "B" "W1") A_done) = [preparing].
Proof. split; [| split]; reflexivity. Qed.

(** The aggregation, when something does call it after the last completion,
    makes the order ['ready']. *)
Lemma checkOrderCompletion_after_last_item :
  order_status "O1"
    (after (checkOrderCompletion "O1") (then_ A_done (markItemCompleted "B" "W1")))
  = [ready].
Proof. reflexivity. Qed.

(** C6 (the code departs from it): W1 releases O2 after completing its item
    C; the item goes from ['completed'] back to ['pending'], unclaimed, with
    its completion time still on the row. *)
Theorem releaseOrder_reopens_completed :
  map OrderItem.status (items_of "O2" (db C_done)) = [item_completed]
  /\ outcome (releaseOrder "O2" "W1") C_done = true
  /\ items_of "O2" (after (releaseOrder "O2" "W1") C_done)
     = [OrderItem.mk "C" "O2" "dish" 1 item_pending None None (Some 3)].
Proof. split; [| split]; reflexivity. Qed.

(* ================================================================== *)
(** * Closing a session *)

(** [endSession] writes the orders and the sessions, never an order item. *)
Lemma endSession_order_items (sessionId : uuid) (w : World) :
  order_items (after (endSession sessionId) w) = order_items (db w).
Proof.
  unfold after, endSession. as_tree. rewrite run_Await.
  assert (H1 : order_items (db (snd (roundtrip (update_orders_release sessionId) w)))
               = order_items (db w)).
  { destruct (roundtrip_cases (update_orders_release sessionId) w) as [[_ H] | [_ H]];
      rewrite H; reflexivity. }
  set (w1 := snd (roundtrip (update_orders_release sessionId) w)) in *.
  rewrite run_Await. cbn [run snd].
  destruct (roundtrip_cases (delete_session sessionId) w1) as [[_ H] | [_ H]];
    rewrite H; [exact H1 | cbn [delete_session snd with_active_sessions order_items]; exact H1].
Qed.

(** [terminateSession] writes the sessions only. *)
Lemma terminateSession_order_items (sessionId : uuid) (w : World) :
  order_items (after (terminateSession sessionId) w) = order_items (db w).
Proof.
  unfold after, terminateSession, loadStaffData. as_tree. rewrite run_Await.
  assert (H1 : order_items (db (snd (roundtrip (update_session_inactive sessionId) w)))
               = order_items (db w)).
  { destruct (roundtrip_cases (update_session_inactive sessionId) w) as [[_ H] | [_ H]];
      rewrite H; reflexivity. }
  set (w1 := snd (roundtrip (update_session_inactive sessionId) w)) in *.
  destruct (fst (roundtrip (update_session_inactive sessionId) w)) as [[] |];
    [| exact H1].
  rewrite run_Await.
  assert (H2 : db (snd (roundtrip read_only w1)) = db w1).
  { destruct (roundtrip_cases read_only w1) as [[_ H] | [_ H]]; rewrite H; reflexivity. }
  set (w2 := snd (roundtrip read_only w1)) in *.
  destruct (fst (roundtrip read_only w1)) as [[] |];
    [| cbn [run snd]; rewrite H2; exact H1].
  rewrite run_Await. cbn [run snd].
  destruct (roundtrip_cases read_only w2) as [[_ H] | [_ H]]; rewrite H;
    cbn [read_only snd]; rewrite H2; exact H1.
Qed.

(** The session row goes even when the release statement has failed. *)
Lemma endSession_closes_anyway (sessionId : uuid) (w : World) (released : bool)
  (fs : list bool) :
  faults w = released :: fs ->
  Forall (fun f => f = false) fs ->
  active_sessions (after (endSession sessionId) w)
  = delete (fun r => String.eqb (ActiveSession.id r) sessionId)
      (active_sessions (db w)).
Proof.
  intros Hf Hfs. unfold after, endSession. as_tree. rewrite run_Await.
  assert (H1 : active_sessions (db (snd (roundtrip (update_orders_release sessionId) w)))
               = active_sessions (db w)
               /\ faults (snd (roundtrip (update_orders_release sessionId) w)) = fs).
  { unfold roundtrip. rewrite Hf. destruct released; split; reflexivity. }
  destruct H1 as [Hs Hfaults].
  set (w1 := snd (roundtrip (update_orders_release sessionId) w)) in *.
  assert (Hrel1 : reliable w1) by (unfold reliable; rewrite Hfaults; exact Hfs).
  rewrite run_Await, (roundtrip_reliable _ _ Hrel1).
  cbn [run fst snd delete_session db with_active_sessions active_sessions].
  rewrite Hs. reflexivity.
Qed.

(** C8 (the code departs from it): W1, with one session, holds every item of
    O1 and O2.  [endSession] closes the session and every item is still
    claimed by W1; it closes the session as well when its release statement
    fails in transit; [terminateSession] marks the session inactive and
    releases nothing. *)
Theorem endSession_orphans_claims :
  map ActiveSession.id (active_sessions (db working)) = [gen_uuid 0]
  /\ map OrderItem.claimed_by_user_id (order_items (db working))
     = [Some "W1"; Some "W1"; Some "W1"]
  /\ outcome (endSession (gen_uuid 0)) working = Data tt
  /\ active_sessions (after (endSession (gen_uuid 0)) working) = []
  /\ order_items (after (endSession (gen_uuid 0)) working) = order_items (db working)
  /\ active_sessions
       (after (endSession (gen_uuid 0)) (outage working))
     = []
  /\ map ActiveSession.status
       (active_sessions (after (terminateSession (gen_uuid 0)) working))
     = [inactive]
  /\ order_items (after (terminateSession (gen_uuid 0)) working)
     = order_items (db working).
Proof. repeat split. Qed.

(* ================================================================== *)
(** * Two scenarios, run *)

(** W1 claims O1: A and B belong to W1 and O1 is ['preparing']; W2's claim is
    then refused and changes nothing. *)
Example scenario_claim :
  map OrderItem.claimed_by_user_id
    (items_of "O1" (after (claimOrder "O1" "W1" None) opening))
  = [Some "W1"; Some "W1"]
  /\ order_status "O1" (after (claimOrder "O1" "W1" None) opening) = [preparing]
  /\ run (claimOrder "O1" "W2" None) (then_ opening (claimOrder "O1" "W1" None))
     = (false, mkWorld (db (then_ opening (claimOrder "O1" "W1" None))) 4 []).
Proof. repeat split. Qed.

(** W1 claims O2 and releases it: C is unclaimed and ['pending'] again, and
    O2 is back to ['pending']. *)
Example scenario_release :
  items_of "O2"
    (after (releaseOrder "O2" "W1") (then_ opening (claimOrder "O2" "W1" None)))
  = [new_item "C" "O2"]
  /\ order_status "O2"
       (after (releaseOrder "O2" "W1") (then_ opening (claimOrder "O2" "W1" None)))
     = [pending].
Proof. split; reflexivity. Qed.


(* ================================================================== *)
(** * More on running programs *)

(** A run in a world without failures ends in a world without failures. *)
Lemma run_reliable {A : Type} (p : Prog A) (w : World) :
  reliable w -> reliable (snd (run p w)).
Proof.
  revert w. induction p as [a | k IH | R stmt k IH]; intros w Hrel.
  - exact Hrel.
  - rewrite run_Now. apply IH. exact Hrel.
  - rewrite run_Await. apply IH.
    rewrite (roundtrip_reliable _ _ Hrel). apply reliable_tl. exact Hrel.
Qed.

Lemma Forall2_same {A : Type} (P : A -> A -> Prop) (l : list A) :
  (forall a, P a a) -> Forall2 P l l.
Proof. intros H. induction l; constructor; [apply H | assumption]. Qed.

(* ================================================================== *)
(** * What claimOrder leaves alone *)

(** Whatever happens in transit, a call has run its filtered update on the
    items or has not, and its guarded update on the order or has not; it
    never writes the users. *)
Lemma claimOrder_cases (orderId userId : uuid) (station : option string) (w : World) :
  (order_items (after (claimOrder orderId userId station) w) = order_items (db w)
   \/ exists t,
        order_items (after (claimOrder orderId userId station) w)
        = update (claim_patch userId t) (unclaimed_of orderId) (order_items (db w)))
  /\ (orders (after (claimOrder orderId userId station) w) = orders (db w)
      \/ exists t,
           orders (after (claimOrder orderId userId station) w)
           = update (status_patch preparing t)
               (fun o => String.eqb (Order.id o) orderId
                         && OrderStatus_eqb (Order.status o) pending)
               (orders (db w))).
Proof.
  unfold after, claimOrder. as_tree. rewrite run_Await.
  destruct (roundtrip_cases (select_claims orderId) w) as [[Hr Hdb] | [Hr Hdb]];
    rewrite Hr.
  - cbn [run snd]. rewrite Hdb. split; left; reflexivity.
  - cbn [select_claims fst snd] in Hdb |- *.
    set (w1 := snd (roundtrip (select_claims orderId) w)) in *.
    destruct (Nat.eqb _ 0);
      [cbn [run snd]; rewrite Hdb; split; left; reflexivity |].
    destruct (existsb _ _);
      [cbn [run snd]; rewrite Hdb; split; left; reflexivity |].
    rewrite run_Now, run_Await.
    destruct (roundtrip_cases (update_claim orderId userId (clock w1)) w1)
      as [[Hr2 Hdb2] | [Hr2 Hdb2]]; rewrite Hr2.
    + cbn [run snd]. rewrite Hdb2, Hdb. split; left; reflexivity.
    + cbn [update_claim fst snd] in Hdb2 |- *.
      set (w2 := snd (roundtrip (update_claim orderId userId (clock w1)) w1)) in *.
      rewrite run_Now, run_Await, run_bind. cbn [run snd fst].
      set (w3 := snd (roundtrip (update_order_preparing orderId (clock w2)) w2)).
      set (tail := match station with
                   | Some st => if truthy station then createKitchenSession userId st
                                else Ret tt
                   | None => Ret tt
                   end).
      assert (Hframe : order_items (db (snd (run tail w3))) = order_items (db w3)
                       /\ orders (db (snd (run tail w3))) = orders (db w3)).
      { unfold tail. destruct station as [st |]; [| split; reflexivity].
        destruct (truthy (Some st)); [| split; reflexivity].
        apply createKitchenSession_frame. }
      destruct Hframe as [H1 H2]. rewrite H1, H2. unfold w3.
      destruct (roundtrip_cases (update_order_preparing orderId (clock w2)) w2)
        as [[_ Hdb3] | [_ Hdb3]]; rewrite Hdb3.
      * rewrite Hdb2. cbn [with_order_items order_items orders]. rewrite Hdb. split.
        -- right. exists (clock w1). reflexivity.
        -- left. reflexivity.
      * cbn [update_order_preparing snd with_orders order_items orders].
        rewrite Hdb2. cbn [with_order_items order_items orders]. rewrite Hdb. split.
        -- right. exists (clock w1). reflexivity.
        -- right. exists (clock w2). reflexivity.
Qed.

(** X1: whatever the store, the answer and the failures in transit,
    [claimOrder] changes no item of another order and no item that has a
    claim-owner: an item it changes was an unclaimed item of the order, and
    the change is the claim patch for the caller. *)
Theorem claimOrder_touches_unclaimed_only (orderId userId : uuid)
  (station : option string) (w : World) :
  exists t,
    Forall2
      (fun i i' =>
         i' = i
         \/ (OrderItem.order_id i = orderId
             /\ OrderItem.claimed_by_user_id i = None
             /\ i' = claim_patch userId t i))
      (order_items (db w))
      (order_items (after (claimOrder orderId userId station) w)).
Proof.
  destruct (claimOrder_cases orderId userId station w) as [[H | [t H]] _].
  - exists 0. rewrite H. apply Forall2_same. intros i. left. reflexivity.
  - exists t. rewrite H.
    apply Forall2_weaken with (2 := update_Forall2 _ (unclaimed_of orderId) _).
    intros i i' _ Hi'. subst i'. unfold unclaimed_of.
    destruct (String.eqb (OrderItem.order_id i) orderId) eqn:Eo; [| left; reflexivity].
    destruct (OrderItem.claimed_by_user_id i) eqn:Ec; [left; reflexivity |].
    right. apply String.eqb_eq in Eo. split; [exact Eo | split; reflexivity].
Qed.

Lemma OrderStatus_eqb_eq (a b : OrderStatus) : OrderStatus_eqb a b = true <-> a = b.
Proof. destruct a, b; simpl; split; intros H; try reflexivity; discriminate H. Qed.

(** X2: whatever the store, the answer and the failures in transit,
    [claimOrder] changes the status of no order but the one it claims, and
    of that one only from ['pending'] to ['preparing']: an order that is
    ['preparing'], ['ready'], ['served'] or ['cancelled'] keeps its row. *)
Theorem claimOrder_advances_pending_only (orderId userId : uuid)
  (station : option string) (w : World) :
  exists t,
    Forall2
      (fun o o' =>
         o' = o
         \/ (Order.id o = orderId
             /\ Order.status o = pending
             /\ o' = status_patch preparing t o))
      (orders (db w))
      (orders (after (claimOrder orderId userId station) w)).
Proof.
  destruct (claimOrder_cases orderId userId station w) as [_ [H | [t H]]].
  - exists 0. rewrite H. apply Forall2_same. intros o. left. reflexivity.
  - exists t. rewrite H.
    apply Forall2_weaken
      with (2 := update_Forall2 _
                   (fun o => String.eqb (Order.id o) orderId
                             && OrderStatus_eqb (Order.status o) pending) _).
    intros o o' _ Ho'. subst o'.
    destruct (String.eqb (Order.id o) orderId) eqn:Eo; [| left; reflexivity].
    destruct (OrderStatus_eqb (Order.status o) pending) eqn:Es; [| left; reflexivity].
    right. apply String.eqb_eq in Eo. apply OrderStatus_eqb_eq in Es.
    split; [exact Eo | split; [exact Es | reflexivity]].
Qed.

(* ================================================================== *)
(** * One worker after the other *)

(** After a call that has claimed, every item of the order has the caller
    as its claim-owner. *)
Lemma claimOrder_owns_all (orderId userId : uuid) (station : option string) (w : World) :
  reliable w ->
  items_of orderId (db w) <> [] ->
  ~ claimed_by_another orderId userId (db w) ->
  items_of orderId (after (claimOrder orderId userId station) w) <> []
  /\ forall i, In i (items_of orderId (after (claimOrder orderId userId station) w)) ->
       OrderItem.claimed_by_user_id i = Some userId.
Proof.
  intros Hrel Hne Hno.
  destruct (claimOrder_claimed orderId userId station w Hrel Hne Hno) as (_ & Hitems & _).
  assert (Himg : forall i, In i (items_of orderId (db w)) ->
            In (if unclaimed_of orderId i then claim_patch userId (S (clock w)) i else i)
               (items_of orderId (after (claimOrder orderId userId station) w))
            /\ OrderItem.claimed_by_user_id
                 (if unclaimed_of orderId i then claim_patch userId (S (clock w)) i else i)
               = Some userId).
  { intros i Hin. apply In_items_of in Hin. destruct Hin as [Hin Ho]. split.
    - apply In_items_of. split.
      + rewrite Hitems. unfold update.
        apply (in_map (fun r => if unclaimed_of orderId r
                                then claim_patch userId (S (clock w)) r else r)).
        exact Hin.
      + destruct (unclaimed_of orderId i); [exact Ho | exact Ho].
    - unfold unclaimed_of. rewrite Ho, String.eqb_refl. cbn [andb].
      destruct (OrderItem.claimed_by_user_id i) as [v |] eqn:Ec; cbn [is_null].
      + rewrite Ec. destruct (String.eqb v userId) eqn:Ev.
        * apply String.eqb_eq in Ev. subst v. reflexivity.
        * exfalso. apply Hno. exists i, v. split.
          -- apply In_items_of. split; assumption.
          -- split; [exact Ec | apply String.eqb_neq; exact Ev].
      + reflexivity. }
  split.
  - destruct (items_of orderId (db w)) as [| i0 rest] eqn:E; [contradiction |].
    destruct (Himg i0 (or_introl eq_refl)) as [Hin _].
    intros Hnil. rewrite Hnil in Hin. exact Hin.
  - intros i' Hin'. apply In_items_of in Hin'. destruct Hin' as [Hin' Ho'].
    rewrite Hitems in Hin'. unfold update in Hin'. apply in_map_iff in Hin'.
    destruct Hin' as (i & Hi & Hin). subst i'.
    assert (Ho : OrderItem.order_id i = orderId)
      by (destruct (unclaimed_of orderId i); exact Ho').
    apply (Himg i). apply In_items_of. split; assumption.
Qed.

(** X3: when a worker has claimed an order (the order has items, no item was
    claimed by someone else, no round trip failed), a call of any other
    worker on that order afterwards returns [false] and leaves the whole
    store as it is, whatever happens in transit during that second call. *)
Theorem claimOrder_second_worker_refused (orderId u1 u2 : uuid)
  (station1 station2 : option string) (w : World) (fs : list bool) :
  reliable w ->
  items_of orderId (db w) <> [] ->
  ~ claimed_by_another orderId u1 (db w) ->
  u2 <> u1 ->
  outcome (claimOrder orderId u1 station1) w = true
  /\ outcome (claimOrder orderId u2 station2)
       (mkWorld (after (claimOrder orderId u1 station1) w)
          (clock (then_ w (claimOrder orderId u1 station1))) fs)
     = false
  /\ after (claimOrder orderId u2 station2)
       (mkWorld (after (claimOrder orderId u1 station1) w)
          (clock (then_ w (claimOrder orderId u1 station1))) fs)
     = after (claimOrder orderId u1 station1) w.
Proof.
  intros Hrel Hne Hno Hdiff.
  destruct (claimOrder_claimed orderId u1 station1 w Hrel Hne Hno) as (Hout & _).
  destruct (claimOrder_owns_all orderId u1 station1 w Hrel Hne Hno) as (Hne' & Hown).
  split; [exact Hout |].
  apply (claimOrder_conflict orderId u2 station2
           (mkWorld (after (claimOrder orderId u1 station1) w)
              (clock (then_ w (claimOrder orderId u1 station1))) fs)).
  unfold claimed_by_another. cbn [db].
  destruct (items_of orderId (after (claimOrder orderId u1 station1) w))
    as [| i0 rest] eqn:E; [contradiction |].
  exists i0, u1. split; [left; reflexivity |].
  split; [apply Hown; left; reflexivity | congruence].
Qed.

(** W1 claims O1 with a station, then W2 calls while the store fails. *)
Lemma claimOrder_second_worker_refused_witness :
  outcome (claimOrder "O1" "W1" (Some "Grill")) opening = true
  /\ outcome (claimOrder "O1" "W2" None)
       (mkWorld (after (claimOrder "O1" "W1" (Some "Grill")) opening)
          (clock (then_ opening (claimOrder "O1" "W1" (Some "Grill")))) [false; true])
     = false
  /\ after (claimOrder "O1" "W2" None)
       (mkWorld (after (claimOrder "O1" "W1" (Some "Grill")) opening)
          (clock (then_ opening (claimOrder "O1" "W1" (Some "Grill")))) [false; true])
     = after (claimOrder "O1" "W1" (Some "Grill")) opening.
Proof.
  apply (claimOrder_second_worker_refused "O1" "W1" "W2" (Some "Grill") None opening
           [false; true]).
  - constructor.
  - discriminate.
  - intros (i & u & Hin & Hc & _). simpl in Hin.
    destruct Hin as [<- | [<- | []]]; discriminate Hc.
  - discriminate.
Defined.

(* ================================================================== *)
(** * What releaseOrder releases *)

(** The items of the order after the filtered update of a release. *)
Lemma released_items (orderId userId : uuid) (s : Store) (i' : OrderItem.t) :
  In i' (items_of orderId (snd (update_release orderId userId s))) ->
  exists i,
    In i (items_of orderId s)
    /\ i' = if claimed_of orderId userId i then release_patch i else i.
Proof.
  intros Hin. apply In_items_of in Hin. destruct Hin as [Hin Ho].
  cbn [update_release snd with_order_items order_items] in Hin.
  unfold update in Hin. apply in_map_iff in Hin. destruct Hin as (i & Hi & Hin).
  exists i. split; [| symmetry; exact Hi].
  apply In_items_of. split; [exact Hin |].
  subst i'. destruct (claimed_of orderId userId i); exact Ho.
Qed.

(** Whatever happens in transit, a release has run its filtered update on
    the items or has not. *)
Lemma releaseOrder_items_cases (orderId userId : uuid) (w : World) :
  order_items (after (releaseOrder orderId userId) w) = order_items (db w)
  \/ order_items (after (releaseOrder orderId userId) w)
     = update release_patch (claimed_of orderId userId) (order_items (db w)).
Proof.
  unfold after, releaseOrder. as_tree. rewrite run_Await.
  destruct (roundtrip_cases (update_release orderId userId) w) as [[Hr Hdb] | [Hr Hdb]];
    rewrite Hr.
  - left. cbn [run snd]. rewrite Hdb. reflexivity.
  - right. cbn [update_release fst snd] in Hdb |- *.
    set (w1 := snd (roundtrip (update_release orderId userId) w)) in *.
    rewrite run_Await.
    assert (Hdb2 : db (snd (roundtrip (select_remaining orderId) w1)) = db w1).
    { destruct (roundtrip_cases (select_remaining orderId) w1) as [[_ H] | [_ H]];
        rewrite H; reflexivity. }
    set (w2 := snd (roundtrip (select_remaining orderId) w1)) in *.
    destruct (fst (roundtrip (select_remaining orderId) w1)) as [remaining |];
      [| cbn [run snd]; rewrite Hdb2, Hdb; reflexivity].
    rewrite run_bind. cbn [run snd].
    destruct (Nat.eqb _ 0); [| cbn [run snd]; rewrite Hdb2, Hdb; reflexivity].
    rewrite run_Now, run_Await. cbn [run snd].
    destruct (roundtrip_cases (update_order_status orderId pending (clock w2)) w2)
      as [[_ H] | [_ H]]; rewrite H;
      cbn [update_order_status snd with_orders order_items];
      rewrite Hdb2, Hdb; reflexivity.
Qed.

(** X4: whatever the store, the answer and the failures in transit,
    [releaseOrder] changes no item of another order and no item that the
    caller does not own: an item it changes was an item of the order with the
    caller as claim-owner, and the change is the release patch (unclaimed,
    ['pending']), whatever the status of the item was. *)
Theorem releaseOrder_releases_own_only (orderId userId : uuid) (w : World) :
  Forall2
    (fun i i' =>
       i' = i
       \/ (OrderItem.order_id i = orderId
           /\ OrderItem.claimed_by_user_id i = Some userId
           /\ i' = release_patch i))
    (order_items (db w))
    (order_items (after (releaseOrder orderId userId) w)).
Proof.
  destruct (releaseOrder_items_cases orderId userId w) as [H | H]; rewrite H.
  - apply Forall2_same. intros i. left. reflexivity.
  - apply Forall2_weaken with (2 := update_Forall2 _ (claimed_of orderId userId) _).
    intros i i' _ Hi'. subst i'. unfold claimed_of, eq_col.
    destruct (String.eqb (OrderItem.order_id i) orderId) eqn:Eo; [| left; reflexivity].
    destruct (OrderItem.claimed_by_user_id i) as [v |] eqn:Ec; [| left; reflexivity].
    destruct (String.eqb v userId) eqn:Ev; [| left; reflexivity].
    apply String.eqb_eq in Eo, Ev. subst v.
    right. split; [exact Eo | split; reflexivity].
Qed.

(** The order after a release that met no failure. *)
Lemma releaseOrder_orders (orderId userId : uuid) (w : World) :
  reliable w ->
  orders (after (releaseOrder orderId userId) w)
  = if Nat.eqb
         (length
            (map OrderItem.id
               (select (fun i => String.eqb (OrderItem.order_id i) orderId
                                 && negb (is_null (OrderItem.claimed_by_user_id i)))
                  (order_items (snd (update_release orderId userId (db w))))))) 0
    then update (status_patch pending (S (S (clock w))))
           (fun o => String.eqb (Order.id o) orderId) (orders (db w))
    else orders (db w).
Proof.
  intros Hrel. unfold after, releaseOrder. as_tree.
  rewrite run_Await, (roundtrip_reliable _ _ Hrel). cbn [fst snd].
  set (s1 := snd (update_release orderId userId (db w))).
  set (w1 := mkWorld s1 (S (clock w)) (tl (faults w))).
  assert (Hrel1 : reliable w1) by (apply reliable_tl; exact Hrel).
  cbn [update_release fst].
  rewrite run_Await, (roundtrip_reliable _ _ Hrel1). cbn [select_remaining fst snd db w1].
  set (w2 := mkWorld s1 (S (clock w1)) (tl (faults w1))).
  assert (Hrel2 : reliable w2) by (apply reliable_tl; exact Hrel1).
  rewrite run_bind. cbn [run snd].
  destruct (Nat.eqb _ 0); [| reflexivity].
  rewrite run_Now, run_Await, (roundtrip_reliable _ _ Hrel2). reflexivity.
Qed.

(** A release that met no failure, when every claimed item of the order was
    the caller's, writes the order back to ['pending']. *)
Lemma releaseOrder_back_to_pending (orderId userId : uuid) (w : World) :
  reliable w ->
  ~ claimed_by_another orderId userId (db w) ->
  order_status orderId (after (releaseOrder orderId userId) w)
  = map (fun _ => pending) (order_status orderId (db w)).
Proof.
  intros Hrel Hno.
  assert (Hfree : forall i',
            In i' (items_of orderId (snd (update_release orderId userId (db w)))) ->
            OrderItem.claimed_by_user_id i' = None).
  { intros i' Hin. apply released_items in Hin. destruct Hin as (i & Hin & Hi').
    subst i'. unfold claimed_of, eq_col.
    apply In_items_of in Hin as Hio. destruct Hio as [_ Ho].
    rewrite Ho, String.eqb_refl. cbn [andb].
    destruct (OrderItem.claimed_by_user_id i) as [v |] eqn:Ec; [| exact Ec].
    destruct (String.eqb v userId) eqn:Ev; [reflexivity |].
    exfalso. apply Hno. exists i, v.
    split; [exact Hin | split; [exact Ec | apply String.eqb_neq; exact Ev]]. }
  apply remaining_none in Hfree.
  assert (Ho := releaseOrder_orders orderId userId w Hrel).
  rewrite Hfree in Ho.
  rewrite <- (order_status_patched orderId pending (S (S (clock w))) (db w)).
  unfold order_status. rewrite Ho. reflexivity.
Qed.

(** While another worker holds an item of the order, a release leaves the
    orders as they are. *)
Lemma releaseOrder_orders_kept (orderId userId : uuid) (w : World) :
  claimed_by_another orderId userId (db w) ->
  orders (after (releaseOrder orderId userId) w) = orders (db w).
Proof.
  intros (i & v & Hin & Hc & Hne).
  unfold after, releaseOrder. as_tree. rewrite run_Await.
  destruct (roundtrip_cases (update_release orderId userId) w) as [[Hr Hdb] | [Hr Hdb]];
    rewrite Hr; [cbn [run snd]; rewrite Hdb; reflexivity |].
  cbn [update_release fst snd] in Hdb |- *.
  set (w1 := snd (roundtrip (update_release orderId userId) w)) in *.
  rewrite run_Await.
  destruct (roundtrip_cases (select_remaining orderId) w1) as [[Hr2 Hdb2] | [Hr2 Hdb2]];
    rewrite Hr2; [cbn [run snd]; rewrite Hdb2, Hdb; reflexivity |].
  cbn [select_remaining fst snd] in Hdb2 |- *.
  rewrite run_bind. cbn [run snd].
  destruct (Nat.eqb _ 0) eqn:Erem;
    [| cbn [run snd]; rewrite Hdb2, Hdb; reflexivity].
  exfalso.
  assert (Hfree := proj1 (remaining_none orderId (db w1)) Erem).
  assert (Hi : In i (items_of orderId (db w1))).
  { apply In_items_of in Hin. destruct Hin as [Hin Ho].
    apply In_items_of. split; [| exact Ho].
    rewrite Hdb. cbn [with_order_items order_items]. unfold update.
    apply in_map_iff. exists i. split; [| exact Hin].
    unfold claimed_of, eq_col. rewrite Hc.
    assert (Ev : String.eqb v userId = false) by (apply String.eqb_neq; exact Hne).
    rewrite Ev, andb_false_r. reflexivity. }
  rewrite (Hfree i Hi) in Hc. discriminate Hc.
Qed.

(** X5: after a release that met no failure, the order is written back to
    ['pending'], whatever its status was, when every claimed item of the
    order was the caller's; and whatever happens in transit, the orders are
    left as they are when another worker holds an item of the order. *)
Theorem releaseOrder_resets_order (orderId userId : uuid) (w : World) :
  (reliable w ->
   ~ claimed_by_another orderId userId (db w) ->
   order_status orderId (after (releaseOrder orderId userId) w)
   = map (fun _ => pending) (order_status orderId (db w)))
  /\ (claimed_by_another orderId userId (db w) ->
      orders (after (releaseOrder orderId userId) w) = orders (db w)).
Proof.
  split;
    [apply releaseOrder_back_to_pending | apply releaseOrder_orders_kept].
Qed.

(** W1 releases the ready order O2 it holds; W2 releases O1 while W1 holds
    it. *)
Lemma releaseOrder_resets_order_witness :
  order_status "O2"
    (after (releaseOrder "O2" "W1") (then_ C_done (updateOrderStatus "O2" ready)))
  = map (fun _ => pending)
      (order_status "O2" (db (then_ C_done (updateOrderStatus "O2" ready))))
  /\ orders (after (releaseOrder "O1" "W2") A_done) = orders (db A_done).
Proof.
  split.
  - apply (releaseOrder_resets_order "O2" "W1"
             (then_ C_done (updateOrderStatus "O2" ready))).
    + constructor.
    + intros (i & u & Hin & Hc & Hne). simpl in Hin.
      destruct Hin as [<- | []]. inversion Hc. subst u. apply Hne. reflexivity.
  - apply (releaseOrder_resets_order "O1" "W2" A_done).
    exists (claim_patch "W1" 1 (new_item "B" "O1")), "W1".
    split; [right; left; reflexivity | split; [reflexivity | discriminate]].
Defined.

(* ================================================================== *)
(** * Claim, then release *)

Lemma release_claim_fresh (orderId userId : uuid) (t : timestamp) (i : OrderItem.t) :
  (OrderItem.order_id i = orderId ->
   OrderItem.claimed_by_user_id i = None
   /\ OrderItem.claimed_at i = None
   /\ OrderItem.status i = item_pending) ->
  (let i1 := if unclaimed_of orderId i then claim_patch userId t i else i in
   if claimed_of orderId userId i1 then release_patch i1 else i1) = i.
Proof.
  intros Hfresh. cbv zeta. unfold unclaimed_of.
  destruct (String.eqb (OrderItem.order_id i) orderId) eqn:Eo.
  - apply String.eqb_eq in Eo. destruct (Hfresh Eo) as (Hc & Ha & Hs).
    rewrite Hc. cbn [is_null andb]. unfold claimed_of, eq_col.
    cbn [claim_patch OrderItem.order_id OrderItem.claimed_by_user_id].
    rewrite Eo, !String.eqb_refl. cbn [andb].
    destruct i. cbn in *. subst. reflexivity.
  - cbn [andb]. unfold claimed_of. rewrite Eo. reflexivity.
Qed.

(** X6: a worker claims an order whose items are all fresh (unclaimed,
    ['pending'], never claimed) and releases it, with no failure in transit:
    both calls return [true], every order item is again exactly the row it
    was, and the order is ['pending']. *)
Theorem claim_then_release (orderId userId : uuid) (station : option string) (w : World) :
  reliable w ->
  items_of orderId (db w) <> [] ->
  (forall i, In i (items_of orderId (db w)) ->
     OrderItem.claimed_by_user_id i = None
     /\ OrderItem.claimed_at i = None
     /\ OrderItem.status i = item_pending) ->
  outcome (claimOrder orderId userId station) w = true
  /\ outcome (releaseOrder orderId userId) (then_ w (claimOrder orderId userId station))
     = true
  /\ order_items
       (after (releaseOrder orderId userId) (then_ w (claimOrder orderId userId station)))
     = order_items (db w)
  /\ Forall (fun st => st = pending)
       (order_status orderId
          (after (releaseOrder orderId userId)
             (then_ w (claimOrder orderId userId station)))).
Proof.
  intros Hrel Hne Hfresh.
  assert (Hno : ~ claimed_by_another orderId userId (db w)).
  { intros (i & v & Hin & Hc & _). destruct (Hfresh i Hin) as (Hc' & _).
    rewrite Hc' in Hc. discriminate Hc. }
  destruct (claimOrder_claimed orderId userId station w Hrel Hne Hno)
    as (Hout & Hitems & _).
  destruct (claimOrder_owns_all orderId userId station w Hrel Hne Hno) as (_ & Hown).
  set (w1 := then_ w (claimOrder orderId userId station)).
  assert (Hrel1 : reliable w1) by (apply run_reliable; exact Hrel).
  assert (Hno1 : ~ claimed_by_another orderId userId (db w1)).
  { intros (i & v & Hin & Hc & Hv). rewrite (Hown i Hin) in Hc.
    inversion Hc. congruence. }
  split; [exact Hout |].
  split; [apply releaseOrder_reliable; exact Hrel1 |].
  split.
  - rewrite (releaseOrder_items orderId userId w1 Hrel1).
    change (order_items (db w1))
      with (order_items (after (claimOrder orderId userId station) w)).
    rewrite Hitems. unfold update. rewrite map_map.
    rewrite <- (map_id (order_items (db w))) at 2.
    apply map_ext_in. intros i Hin.
    apply (release_claim_fresh orderId userId (S (clock w)) i).
    intros Ho. apply Hfresh, In_items_of. split; assumption.
  - rewrite (releaseOrder_back_to_pending orderId userId w1 Hrel1 Hno1).
    apply map_const_Forall.
Qed.

(** W1 claims the fresh order O1 at the grill and releases it. *)
Lemma claim_then_release_witness :
  outcome (claimOrder "O1" "W1" (Some "Grill")) opening = true
  /\ outcome (releaseOrder "O1" "W1") (then_ opening (claimOrder "O1" "W1" (Some "Grill")))
     = true
  /\ order_items
       (after (releaseOrder "O1" "W1")
          (then_ opening (claimOrder "O1" "W1" (Some "Grill"))))
     = order_items (db opening)
  /\ Forall (fun st => st = pending)
       (order_status "O1"
          (after (releaseOrder "O1" "W1")
             (then_ opening (claimOrder "O1" "W1" (Some "Grill"))))).
Proof.
  apply (claim_then_release "O1" "W1" (Some "Grill") opening).
  - constructor.
  - discriminate.
  - intros i Hin. simpl in Hin.
    destruct Hin as [<- | [<- | []]]; repeat split.
Defined.

(* ================================================================== *)
(** * Terminated sessions and heartbeats *)

Lemma terminateSession_sessions (sessionId : uuid) (w : World) :
  reliable w ->
  active_sessions (after (terminateSession sessionId) w)
  = update inactive_patch (fun r => String.eqb (ActiveSession.id r) sessionId)
      (active_sessions (db w)).
Proof.
  intros Hrel. unfold after, terminateSession, loadStaffData. as_tree.
  rewrite run_Await, (roundtrip_reliable _ _ Hrel). cbn [update_session_inactive fst snd].
  set (w1 := mkWorld _ (S (clock w)) (tl (faults w))).
  assert (Hrel1 : reliable w1) by (apply reliable_tl; exact Hrel).
  rewrite run_Await, (roundtrip_reliable _ _ Hrel1). cbn [read_only fst snd db w1].
  set (w2 := mkWorld _ (S (clock w1)) (tl (faults w1))).
  assert (Hrel2 : reliable w2) by (apply reliable_tl; exact Hrel1).
  rewrite run_Await, (roundtrip_reliable _ _ Hrel2). reflexivity.
Qed.

Lemma updateSessionHeartbeat_cases (userId : uuid) (w : World) :
  after (updateSessionHeartbeat userId) w = db w
  \/ after (updateSessionHeartbeat userId) w
     = with_active_sessions (db w)
         (update (heartbeat_patch (clock w)) (active_session_of userId)
            (active_sessions (db w))).
Proof.
  unfold after, updateSessionHeartbeat. as_tree. rewrite run_Now, run_Await.
  cbn [run snd].
  destruct (roundtrip_cases (update_heartbeat userId (clock w)) w) as [[_ H] | [_ H]];
    rewrite H; [left | right]; reflexivity.
Qed.

(** X7: once [terminateSession] has marked a session inactive, the heartbeat
    of [lib/database.ts] does not touch it, for whatever user and whatever
    happens in transit during the heartbeat: the row stays the terminated
    row, inactive and with the heartbeat time it had. *)
Theorem heartbeat_skips_terminated (sessionId userId : uuid) (w : World) (fs : list bool) :
  reliable w ->
  Forall2
    (fun r r' => ActiveSession.id r = sessionId -> r' = inactive_patch r)
    (active_sessions (db w))
    (active_sessions
       (after (updateSessionHeartbeat userId)
          (mkWorld (after (terminateSession sessionId) w)
             (clock (then_ w (terminateSession sessionId))) fs))).
Proof.
  intros Hrel.
  set (w1 := mkWorld (after (terminateSession sessionId) w)
               (clock (then_ w (terminateSession sessionId))) fs).
  assert (Hterm : active_sessions (db w1)
                  = update inactive_patch
                      (fun r => String.eqb (ActiveSession.id r) sessionId)
                      (active_sessions (db w)))
    by (apply terminateSession_sessions; exact Hrel).
  destruct (updateSessionHeartbeat_cases userId w1) as [H | H]; rewrite H.
  - rewrite Hterm.
    apply Forall2_weaken
      with (2 := update_Forall2 _ (fun r => String.eqb (ActiveSession.id r) sessionId) _).
    intros r r' _ Hr' Hid. subst r'. rewrite Hid, String.eqb_refl. reflexivity.
  - cbn [with_active_sessions active_sessions]. rewrite Hterm.
    unfold update at 1. unfold update at 1. rewrite map_map.
    clear. induction (active_sessions (db w)) as [| r l IH]; constructor; [| exact IH].
    intros Hid. rewrite Hid, String.eqb_refl.
    unfold active_session_of. cbn [inactive_patch ActiveSession.status SessionStatus_eqb].
    rewrite andb_false_r. reflexivity.
Qed.

(** W1's session is terminated; the heartbeat of W1 follows. *)
Lemma heartbeat_skips_terminated_witness :
  Forall2
    (fun r r' => ActiveSession.id r = gen_uuid 0 -> r' = inactive_patch r)
    (active_sessions (db working))
    (active_sessions
       (after (updateSessionHeartbeat "W1")
          (mkWorld (after (terminateSession (gen_uuid 0)) working)
             (clock (then_ working (terminateSession (gen_uuid 0)))) []))).
Proof.
  apply (heartbeat_skips_terminated (gen_uuid 0) "W1" working []).
  constructor.
Defined.

Lemma dbHelpers_updateSessionHeartbeat_run (sessionId : uuid) (w : World) :
  reliable w ->
  run (dbHelpers.updateSessionHeartbeat sessionId) w
  = (Data tt,
     mkWorld
       (with_active_sessions (db w)
          (update active_patch (fun r => String.eqb (ActiveSession.id r) sessionId)
             (active_sessions (db w))))
       (S (clock w)) (tl (faults w))).
Proof.
  intros Hrel. unfold dbHelpers.updateSessionHeartbeat. as_tree.
  rewrite run_Await, (roundtrip_reliable _ _ Hrel). reflexivity.
Qed.

Lemma active_inactive_patch (r : ActiveSession.t) :
  active_patch (inactive_patch r) = active_patch r.
Proof. reflexivity. Qed.

(** X8: the heartbeat of [dbHelpers] writes [status: 'active'] with the time:
    run after [terminateSession] on the same session, with no failure in
    transit, it returns without error and the session is active again, every
    other column and every other session as before the termination. *)
Theorem heartbeat_revives_terminated (sessionId : uuid) (w : World) :
  reliable w ->
  outcome (dbHelpers.updateSessionHeartbeat sessionId)
    (then_ w (terminateSession sessionId)) = Data tt
  /\ Forall2
       (fun r r' =>
          r' = if String.eqb (ActiveSession.id r) sessionId then active_patch r else r)
       (active_sessions (db w))
       (active_sessions
          (after (dbHelpers.updateSessionHeartbeat sessionId)
             (then_ w (terminateSession sessionId)))).
Proof.
  intros Hrel.
  assert (Hrel1 : reliable (then_ w (terminateSession sessionId)))
    by (apply run_reliable; exact Hrel).
  unfold outcome, after.
  rewrite (dbHelpers_updateSessionHeartbeat_run _ _ Hrel1).
  split; [reflexivity |].
  cbn [snd db with_active_sessions active_sessions].
  change (active_sessions (db (then_ w (terminateSession sessionId))))
    with (active_sessions (after (terminateSession sessionId) w)).
  rewrite (terminateSession_sessions _ _ Hrel).
  unfold update. rewrite map_map.
  clear. induction (active_sessions (db w)) as [| r l IH]; constructor; [| exact IH].
  destruct (String.eqb (ActiveSession.id r) sessionId) eqn:E.
  - cbn [inactive_patch ActiveSession.id]. rewrite E. reflexivity.
  - rewrite E. reflexivity.
Qed.

(** W1's session is terminated; its next heartbeat follows. *)
Lemma heartbeat_revives_terminated_witness :
  outcome (dbHelpers.updateSessionHeartbeat (gen_uuid 0))
    (then_ working (terminateSession (gen_uuid 0))) = Data tt
  /\ map ActiveSession.status
       (active_sessions
          (after (dbHelpers.updateSessionHeartbeat (gen_uuid 0))
             (then_ working (terminateSession (gen_uuid 0)))))
     = [active].
Proof.
  destruct (heartbeat_revives_terminated (gen_uuid 0) working) as [Hout H].
  - constructor.
  - split; [exact Hout |].
    inversion H as [| r r' l l' Hr Hl]; subst. inversion Hl; subst. reflexivity.
Defined.

(* ================================================================== *)
(** * Claims on orders: claim_order and release_order *)

Lemma with_orders_same (s : Store) : with_orders s (orders s) = s.
Proof. destruct s; reflexivity. Qed.

Lemma dbHelpers_claimOrder_run (orderId sessionId : uuid) (w : World) :
  reliable w ->
  run (dbHelpers.claimOrder orderId sessionId) w
  = (fst (claim_order orderId sessionId (clock w) (db w)),
     mkWorld (snd (claim_order orderId sessionId (clock w) (db w)))
       (S (clock w)) (tl (faults w))).
Proof.
  intros Hrel. unfold dbHelpers.claimOrder. as_tree.
  rewrite run_Now, run_Await, (roundtrip_reliable _ _ Hrel). reflexivity.
Qed.

Lemma dbHelpers_releaseOrder_run (orderId sessionId : uuid) (w : World) :
  reliable w ->
  run (dbHelpers.releaseOrder orderId sessionId) w
  = (fst (release_order orderId sessionId (db w)),
     mkWorld (snd (release_order orderId sessionId (db w)))
       (S (clock w)) (tl (faults w))).
Proof.
  intros Hrel. unfold dbHelpers.releaseOrder. as_tree.
  rewrite run_Await, (roundtrip_reliable _ _ Hrel). reflexivity.
Qed.

(** After a claim, no row of the order is claimable: its rows are
    ['preparing']. *)
Lemma claimed_not_claimable (orderId s1 s2 : uuid) (t : timestamp) (l : list Order.t) :
  existsb (claimable_by orderId s2)
    (update (order_claim_patch s1 t) (fun o => String.eqb (Order.id o) orderId) l)
  = false.
Proof.
  unfold update. induction l as [| o l IH]; [reflexivity |]. cbn [map existsb].
  rewrite IH, orb_false_r. unfold claimable_by.
  destruct (String.eqb (Order.id o) orderId) eqn:E.
  - cbn [order_claim_patch Order.status OrderStatus_eqb]. apply andb_false_r.
  - rewrite E. reflexivity.
Qed.

(** X9: when [dbHelpers.claimOrder] has claimed an order for a session, a
    further [dbHelpers.claimOrder] on that order, by another session or by
    the same one, does not return [true] and changes nothing in the store,
    whatever happens in transit: the order is no longer ['pending']. *)
Theorem claim_order_once (orderId s1 s2 : uuid) (w : World) (fs : list bool) :
  reliable w ->
  outcome (dbHelpers.claimOrder orderId s1) w = Data true ->
  outcome (dbHelpers.claimOrder orderId s2)
    (mkWorld (after (dbHelpers.claimOrder orderId s1) w)
       (clock (then_ w (dbHelpers.claimOrder orderId s1))) fs)
  <> Data true
  /\ after (dbHelpers.claimOrder orderId s2)
       (mkWorld (after (dbHelpers.claimOrder orderId s1) w)
          (clock (then_ w (dbHelpers.claimOrder orderId s1))) fs)
     = after (dbHelpers.claimOrder orderId s1) w.
Proof.
  intros Hrel Hout. unfold outcome, after, then_ in *.
  rewrite (dbHelpers_claimOrder_run _ _ _ Hrel) in *. cbn [fst snd db clock] in *.
  unfold claim_order in Hout |- *.
  destruct (existsb (claimable_by orderId s1) (orders (db w))); [| discriminate Hout].
  cbn [snd].
  unfold dbHelpers.claimOrder. as_tree. rewrite run_Now, run_Await. cbn [run fst snd].
  match goal with
  | |- context [roundtrip ?stmt ?w1] =>
      destruct (roundtrip_cases stmt w1) as [[Hr Hdb] | [Hr Hdb]]; rewrite Hr, Hdb
  end.
  - split; [discriminate | reflexivity].
  - cbn [db clock]. unfold claim_order. cbn [with_orders orders].
    rewrite claimed_not_claimable. split; [discriminate | reflexivity].
Qed.

(** Session S1 claims the pending order O1; S2 tries, and S1 tries again. *)
Lemma claim_order_once_witness :
  outcome (dbHelpers.claimOrder "O1" "S1")
    (mkWorld (after (dbHelpers.claimOrder "O1" "S1") opening)
       (clock (then_ opening (dbHelpers.claimOrder "O1" "S1"))) [])
  <> Data true
  /\ after (dbHelpers.claimOrder "O1" "S1")
       (mkWorld (after (dbHelpers.claimOrder "O1" "S1") opening)
          (clock (then_ opening (dbHelpers.claimOrder "O1" "S1"))) [])
     = after (dbHelpers.claimOrder "O1" "S1") opening.
Proof.
  apply (claim_order_once "O1" "S1" "S1" opening []).
  - constructor.
  - reflexivity.
Defined.

(** A claim patch under a release patch is the row itself when the row was
    pending and unclaimed. *)
Lemma release_claim_order (orderId sessionId : uuid) (t : timestamp) (l : list Order.t) :
  (forall o, In o l -> Order.id o = orderId ->
     Order.status o = pending /\ Order.claimed_by o = None /\ Order.claimed_at o = None) ->
  update order_release_patch (fun o => String.eqb (Order.id o) orderId)
    (update (order_claim_patch sessionId t) (fun o => String.eqb (Order.id o) orderId) l)
  = l.
Proof.
  intros Hfresh. unfold update. rewrite map_map.
  rewrite <- (map_id l) at 2. apply map_ext_in. intros o Hin.
  destruct (String.eqb (Order.id o) orderId) eqn:E.
  - cbn [order_claim_patch Order.id]. rewrite E.
    apply String.eqb_eq in E. destruct (Hfresh o Hin E) as (Hs & Hc & Ha).
    destruct o. cbn in *. subst. reflexivity.
  - rewrite E. reflexivity.
Qed.

(** X10: on an order that exists, ['pending'] and unclaimed,
    [dbHelpers.claimOrder] followed by [dbHelpers.releaseOrder] of the same
    session, with no failure in transit, both return [true], and the store
    is exactly the store before the claim. *)
Theorem claim_order_release_order (orderId sessionId : uuid) (w : World) :
  reliable w ->
  (exists o, In o (orders (db w)) /\ Order.id o = orderId) ->
  (forall o, In o (orders (db w)) -> Order.id o = orderId ->
     Order.status o = pending /\ Order.claimed_by o = None /\ Order.claimed_at o = None) ->
  outcome (dbHelpers.claimOrder orderId sessionId) w = Data true
  /\ outcome (dbHelpers.releaseOrder orderId sessionId)
       (then_ w (dbHelpers.claimOrder orderId sessionId)) = Data true
  /\ after (dbHelpers.releaseOrder orderId sessionId)
       (then_ w (dbHelpers.claimOrder orderId sessionId)) = db w.
Proof.
  intros Hrel (o & Hin & Hid) Hfresh.
  assert (Hrel1 : reliable (then_ w (dbHelpers.claimOrder orderId sessionId)))
    by (apply run_reliable; exact Hrel).
  unfold outcome, after.
  rewrite (dbHelpers_releaseOrder_run _ _ _ Hrel1). unfold then_.
  rewrite (dbHelpers_claimOrder_run _ _ _ Hrel). cbn [fst snd db].
  assert (Hclaimable : existsb (claimable_by orderId sessionId) (orders (db w)) = true).
  { apply existsb_exists. exists o. split; [exact Hin |].
    destruct (Hfresh o Hin Hid) as (Hs & Hc & _).
    unfold claimable_by. rewrite Hid, String.eqb_refl, Hc, Hs. reflexivity. }
  unfold claim_order. rewrite Hclaimable. cbn [fst snd].
  split; [reflexivity |].
  assert (Hheld : existsb (claimed_by_session orderId sessionId)
                    (update (order_claim_patch sessionId (clock w))
                       (fun o => String.eqb (Order.id o) orderId) (orders (db w)))
                  = true).
  { apply existsb_exists. exists (order_claim_patch sessionId (clock w) o). split.
    - unfold update. apply in_map_iff. exists o. split; [| exact Hin].
      rewrite Hid, String.eqb_refl. reflexivity.
    - unfold claimed_by_session, eq_col.
      cbn [order_claim_patch Order.id Order.claimed_by].
      rewrite Hid, !String.eqb_refl. reflexivity. }
  unfold release_order. cbn [with_orders orders]. rewrite Hheld. cbn [fst snd].
  split; [reflexivity |].
  cbn [with_orders order_items orders active_sessions users unique_user_restaurant
         next_uuid].
  rewrite (release_claim_order orderId sessionId (clock w) (orders (db w)) Hfresh).
  destruct (db w); reflexivity.
Qed.

(** Session S1 claims the fresh order O2 and releases it. *)
Lemma claim_order_release_order_witness :
  outcome (dbHelpers.claimOrder "O2" "S1") opening = Data true
  /\ outcome (dbHelpers.releaseOrder "O2" "S1")
       (then_ opening (dbHelpers.claimOrder "O2" "S1")) = Data true
  /\ after (dbHelpers.releaseOrder "O2" "S1")
       (then_ opening (dbHelpers.claimOrder "O2" "S1")) = db opening.
Proof.
  apply (claim_order_release_order "O2" "S1" opening).
  - constructor.
  - exists (new_order "O2"). split; [right; left; reflexivity | reflexivity].
  - intros o Hin Hid. simpl in Hin.
    destruct Hin as [<- | [<- | [<- | []]]]; repeat split.
Defined.

(* ================================================================== *)
(** * endSession and the claims on orders *)

Lemma endSession_run (sessionId : uuid) (w : World) :
  reliable w ->
  run (endSession sessionId) w
  = (Data tt,
     mkWorld
       (with_active_sessions
          (with_orders (db w)
             (update order_release_patch
                (fun o => eq_col (Order.claimed_by o) sessionId) (orders (db w))))
          (delete (fun r => String.eqb (ActiveSession.id r) sessionId)
             (active_sessions (db w))))
       (S (S (clock w))) (tl (tl (faults w)))).
Proof.
  intros Hrel. unfold endSession. as_tree.
  rewrite run_Await, (roundtrip_reliable _ _ Hrel). cbn [update_orders_release fst snd].
  set (w1 := mkWorld _ (S (clock w)) (tl (faults w))).
  assert (Hrel1 : reliable w1) by (apply reliable_tl; exact Hrel).
  rewrite run_Await, (roundtrip_reliable _ _ Hrel1). reflexivity.
Qed.

(** X11: an order that [dbHelpers.claimOrder] has claimed for a session is
    free again after [endSession] of that session: with no failure in
    transit, a [dbHelpers.claimOrder] of any session on it then returns
    [true], and [endSession] has deleted the rows of that session only. *)
Theorem endSession_frees_order (orderId s1 s2 : uuid) (w : World) :
  reliable w ->
  (exists o, In o (orders (db w)) /\ Order.id o = orderId) ->
  (forall o, In o (orders (db w)) -> Order.id o = orderId ->
     Order.status o = pending /\ Order.claimed_by o = None) ->
  outcome (dbHelpers.claimOrder orderId s1) w = Data true
  /\ outcome (endSession s1) (then_ w (dbHelpers.claimOrder orderId s1)) = Data tt
  /\ outcome (dbHelpers.claimOrder orderId s2)
       (then_ (then_ w (dbHelpers.claimOrder orderId s1)) (endSession s1))
     = Data true
  /\ active_sessions (after (endSession s1) (then_ w (dbHelpers.claimOrder orderId s1)))
     = delete (fun r => String.eqb (ActiveSession.id r) s1) (active_sessions (db w)).
Proof.
  intros Hrel (o & Hin & Hid) Hfresh.
  set (w1 := then_ w (dbHelpers.claimOrder orderId s1)).
  assert (Hrel1 : reliable w1) by (apply run_reliable; exact Hrel).
  set (w2 := then_ w1 (endSession s1)).
  assert (Hrel2 : reliable w2) by (apply run_reliable; exact Hrel1).
  assert (Hclaimable : existsb (claimable_by orderId s1) (orders (db w)) = true).
  { apply existsb_exists. exists o. split; [exact Hin |].
    destruct (Hfresh o Hin Hid) as (Hs & Hc).
    unfold claimable_by. rewrite Hid, String.eqb_refl, Hc, Hs. reflexivity. }
  assert (Hw1 : db w1
                = with_orders (db w)
                    (update (order_claim_patch s1 (clock w))
                       (fun o => String.eqb (Order.id o) orderId) (orders (db w)))).
  { unfold w1, then_. rewrite (dbHelpers_claimOrder_run _ _ _ Hrel). cbn [snd db].
    unfold claim_order. rewrite Hclaimable. reflexivity. }
  assert (Hw2 : db w2
                = with_active_sessions
                    (with_orders (db w1)
                       (update order_release_patch
                          (fun o => eq_col (Order.claimed_by o) s1) (orders (db w1))))
                    (delete (fun r => String.eqb (ActiveSession.id r) s1)
                       (active_sessions (db w1)))).
  { unfold w2, then_. rewrite (endSession_run _ _ Hrel1). reflexivity. }
  split.
  { unfold outcome. rewrite (dbHelpers_claimOrder_run _ _ _ Hrel). cbn [fst].
    unfold claim_order. rewrite Hclaimable. reflexivity. }
  split.
  { unfold outcome. rewrite (endSession_run _ _ Hrel1). reflexivity. }
  split.
  - unfold outcome. rewrite (dbHelpers_claimOrder_run _ _ _ Hrel2). cbn [fst].
    unfold claim_order.
    assert (Hagain : existsb (claimable_by orderId s2) (orders (db w2)) = true).
    { apply existsb_exists.
      exists (order_release_patch (order_claim_patch s1 (clock w) o)). split.
      - rewrite Hw2. cbn [with_active_sessions with_orders orders].
        unfold update at 1. apply in_map_iff.
        exists (order_claim_patch s1 (clock w) o). split.
        + cbn [order_claim_patch Order.claimed_by eq_col].
          rewrite String.eqb_refl. reflexivity.
        + rewrite Hw1. cbn [with_orders orders]. unfold update. apply in_map_iff.
          exists o. split; [| exact Hin]. rewrite Hid, String.eqb_refl. reflexivity.
      - unfold claimable_by.
        cbn [order_release_patch order_claim_patch Order.id Order.claimed_by
               Order.status is_null OrderStatus_eqb orb].
        rewrite Hid, String.eqb_refl. reflexivity. }
    rewrite Hagain. reflexivity.
  - fold w1. change (after (endSession s1) w1) with (db w2).
    rewrite Hw2, Hw1. reflexivity.
Qed.

(** Session S1 (the session [gen_uuid 0] of W1) claims O1 and is ended; S2
    claims O1. *)
Lemma endSession_frees_order_witness :
  outcome (dbHelpers.claimOrder "O1" "S2")
    (then_ (then_ logged_in (dbHelpers.claimOrder "O1" (gen_uuid 0)))
       (endSession (gen_uuid 0)))
  = Data true
  /\ active_sessions
       (after (endSession (gen_uuid 0))
          (then_ logged_in (dbHelpers.claimOrder "O1" (gen_uuid 0))))
     = [].
Proof.
  destruct (endSession_frees_order "O1" (gen_uuid 0) "S2" logged_in)
    as (_ & _ & Hclaim & Hsessions).
  - constructor.
  - exists (new_order "O1"). split; [left; reflexivity | reflexivity].
  - intros o Hin Hid. simpl in Hin.
    destruct Hin as [<- | [<- | [<- | []]]]; split; reflexivity.
  - split; [exact Hclaim | rewrite Hsessions; reflexivity].
Defined.

(* ================================================================== *)
(** * Removed staff *)

Lemma removeStaff_run (userId : uuid) (w : World) :
  reliable w ->
  after (removeStaff true userId) w
  = mkStore (order_items (db w)) (orders (db w))
      (delete (fun r => String.eqb (ActiveSession.user_id r) userId)
         (active_sessions (db w)))
      (update (fun u => User.mk (User.id u) None)
         (fun u => String.eqb (User.id u) userId) (users (db w)))
      (unique_user_restaurant (db w)) (next_uuid (db w)).
Proof.
  intros Hrel. unfold after, removeStaff, loadStaffData. as_tree.
  rewrite run_Await, (roundtrip_reliable _ _ Hrel). cbn [delete_sessions_of fst snd].
  set (w1 := mkWorld _ (S (clock w)) (tl (faults w))).
  assert (Hrel1 : reliable w1) by (apply reliable_tl; exact Hrel).
  rewrite run_Await, (roundtrip_reliable _ _ Hrel1). cbn [update_user_removed fst snd db w1].
  set (w2 := mkWorld _ (S (clock w1)) (tl (faults w1))).
  assert (Hrel2 : reliable w2) by (apply reliable_tl; exact Hrel1).
  rewrite run_Await, (roundtrip_reliable _ _ Hrel2). cbn [read_only fst snd db w2].
  set (w3 := mkWorld _ (S (clock w2)) (tl (faults w2))).
  assert (Hrel3 : reliable w3) by (apply reliable_tl; exact Hrel2).
  rewrite run_Await, (roundtrip_reliable _ _ Hrel3). reflexivity.
Qed.

(** A user row without a restaurant gives [createKitchenSession] nothing to
    write. *)
Lemma createKitchenSession_no_restaurant (userId : uuid) (station : string) (w : World) :
  (forall u, In u (users (db w)) -> User.id u = userId -> User.restaurant_id u = None) ->
  after (createKitchenSession userId station) w = db w.
Proof.
  intros Hnone. unfold after, createKitchenSession. as_tree. rewrite run_Await.
  destruct (roundtrip_cases (select_user_restaurant userId) w) as [[Hr Hdb] | [Hr Hdb]];
    rewrite Hr; [exact Hdb |].
  rewrite select_user_restaurant_db in Hdb.
  unfold select_user_restaurant.
  destruct (select (fun u => String.eqb (User.id u) userId) (users (db w)))
    as [| u [| u' rest]] eqn:E; cbn [single fst]; try exact Hdb.
  assert (Hin : In u (select (fun u => String.eqb (User.id u) userId) (users (db w))))
    by (rewrite E; left; reflexivity).
  unfold select in Hin. apply filter_In in Hin. destruct Hin as [Hin Hid].
  apply String.eqb_eq in Hid. rewrite (Hnone u Hin Hid). exact Hdb.
Qed.

(** X12: [removeStaff], confirmed and with no failure in transit, deletes
    every session of the user, and it leaves every order item as it is, the
    user's claims included; afterwards [createKitchenSession] for that user
    writes nothing (the user row has no restaurant any more), at whatever
    time and whatever happens in transit. *)
Theorem removeStaff_closes_for_good (userId : uuid) (station : string) (w : World)
  (c : timestamp) (fs : list bool) :
  reliable w ->
  (forall r, In r (active_sessions (after (removeStaff true userId) w)) ->
     ActiveSession.user_id r <> userId)
  /\ order_items (after (removeStaff true userId) w) = order_items (db w)
  /\ after (createKitchenSession userId station)
       (mkWorld (after (removeStaff true userId) w) c fs)
     = after (removeStaff true userId) w.
Proof.
  intros Hrel. rewrite (removeStaff_run userId w Hrel). cbn [active_sessions order_items].
  split; [| split; [reflexivity |]].
  - intros r Hin. unfold delete in Hin. apply filter_In in Hin. destruct Hin as [_ H].
    apply negb_true_iff, String.eqb_neq in H. exact H.
  - apply (createKitchenSession_no_restaurant userId station (mkWorld _ c fs)).
    cbn [db users]. intros u Hin Hid. unfold update in Hin. apply in_map_iff in Hin.
    destruct Hin as (u0 & Hu & _). subst u.
    destruct (String.eqb (User.id u0) userId) eqn:E; [reflexivity |].
    apply String.eqb_neq in E. contradiction.
Qed.

(** W1, who holds O1 and O2 with one session, is removed. *)
Lemma removeStaff_closes_for_good_witness :
  active_sessions (after (removeStaff true "W1") working) = []
  /\ order_items (after (removeStaff true "W1") working) = order_items (db working)
  /\ after (createKitchenSession "W1" "Grill")
       (mkWorld (after (removeStaff true "W1") working) 20 [])
     = after (removeStaff true "W1") working.
Proof.
  destruct (removeStaff_closes_for_good "W1" "Grill" working 20 []) as (_ & Hi & Hs).
  - constructor.
  - split; [reflexivity | split; [exact Hi | exact Hs]].
Defined.

(* ================================================================== *)
(** * Claims and sessions *)

(** Without a station ([undefined] or the empty string) a call never writes
    the sessions. *)
Lemma claimOrder_no_station (orderId userId : uuid) (station : option string) (w : World) :
  truthy station = false ->
  active_sessions (after (claimOrder orderId userId station) w) = active_sessions (db w).
Proof.
  intros Hst. unfold after, claimOrder. as_tree. rewrite run_Await.
  destruct (roundtrip_cases (select_claims orderId) w) as [[Hr Hdb] | [Hr Hdb]];
    rewrite Hr.
  - cbn [run snd]. rewrite Hdb. reflexivity.
  - cbn [select_claims fst snd] in Hdb |- *.
    set (w1 := snd (roundtrip (select_claims orderId) w)) in *.
    destruct (Nat.eqb _ 0); [cbn [run snd]; rewrite Hdb; reflexivity |].
    destruct (existsb _ _); [cbn [run snd]; rewrite Hdb; reflexivity |].
    rewrite run_Now, run_Await.
    destruct (roundtrip_cases (update_claim orderId userId (clock w1)) w1)
      as [[Hr2 Hdb2] | [Hr2 Hdb2]]; rewrite Hr2.
    + cbn [run snd]. rewrite Hdb2, Hdb. reflexivity.
    + cbn [update_claim fst snd] in Hdb2 |- *.
      set (w2 := snd (roundtrip (update_claim orderId userId (clock w1)) w1)) in *.
      rewrite run_Now, run_Await, run_bind. cbn [run snd fst].
      assert (Htail : match station with
                      | Some st => if truthy station then createKitchenSession userId st
                                   else Ret tt
                      | None => Ret tt
                      end = Ret tt).
      { destruct station as [st |]; [rewrite Hst |]; reflexivity. }
      rewrite Htail. cbn [run snd].
      destruct (roundtrip_cases (update_order_preparing orderId (clock w2)) w2)
        as [[_ Hdb3] | [_ Hdb3]]; rewrite Hdb3;
        cbn [update_order_preparing snd with_orders active_sessions];
        rewrite Hdb2; cbn [with_order_items active_sessions]; rewrite Hdb; reflexivity.
Qed.

Lemma loadKitchenOrders_db (w : World) : after loadKitchenOrders w = db w.
Proof.
  unfold after, loadKitchenOrders. as_tree. rewrite run_Await. cbn [run snd].
  destruct (roundtrip_cases read_only w) as [[_ H] | [_ H]]; rewrite H; reflexivity.
Qed.

(** X13: a claim from the kitchen page while the station field is empty (its
    initial state) never writes the sessions, whoever the user is, whatever
    the answer and whatever happens in transit: the items are claimed with no
    session opened or refreshed. *)
Theorem handleClaimOrder_without_station (user : option uuid) (orderId : uuid) (w : World) :
  active_sessions (after (handleClaimOrder user "" orderId) w) = active_sessions (db w).
Proof.
  unfold after, handleClaimOrder. destruct user as [userId |]; [| reflexivity].
  rewrite run_bind.
  assert (H := claimOrder_no_station orderId userId (Some "") w eq_refl).
  unfold after in H.
  destruct (fst (run (claimOrder orderId userId (Some "")) w)).
  - fold (after loadKitchenOrders (snd (run (claimOrder orderId userId (Some "")) w))).
    rewrite loadKitchenOrders_db. exact H.
  - exact H.
Qed.

(** The world in which a call that claims runs its session upsert. *)
Lemma claimOrder_then_session (orderId userId : uuid) (st : string) (w : World) :
  reliable w ->
  items_of orderId (db w) <> [] ->
  ~ claimed_by_another orderId userId (db w) ->
  truthy (Some st) = true ->
  exists w3,
    reliable w3
    /\ active_sessions (db w3) = active_sessions (db w)
    /\ users (db w3) = users (db w)
    /\ unique_user_restaurant (db w3) = unique_user_restaurant (db w)
    /\ after (claimOrder orderId userId (Some st)) w
       = after (createKitchenSession userId st) w3.
Proof.
  intros Hrel Hne Hno Hst. unfold after, claimOrder. as_tree.
  rewrite run_Await, (roundtrip_reliable _ _ Hrel).
  cbn [select_claims fst snd]. fold (items_of orderId (db w)).
  rewrite length_map.
  destruct (items_of orderId (db w)) as [| i0 rest] eqn:Eitems; [contradiction |].
  cbn [length Nat.eqb]. rewrite <- Eitems, (alreadyClaimed_false _ _ _ Hno).
  set (w1 := mkWorld (db w) (S (clock w)) (tl (faults w))).
  assert (Hrel1 : reliable w1) by (apply reliable_tl; exact Hrel).
  rewrite run_Now, run_Await, (roundtrip_reliable _ _ Hrel1).
  cbn [update_claim fst snd db clock w1].
  set (w2 := mkWorld _ (S (S (clock w))) (tl (faults w1))).
  assert (Hrel2 : reliable w2) by (apply reliable_tl; exact Hrel1).
  rewrite run_Now, run_Await, (roundtrip_reliable _ _ Hrel2).
  cbn [update_order_preparing fst snd db clock w2].
  set (w3 := mkWorld _ (S (S (S (clock w)))) (tl (faults w2))).
  rewrite run_bind, Hst. cbn [run fst snd].
  exists w3. split; [apply reliable_tl; exact Hrel2 |].
  repeat split.
Qed.

Lemma select_update_same {Row : Type} (p : Row -> bool) (f : Row -> Row) (l : list Row) :
  (forall x, p (f x) = p x) ->
  select p (update f p l) = map f (select p l).
Proof.
  intros Hp. unfold select, update.
  induction l as [| x l IH]; [reflexivity |]. cbn [map filter].
  destruct (p x) eqn:E.
  - rewrite Hp, E. cbn [map]. rewrite IH. reflexivity.
  - rewrite E. exact IH.
Qed.

(** The upsert of [createKitchenSession], when the user row names a
    restaurant and the index is there. *)
Lemma createKitchenSession_upsert (userId restaurantId : uuid) (station : string)
  (w : World) :
  reliable w ->
  unique_user_restaurant (db w) = true ->
  select (fun u => String.eqb (User.id u) userId) (users (db w))
  = [User.mk userId (Some restaurantId)] ->
  one_session_per_pair (db w) ->
  exists s,
    sessions_of userId restaurantId (after (createKitchenSession userId station) w) = [s]
    /\ ActiveSession.status s = active
    /\ ActiveSession.station s = Some station
    /\ ActiveSession.last_heartbeat s = Some (S (clock w)).
Proof.
  intros Hrel Hidx Huser Hone.
  destruct (sessions_of userId restaurantId (db w)) as [| s0 rest] eqn:E.
  - (* no session yet: the row is inserted *)
    unfold after, createKitchenSession. as_tree.
    rewrite run_Await, (roundtrip_reliable _ _ Hrel).
    cbn [fst snd]. rewrite select_user_restaurant_db.
    unfold select_user_restaurant. rewrite Huser. cbn [single fst User.restaurant_id].
    set (w1 := mkWorld (db w) (S (clock w)) (tl (faults w))).
    assert (Hrel1 : reliable w1) by (apply reliable_tl; exact Hrel).
    rewrite run_Now, run_Await, (roundtrip_reliable _ _ Hrel1). cbn [run snd db clock w1].
    unfold upsert_kitchen_session. rewrite Hidx. cbn [negb].
    assert (Hnone : existsb (same_pair userId restaurantId) (active_sessions (db w)) = false).
    { destruct (existsb _ _) eqn:Ex; [| reflexivity].
      apply existsb_exists in Ex. destruct Ex as (r & Hin & Hp).
      assert (Hr : In r (sessions_of userId restaurantId (db w)))
        by (apply filter_In; split; assumption).
      rewrite E in Hr. contradiction. }
    rewrite Hnone. cbn [snd]. unfold sessions_of. cbn [active_sessions].
    rewrite select_app. fold (sessions_of userId restaurantId (db w)). rewrite E.
    unfold select. cbn [filter app]. unfold same_pair at 1.
    cbn [kitchen_row ActiveSession.user_id ActiveSession.restaurant_id].
    rewrite !String.eqb_refl. cbn [andb].
    eexists. split; [reflexivity |]. repeat split.
  - (* a session: the row is patched *)
    assert (Hrest : rest = []).
    { specialize (Hone userId restaurantId). rewrite E in Hone. cbn [length] in Hone.
      destruct rest; [reflexivity | cbn [length] in Hone; lia]. }
    subst rest.
    assert (Hsome : sessions_of userId restaurantId (db w) <> [])
      by (rewrite E; discriminate).
    exists (kitchen_patch station (S (clock w)) s0).
    unfold sessions_of at 1.
    rewrite (createKitchenSession_replaces userId restaurantId station w
               Hrel Hidx Huser Hsome).
    rewrite select_update_same by (intros x; apply same_pair_kitchen_patch).
    fold (sessions_of userId restaurantId (db w)). rewrite E.
    repeat split.
Qed.

(** X14: a call that claims with a station leaves the worker with exactly
    one session at the restaurant of the user row: active, at that station,
    with a heartbeat time.  Conditions: the order has
    items, none claimed by someone else, no round trip fails, the table has
    its unique index and holds at most one session per pair, and the worker
    has one user row. *)
Theorem claimOrder_opens_session (orderId userId restaurantId : uuid) (st : string)
  (w : World) :
  reliable w ->
  items_of orderId (db w) <> [] ->
  ~ claimed_by_another orderId userId (db w) ->
  st <> "" ->
  unique_user_restaurant (db w) = true ->
  select (fun u => String.eqb (User.id u) userId) (users (db w))
  = [User.mk userId (Some restaurantId)] ->
  one_session_per_pair (db w) ->
  exists s t,
    sessions_of userId restaurantId (after (claimOrder orderId userId (Some st)) w) = [s]
    /\ ActiveSession.status s = active
    /\ ActiveSession.station s = Some st
    /\ ActiveSession.last_heartbeat s = Some t.
Proof.
  intros Hrel Hne Hno Hst Hidx Huser Hone.
  assert (Htruthy : truthy (Some st) = true).
  { cbn [truthy]. apply negb_true_iff, String.eqb_neq. exact Hst. }
  destruct (claimOrder_then_session orderId userId st w Hrel Hne Hno Htruthy)
    as (w3 & Hrel3 & Hs3 & Hu3 & Hi3 & Hafter).
  rewrite Hafter.
  assert (Hone3 : one_session_per_pair (db w3)).
  { intros u r. unfold sessions_of. rewrite Hs3. apply Hone. }
  rewrite <- Hu3 in Huser. rewrite <- Hi3 in Hidx.
  destruct (createKitchenSession_upsert userId restaurantId st w3 Hrel3 Hidx Huser Hone3)
    as (s & H1 & H2 & H3 & H4).
  exists s, (S (clock w3)). repeat split; assumption.
Qed.

(** W1 claims O1 at the grill, with no session before and with one. *)
Lemma claimOrder_opens_session_witness :
  (exists s t,
     sessions_of "W1" "R" (after (claimOrder "O1" "W1" (Some "Grill")) opening) = [s]
     /\ ActiveSession.status s = active
     /\ ActiveSession.station s = Some "Grill"
     /\ ActiveSession.last_heartbeat s = Some t)
  /\ (exists s t,
        sessions_of "W1" "R" (after (claimOrder "O1" "W1" (Some "Grill")) logged_in) = [s]
        /\ ActiveSession.status s = active
        /\ ActiveSession.station s = Some "Grill"
        /\ ActiveSession.last_heartbeat s = Some t).
Proof.
  split.
  - apply (claimOrder_opens_session "O1" "W1" "R" "Grill" opening).
    + constructor.
    + discriminate.
    + intros (i & u & Hin & Hc & _). simpl in Hin.
      destruct Hin as [<- | [<- | []]]; discriminate Hc.
    + discriminate.
    + reflexivity.
    + reflexivity.
    + intros u r. cbn. lia.
  - apply (claimOrder_opens_session "O1" "W1" "R" "Grill" logged_in).
    + constructor.
    + discriminate.
    + intros (i & u & Hin & Hc & _). simpl in Hin.
      destruct Hin as [<- | [<- | []]]; discriminate Hc.
    + discriminate.
    + reflexivity.
    + reflexivity.
    + intros u r. unfold sessions_of. cbn. destruct (same_pair u r _); cbn; lia.
Defined.

(* ================================================================== *)
(** * Placing an order *)

Lemma item_rows_order (n : nat) (orderId : uuid) (lines : list OrderLine) :
  forall i, In i (item_rows n orderId lines) ->
    OrderItem.order_id i = orderId
    /\ OrderItem.claimed_by_user_id i = None
    /\ OrderItem.status i = item_pending.
Proof.
  revert n. induction lines as [| l lines IH]; intros n i Hin; [contradiction |].
  destruct Hin as [<- | Hin]; [repeat split | apply (IH (S n)); exact Hin].
Qed.

Lemma item_rows_lines (n : nat) (orderId : uuid) (lines : list OrderLine) :
  map (fun i => mkOrderLine (OrderItem.menu_item_id i) (OrderItem.quantity i))
    (item_rows n orderId lines)
  = lines.
Proof.
  revert n. induction lines as [| [m q] lines IH]; intros n; [reflexivity |].
  cbn [item_rows map inserted_item OrderItem.menu_item_id OrderItem.quantity
         line_menu_item_id line_quantity].
  rewrite IH. reflexivity.
Qed.

Lemma select_all {Row : Type} (p : Row -> bool) (l : list Row) :
  (forall x, In x l -> p x = true) -> select p l = l.
Proof.
  unfold select. induction l as [| x l IH]; intros H; [reflexivity |]. cbn [filter].
  rewrite (H x (or_introl eq_refl)). f_equal. apply IH.
  intros y Hy. apply H. right. exact Hy.
Qed.

Lemma select_nothing {Row : Type} (p : Row -> bool) (l : list Row) :
  (forall x, In x l -> p x = false) -> select p l = [].
Proof.
  unfold select. induction l as [| x l IH]; intros H; [reflexivity |]. cbn [filter].
  rewrite (H x (or_introl eq_refl)). apply IH.
  intros y Hy. apply H. right. exact Hy.
Qed.

(** The items of the new order after both inserts. *)
Lemma createOrder_run (restaurant_id : uuid) (lines : list OrderLine) (w : World) :
  reliable w ->
  next_id_unused (db w) ->
  outcome (dbHelpers.createOrder restaurant_id lines) w
  = Data (inserted_order (gen_uuid (next_uuid (db w))) restaurant_id (clock w))
  /\ items_of (gen_uuid (next_uuid (db w)))
       (after (dbHelpers.createOrder restaurant_id lines) w)
     = item_rows (S (next_uuid (db w))) (gen_uuid (next_uuid (db w))) lines
  /\ orders (after (dbHelpers.createOrder restaurant_id lines) w)
     = orders (db w)
       ++ [inserted_order (gen_uuid (next_uuid (db w))) restaurant_id (clock w)].
Proof.
  intros Hrel Hfresh. unfold outcome, after, dbHelpers.createOrder. as_tree.
  rewrite run_Now, run_Await, (roundtrip_reliable _ _ Hrel). cbn [insert_order fst snd].
  set (w1 := mkWorld _ (S (clock w)) (tl (faults w))).
  assert (Hrel1 : reliable w1) by (apply reliable_tl; exact Hrel).
  rewrite run_Await, (roundtrip_reliable _ _ Hrel1).
  cbn [insert_items inserted_order Order.id run fst snd db w1 order_items orders next_uuid].
  split; [reflexivity | split; [| reflexivity]].
  unfold items_of. cbn [order_items]. rewrite select_app.
  rewrite select_nothing, select_all; [reflexivity | |].
  - intros i Hin. apply String.eqb_eq. apply (item_rows_order _ _ _ i Hin).
  - intros i Hin. apply String.eqb_neq. apply Hfresh. exact Hin.
Qed.

(** X15: an order placed with at least one line, with no failure in transit,
    is ['pending'], and its items are the lines of the cart, in their order;
    a worker's claim on it right afterwards returns [true] and every item of
    the order is the worker's. *)
Theorem createOrder_then_claim (restaurant_id userId : uuid) (lines : list OrderLine)
  (station : option string) (w : World) :
  reliable w ->
  next_id_unused (db w) ->
  lines <> [] ->
  exists order,
    outcome (dbHelpers.createOrder restaurant_id lines) w = Data order
    /\ Order.status order = pending
    /\ In order (orders (after (dbHelpers.createOrder restaurant_id lines) w))
    /\ map (fun i => mkOrderLine (OrderItem.menu_item_id i) (OrderItem.quantity i))
         (items_of (Order.id order)
            (after (dbHelpers.createOrder restaurant_id lines) w))
       = lines
    /\ outcome (claimOrder (Order.id order) userId station)
         (then_ w (dbHelpers.createOrder restaurant_id lines)) = true
    /\ forall i,
         In i (items_of (Order.id order)
                 (after (claimOrder (Order.id order) userId station)
                    (then_ w (dbHelpers.createOrder restaurant_id lines)))) ->
         OrderItem.claimed_by_user_id i = Some userId.
Proof.
  intros Hrel Hfresh Hlines.
  destruct (createOrder_run restaurant_id lines w Hrel Hfresh) as (Hout & Hitems & Horders).
  exists (inserted_order (gen_uuid (next_uuid (db w))) restaurant_id (clock w)).
  cbn [inserted_order Order.id Order.status].
  set (oid := gen_uuid (next_uuid (db w))) in *.
  set (w1 := then_ w (dbHelpers.createOrder restaurant_id lines)).
  assert (Hrel1 : reliable w1) by (apply run_reliable; exact Hrel).
  assert (Hitems1 : items_of oid (db w1) = item_rows (S (next_uuid (db w))) oid lines)
    by exact Hitems.
  assert (Hne : items_of oid (db w1) <> []).
  { rewrite Hitems1. destruct lines; [contradiction | discriminate]. }
  assert (Hno : ~ claimed_by_another oid userId (db w1)).
  { intros (i & v & Hin & Hc & _). rewrite Hitems1 in Hin.
    destruct (item_rows_order _ _ _ i Hin) as (_ & Hnone & _).
    rewrite Hnone in Hc. discriminate Hc. }
  split; [exact Hout |]. split; [reflexivity |].
  split; [rewrite Horders; apply in_or_app; right; left; reflexivity |].
  split; [rewrite Hitems; apply item_rows_lines |].
  split.
  - apply (claimOrder_claimed oid userId station w1 Hrel1 Hne Hno).
  - apply (claimOrder_owns_all oid userId station w1 Hrel1 Hne Hno).
Qed.

(** A cart of two lines is placed in the kitchen and W2 claims the order. *)
Lemma createOrder_then_claim_witness :
  exists order,
    outcome (dbHelpers.createOrder "R" [mkOrderLine "soup" 2; mkOrderLine "tea" 1]) opening
    = Data order
    /\ Order.status order = pending
    /\ outcome (claimOrder (Order.id order) "W2" None)
         (then_ opening
            (dbHelpers.createOrder "R" [mkOrderLine "soup" 2; mkOrderLine "tea" 1]))
       = true.
Proof.
  destruct (createOrder_then_claim "R" "W2" [mkOrderLine "soup" 2; mkOrderLine "tea" 1]
              None opening) as (order & H1 & H2 & _ & _ & H5 & _).
  - constructor.
  - intros i Hin. simpl in Hin.
    destruct Hin as [<- | [<- | [<- | []]]]; discriminate.
  - discriminate.
  - exists order. split; [exact H1 | split; [exact H2 | exact H5]].
Defined.

(** X16: when the insert of the items fails in transit after the insert of
    the order, [createOrder] throws and the order stays in the store,
    ['pending'] and without items; every later claim on it returns [false]
    and changes nothing. *)
Theorem createOrder_leaves_empty_order (restaurant_id userId : uuid)
  (lines : list OrderLine) (station : option string) (w : World)
  (fs fs' : list bool) (c : timestamp) :
  faults w = false :: true :: fs ->
  next_id_unused (db w) ->
  outcome (dbHelpers.createOrder restaurant_id lines) w = Error
  /\ orders (after (dbHelpers.createOrder restaurant_id lines) w)
     = orders (db w)
       ++ [inserted_order (gen_uuid (next_uuid (db w))) restaurant_id (clock w)]
  /\ items_of (gen_uuid (next_uuid (db w)))
       (after (dbHelpers.createOrder restaurant_id lines) w) = []
  /\ outcome (claimOrder (gen_uuid (next_uuid (db w))) userId station)
       (mkWorld (after (dbHelpers.createOrder restaurant_id lines) w) c fs') = false
  /\ after (claimOrder (gen_uuid (next_uuid (db w))) userId station)
       (mkWorld (after (dbHelpers.createOrder restaurant_id lines) w) c fs')
     = after (dbHelpers.createOrder restaurant_id lines) w.
Proof.
  intros Hf Hfresh.
  assert (Hrun : run (dbHelpers.createOrder restaurant_id lines) w
                 = (Error,
                    mkWorld
                      (mkStore (order_items (db w))
                         (orders (db w)
                          ++ [inserted_order (gen_uuid (next_uuid (db w)))
                                restaurant_id (clock w)])
                         (active_sessions (db w)) (users (db w))
                         (unique_user_restaurant (db w)) (S (next_uuid (db w))))
                      (S (S (clock w))) fs)).
  { unfold dbHelpers.createOrder. as_tree. rewrite run_Now, run_Await.
    unfold roundtrip at 1 2. rewrite Hf. cbn [insert_order fst snd tl].
    rewrite run_Await. unfold roundtrip. cbn [faults]. reflexivity. }
  unfold outcome, after. rewrite Hrun. cbn [fst snd db orders].
  assert (Hempty : items_of (gen_uuid (next_uuid (db w)))
                     (mkStore (order_items (db w))
                        (orders (db w)
                         ++ [inserted_order (gen_uuid (next_uuid (db w)))
                               restaurant_id (clock w)])
                        (active_sessions (db w)) (users (db w))
                        (unique_user_restaurant (db w)) (S (next_uuid (db w))))
                   = []).
  { unfold items_of. cbn [order_items]. apply select_nothing.
    intros i Hin. apply String.eqb_neq. apply Hfresh. exact Hin. }
  split; [reflexivity | split; [reflexivity | split; [exact Hempty |]]].
  set (s1 := mkStore _ _ _ _ _ _) in *.
  unfold claimOrder. as_tree. rewrite run_Await.
  destruct (roundtrip_cases (select_claims (gen_uuid (next_uuid (db w)))) (mkWorld s1 c fs'))
    as [[Hr Hdb] | [Hr Hdb]]; rewrite Hr.
  - split; [reflexivity | exact Hdb].
  - cbn [select_claims fst db]. fold (items_of (gen_uuid (next_uuid (db w))) s1).
    rewrite Hempty. cbn [map length Nat.eqb run fst snd].
    split; [reflexivity | exact Hdb].
Qed.

(** The second insert of a cart fails; W1 then calls on the order. *)
Lemma createOrder_leaves_empty_order_witness :
  outcome (dbHelpers.createOrder "R" [mkOrderLine "soup" 2])
    (mkWorld kitchen 0 [false; true]) = Error
  /\ items_of (gen_uuid 0)
       (after (dbHelpers.createOrder "R" [mkOrderLine "soup" 2])
          (mkWorld kitchen 0 [false; true])) = []
  /\ outcome (claimOrder (gen_uuid 0) "W1" None)
       (mkWorld (after (dbHelpers.createOrder "R" [mkOrderLine "soup" 2])
                   (mkWorld kitchen 0 [false; true])) 2 []) = false.
Proof.
  destruct (createOrder_leaves_empty_order "R" "W1" [mkOrderLine "soup" 2] None
              (mkWorld kitchen 0 [false; true]) [] [] 2) as (H1 & _ & H3 & H4 & _).
  - reflexivity.
  - intros i Hin. simpl in Hin.
    destruct Hin as [<- | [<- | [<- | []]]]; discriminate.
  - split; [exact H1 | split; [exact H3 | exact H4]].
Defined.

(* ================================================================== *)
(** * Who owns the items after the race *)

(** A second filtered claim finds nothing to claim. *)
Lemma update_claim_twice (orderId u1 u2 : uuid) (t1 t2 : timestamp)
  (l : list OrderItem.t) :
  update (claim_patch u2 t2) (unclaimed_of orderId)
    (update (claim_patch u1 t1) (unclaimed_of orderId) l)
  = update (claim_patch u1 t1) (unclaimed_of orderId) l.
Proof.
  unfold update. rewrite map_map. apply map_ext. intros i.
  destruct (unclaimed_of orderId i) eqn:E.
  - unfold unclaimed_of. cbn [claim_patch OrderItem.claimed_by_user_id is_null].
    rewrite andb_false_r. reflexivity.
  - rewrite E. reflexivity.
Qed.

(** X17: two devices claim an order whose items are all unclaimed, each
    fetching before the other writes, with no failure in transit.  Both
    calls return [true]; the items of the order all have the claim patch of
    the device that wrote first, and the second device's update has changed
    no item. *)
Theorem claimOrder_race_first_writer_owns (orderId u1 u2 : uuid) (w : World) :
  reliable w ->
  items_of orderId (db w) <> [] ->
  (forall i, In i (items_of orderId (db w)) -> OrderItem.claimed_by_user_id i = None) ->
  map result
    (fst (interleave [0; 1; 0; 1; 0; 1]
            [claimOrder orderId u1 None; claimOrder orderId u2 None] w))
  = [Some true; Some true]
  /\ order_items
       (db (snd (interleave [0; 1; 0; 1; 0; 1]
                   [claimOrder orderId u1 None; claimOrder orderId u2 None] w)))
     = update (claim_patch u1 (S (S (clock w)))) (unclaimed_of orderId)
         (order_items (db w)).
Proof.
  intros Hrel Hne Hfree.
  assert (Hno : forall u, ~ claimed_by_another orderId u (db w)).
  { intros u (i & v & Hin & Hc & _). rewrite (Hfree i Hin) in Hc. discriminate Hc. }
  destruct (claimOrder_fetch_step orderId u1 w Hrel Hne (Hno u1))
    as (write1 & Hfetch1 & Hwrite1).
  set (w1 := mkWorld (db w) (S (clock w)) (tl (faults w))) in *.
  assert (Hrel1 : reliable w1) by (apply reliable_tl; exact Hrel).
  destruct (claimOrder_fetch_step orderId u2 w1 Hrel1 Hne (Hno u2))
    as (write2 & Hfetch2 & Hwrite2).
  set (w2 := mkWorld (db w1) (S (clock w1)) (tl (faults w1))) in *.
  assert (Hrel2 : reliable w2) by (apply reliable_tl; exact Hrel1).
  destruct (Hwrite1 w2 Hrel2) as (finish1 & Hstep1 & Hfinish1).
  set (w3 := mkWorld _ (S (clock w2)) (tl (faults w2))) in *.
  assert (Hrel3 : reliable w3) by (apply reliable_tl; exact Hrel2).
  destruct (Hwrite2 w3 Hrel3) as (finish2 & Hstep2 & Hfinish2).
  set (w4 := mkWorld _ (S (clock w3)) (tl (faults w3))) in *.
  assert (Hrel4 : reliable w4) by (apply reliable_tl; exact Hrel3).
  specialize (Hfinish1 w4 Hrel4).
  set (w5 := mkWorld _ (S (clock w4)) (tl (faults w4))) in *.
  assert (Hrel5 : reliable w5) by (apply reliable_tl; exact Hrel4).
  specialize (Hfinish2 w5 Hrel5).
  rewrite interleave_cons, step_thread_first, Hfetch1. cbn [fst snd].
  rewrite interleave_cons, step_thread_second, Hfetch2. cbn [fst snd].
  rewrite interleave_cons, step_thread_first, Hstep1. cbn [fst snd].
  rewrite interleave_cons, step_thread_second, Hstep2. cbn [fst snd].
  rewrite interleave_cons, step_thread_first, Hfinish1. cbn [fst snd].
  rewrite interleave_cons, step_thread_second, Hfinish2. cbn [fst snd].
  split; [reflexivity |].
  cbn [interleave snd db update_order_preparing with_orders order_items w5 w4
         update_claim with_order_items w3 w2 w1 clock].
  apply update_claim_twice.
Qed.

(** W1 and W2 race for O1 in the opening kitchen. *)
Lemma claimOrder_race_first_writer_owns_witness :
  map result (fst race) = [Some true; Some true]
  /\ order_items (db (snd race))
     = update (claim_patch "W1" 2) (unclaimed_of "O1") (order_items (db opening)).
Proof.
  apply (claimOrder_race_first_writer_owns "O1" "W1" "W2" opening).
  - constructor.
  - discriminate.
  - intros i Hin. simpl in Hin. destruct Hin as [<- | [<- | []]]; reflexivity.
Defined.

(* ================================================================== *)
(** * Ages of orders *)

(** X18: the urgency of an order in milliseconds of age: ['urgent'] from 21
    minutes on, ['warning'] from 11 minutes up to 21, ['normal'] below 11
    minutes (an order dated in the future included). *)
Theorem getOrderUrgency_thresholds (now_ms createdAt_ms : Z) :
  ((getOrderUrgency now_ms createdAt_ms = urgent
    <-> 1260000 <= now_ms - createdAt_ms)
   /\ (getOrderUrgency now_ms createdAt_ms = warning
       <-> 660000 <= now_ms - createdAt_ms < 1260000)
   /\ (getOrderUrgency now_ms createdAt_ms = normal
       <-> now_ms - createdAt_ms < 660000))%Z.
Proof.
  unfold getOrderUrgency, diffMins.
  change (1000 * 60)%Z with 60000%Z.
  assert (Hdiv := Z.div_mod (now_ms - createdAt_ms) 60000 ltac:(lia)).
  assert (Hmod := Z.mod_pos_bound (now_ms - createdAt_ms) 60000 ltac:(lia)).
  destruct (Z.ltb_spec 20 ((now_ms - createdAt_ms) / 60000)) as [H20 | H20];
    [| destruct (Z.ltb_spec 10 ((now_ms - createdAt_ms) / 60000)) as [H10 | H10]];
    repeat split; intros; try discriminate; try reflexivity; lia.
Qed.



(* ================================================================== *)
(** * The cart reducer *)

Module CartFacts.
Import Cart CartSpec.

Section Reducer.
Context {num : Type} `{Number num}.

Implicit Types (state : list (CartItem num)) (c : CartItem num).

Lemma same_note_eq (a b : option string) : same_note a b = true <-> a = b.
Proof.
  destruct a as [x |], b as [y |]; cbn [same_note].
  - rewrite String.eqb_eq. split; [intros ->; reflexivity | intros E; inversion E; reflexivity].
  - split; discriminate.
  - split; discriminate.
  - split; reflexivity.
Qed.

Lemma same_line_key (itemId : uuid) (note : option string) c :
  same_line itemId note c = true <-> line_key c = (itemId, note).
Proof.
  unfold same_line, line_key. rewrite andb_true_iff, String.eqb_eq, same_note_eq.
  split; [intros [-> ->]; reflexivity | intros E; inversion E; split; reflexivity].
Qed.

Lemma findIndex_None {A : Type} (p : A -> bool) (l : list A) :
  findIndex p l = None -> forall x, In x l -> p x = false.
Proof.
  induction l as [| y l IH]; intros Hf x Hin; [contradiction |].
  cbn [findIndex] in Hf. destruct (p y) eqn:E; [discriminate Hf |].
  destruct (findIndex p l); [discriminate Hf |].
  destruct Hin as [<- | Hin]; [exact E | apply IH; [reflexivity | exact Hin]].
Qed.

Lemma map_change_at {A B : Type} (g : A -> B) (f : A -> A) (i : nat) (l : list A) :
  (forall x, g (f x) = g x) -> map g (change_at i f l) = map g l.
Proof.
  intros Hg. revert i. induction l as [| x l IH]; intros i; [destruct i; reflexivity |].
  destruct i; cbn [change_at map]; [rewrite Hg | rewrite IH]; reflexivity.
Qed.

Lemma NoDup_map_filter {A B : Type} (g : A -> B) (p : A -> bool) (l : list A) :
  NoDup (map g l) -> NoDup (map g (filter p l)).
Proof.
  induction l as [| x l IH]; intros Hnd; [exact Hnd |].
  cbn [map] in Hnd. inversion Hnd as [| k ks Hnotin Hnd']; subst.
  cbn [filter]. destruct (p x); [| apply IH; exact Hnd'].
  cbn [map]. constructor; [| apply IH; exact Hnd'].
  intros Hin. apply Hnotin. apply in_map_iff in Hin. destruct Hin as (y & Hy & Hin).
  apply filter_In in Hin. apply in_map_iff. exists y. split; [exact Hy | apply Hin].
Qed.

(** X20: a cart in which no two lines share the menu item and the note
    stays such a cart under [ADD_ITEM], [REMOVE_ITEM], [UPDATE_QUANTITY] and
    [CLEAR_CART]. *)
Theorem cart_lines_stay_distinct state (action : CartAction num) :
  lines_distinct state ->
  (forall menuItemId instructions, action <> UPDATE_INSTRUCTIONS menuItemId instructions) ->
  (forall items, action <> LOAD_CART items) ->
  lines_distinct (cartReducer state action).
Proof.
  unfold lines_distinct. intros Hnd Hins Hload.
  destruct action as [item q note | menuItemId | menuItemId q | menuItemId ins | | items];
    cbn [cartReducer].
  - destruct (findIndex (same_line (id item) note) state) as [i |] eqn:E.
    + rewrite map_change_at; [exact Hnd | intros x; reflexivity].
    + rewrite map_app. cbn [map]. apply NoDup_app; [exact Hnd | constructor; [intros [] | constructor] |].
      intros k Hin [Hk | []]. subst k.
      apply in_map_iff in Hin. destruct Hin as (x & Hx & Hin).
      assert (Hfalse := findIndex_None _ _ E x Hin).
      assert (Htrue : same_line (id item) note x = true)
        by (apply same_line_key; exact Hx).
      congruence.
  - apply NoDup_map_filter. exact Hnd.
  - destruct (lez q); [apply NoDup_map_filter; exact Hnd |].
    rewrite map_map.
    rewrite (map_ext _ line_key); [exact Hnd |].
    intros x. destruct (String.eqb (id (menu_item x)) menuItemId); reflexivity.
  - exfalso. apply (Hins menuItemId ins). reflexivity.
  - constructor.
  - exfalso. apply (Hload items). reflexivity.
Qed.

(** X21: a cart in which every line's subtotal is its quantity times the
    price of its menu item stays such a cart under every action of the
    reducer, provided a loaded cart is one. *)
Theorem cart_lines_stay_priced state (action : CartAction num) :
  priced state ->
  (forall items, action = LOAD_CART items -> priced items) ->
  priced (cartReducer state action).
Proof.
  unfold priced. intros Hp Hload.
  destruct action as [item q note | menuItemId | menuItemId q | menuItemId ins | | items];
    cbn [cartReducer].
  - destruct (findIndex (same_line (id item) note) state) as [i |].
    + clear Hload. revert i. induction Hp as [| x l Hx Hl IH]; intros i.
      * destruct i; constructor.
      * destruct i; cbn [change_at]; constructor;
          [reflexivity | exact Hl | exact Hx | apply IH].
    + apply Forall_app. split; [exact Hp | constructor; [reflexivity | constructor]].
  - apply Forall_forall. intros x Hin. apply filter_In in Hin.
    apply (proj1 (Forall_forall _ _) Hp). apply Hin.
  - destruct (lez q).
    + apply Forall_forall. intros x Hin. apply filter_In in Hin.
      apply (proj1 (Forall_forall _ _) Hp). apply Hin.
    + apply Forall_map. apply Forall_impl with (2 := Hp). intros x Hx.
      destruct (String.eqb (id (menu_item x)) menuItemId); [reflexivity | exact Hx].
  - apply Forall_map. apply Forall_impl with (2 := Hp). intros x Hx.
    destruct (String.eqb (id (menu_item x)) menuItemId); [exact Hx | exact Hx].
  - constructor.
  - apply Hload. reflexivity.
Qed.

Lemma find_change_at_first (p : CartItem num -> bool) (f : CartItem num -> CartItem num)
  state (i : nat) :
  (forall x, p (f x) = p x) ->
  findIndex p state = Some i ->
  exists c, find p state = Some c /\ find p (change_at i f state) = Some (f c).
Proof.
  intros Hp. revert i. induction state as [| x l IH]; intros i Hf; [discriminate Hf |].
  cbn [findIndex] in Hf. cbn [find]. destruct (p x) eqn:E.
  - inversion Hf; subst i. exists x. cbn [change_at find]. rewrite Hp, E.
    split; reflexivity.
  - destruct (findIndex p l) as [j |] eqn:Ej; [| discriminate Hf].
    inversion Hf; subst i. destruct (IH j eq_refl) as (c & Hc & Hc').
    exists c. cbn [change_at find]. rewrite E. split; assumption.
Qed.

Lemma find_change_at_other (p q : CartItem num -> bool) (f : CartItem num -> CartItem num)
  state (i : nat) :
  (forall x, q (f x) = q x) ->
  (forall x, p x = true -> q x = false) ->
  findIndex p state = Some i ->
  find q (change_at i f state) = find q state.
Proof.
  intros Hq Hpq. revert i. induction state as [| x l IH]; intros i Hf; [discriminate Hf |].
  cbn [findIndex] in Hf. destruct (p x) eqn:E.
  - inversion Hf; subst i. cbn [change_at find]. rewrite Hq, (Hpq x E). reflexivity.
  - destruct (findIndex p l) as [j |] eqn:Ej; [| discriminate Hf].
    inversion Hf; subst i. cbn [change_at find]. rewrite (IH j eq_refl). reflexivity.
Qed.

Lemma find_app_none {A : Type} (p : A -> bool) (l l' : list A) :
  (forall x, In x l -> p x = false) -> find p (l ++ l') = find p l'.
Proof.
  induction l as [| x l IH]; intros Hn; [reflexivity |]. cbn [app find].
  rewrite (Hn x (or_introl eq_refl)). apply IH. intros y Hy. apply Hn. right. exact Hy.
Qed.

Lemma find_app_last {A : Type} (p : A -> bool) (l : list A) (x : A) :
  p x = false -> find p (l ++ [x]) = find p l.
Proof.
  intros Hx. induction l as [| y l IH]; cbn [app find]; [rewrite Hx; reflexivity |].
  destruct (p y); [reflexivity | exact IH].
Qed.

(** X22: [ADD_ITEM] and the line of a menu item and note ([line_of]: the
    first line with them).  After [ADD_ITEM] the line of the added item and
    note is the line there was with the quantity added and the subtotal
    recomputed at that line's own price, or, when there was none, a new line
    with the quantity asked; the line of every other item or note is the
    line it was. *)
Theorem cart_add_item state (item : MenuItem num) (q : num) (note : option string) :
  line_of (cartReducer state (ADD_ITEM item q note)) (id item) note
  = Some (match line_of state (id item) note with
          | Some c => more q c
          | None => mkCartItem item q note (mul q (price item))
          end)
  /\ forall itemId' note',
       (itemId', note') <> (id item, note) ->
       line_of (cartReducer state (ADD_ITEM item q note)) itemId' note'
       = line_of state itemId' note'.
Proof.
  unfold line_of. cbn [cartReducer].
  destruct (findIndex (same_line (id item) note) state) as [i |] eqn:E.
  - split.
    + destruct (find_change_at_first (same_line (id item) note) (more q) state i
                  (fun x => eq_refl) E) as (c & Hc & Hc').
      rewrite Hc, Hc'. reflexivity.
    + intros itemId' note' Hne.
      apply (find_change_at_other (same_line (id item) note)); [reflexivity | | exact E].
      intros x Hx. apply same_line_key in Hx.
      destruct (same_line itemId' note' x) eqn:E'; [| reflexivity].
      apply same_line_key in E'. congruence.
  - assert (Hnone := findIndex_None _ _ E). split.
    + rewrite find_app_none by exact Hnone. cbn [find].
      assert (Hnew : same_line (id item) note
                       (mkCartItem item q note (mul q (price item))) = true)
        by (apply same_line_key; reflexivity).
      rewrite Hnew.
      assert (Hfind : find (same_line (id item) note) state = None).
      { destruct (find _ state) as [c |] eqn:Ef; [| reflexivity].
        apply find_some in Ef. destruct Ef as [Hin Hc].
        rewrite (Hnone c Hin) in Hc. discriminate Hc. }
      rewrite Hfind. reflexivity.
    + intros itemId' note' Hne. apply find_app_last.
      destruct (same_line itemId' note' _) eqn:E'; [| reflexivity].
      apply same_line_key in E'. exfalso. apply Hne. symmetry. exact E'.
Qed.

Lemma count_lines (menuItemId : uuid) (instructions : string) state :
  count_occ key_eq_dec
    (map line_key (cartReducer state (UPDATE_INSTRUCTIONS menuItemId instructions)))
    (menuItemId, Some instructions)
  >= length (filter (fun c => String.eqb (id (menu_item c)) menuItemId) state).
Proof.
  cbn [cartReducer]. induction state as [| x l IH]; [cbn; lia |].
  cbn [map filter]. destruct (String.eqb (id (menu_item x)) menuItemId) eqn:E.
  - apply String.eqb_eq in E.
    rewrite count_occ_cons_eq; [cbn [length]; lia |].
    unfold line_key. cbn [with_instructions menu_item special_instructions].
    rewrite E. reflexivity.
  - destruct (key_eq_dec (line_key x) (menuItemId, Some instructions)) as [Hk | Hk].
    + rewrite count_occ_cons_eq by exact Hk. lia.
    + rewrite count_occ_cons_neq by exact Hk. exact IH.
Qed.

(** X23: [UPDATE_INSTRUCTIONS] writes the note on every line of the menu
    item and merges nothing: on a cart with two lines or more of that item
    (lines that differ by their notes) the result has lines that share the
    menu item and the note. *)
Theorem cart_update_instructions_duplicates state (menuItemId : uuid)
  (instructions : string) :
  2 <= length (filter (fun c => String.eqb (id (menu_item c)) menuItemId) state) ->
  ~ lines_distinct (cartReducer state (UPDATE_INSTRUCTIONS menuItemId instructions)).
Proof.
  intros Htwo Hnd. unfold lines_distinct in Hnd.
  rewrite (NoDup_count_occ key_eq_dec) in Hnd.
  specialize (Hnd (menuItemId, Some instructions)).
  assert (Hc := count_lines menuItemId instructions state). lia.
Qed.

End Reducer.

(** Soup with and without a note; the note "hot" is then written on soup. *)
Lemma cart_update_instructions_duplicates_witness :
  lines_distinct
    (cartReducer
       (cartReducer [] (ADD_ITEM (mkMenuItem "soup" 7%Z) 1%Z None))
       (ADD_ITEM (mkMenuItem "soup" 7%Z) 2%Z (Some "no salt")))
  /\ ~ lines_distinct
         (cartReducer
            (cartReducer
               (cartReducer [] (ADD_ITEM (mkMenuItem "soup" 7%Z) 1%Z None))
               (ADD_ITEM (mkMenuItem "soup" 7%Z) 2%Z (Some "no salt")))
            (UPDATE_INSTRUCTIONS "soup" "hot")).
Proof.
  split.
  - unfold lines_distinct. cbn. repeat constructor; cbn; intuition discriminate.
  - apply cart_update_instructions_duplicates. cbn. lia.
Defined.

(** Tea is added to a cart that holds soup. *)
Lemma cart_lines_stay_distinct_witness :
  lines_distinct
    (cartReducer [mkCartItem (mkMenuItem "soup" 7%Z) 1%Z None 7%Z]
       (ADD_ITEM (mkMenuItem "tea" 2%Z) 3%Z None)).
Proof.
  apply cart_lines_stay_distinct.
  - unfold lines_distinct. cbn. repeat constructor. intros [].
  - discriminate.
  - discriminate.
Defined.

(** The quantity of soup is set to four in a priced cart. *)
Lemma cart_lines_stay_priced_witness :
  priced
    (cartReducer [mkCartItem (mkMenuItem "soup" 7%Z) 1%Z None 7%Z]
       (UPDATE_QUANTITY "soup" 4%Z)).
Proof.
  apply cart_lines_stay_priced.
  - repeat constructor.
  - discriminate.
Defined.

End CartFacts.


(* ================================================================== *)
(** * The aggregation on an order without items *)

(** X24: on an order without items ([every] of an empty array) the
    aggregation, with no failure in transit, writes ['ready'] on the order,
    whatever its status was. *)
Theorem checkOrderCompletion_empty_order (orderId : uuid) (w : World) :
  reliable w ->
  items_of orderId (db w) = [] ->
  order_status orderId (after (checkOrderCompletion orderId) w)
  = map (fun _ => ready) (order_status orderId (db w)).
Proof.
  intros Hrel Hempty.
  assert (Hall : all_completed orderId (db w)).
  { intros i Hin. rewrite Hempty in Hin. contradiction. }
  rewrite (checkOrderCompletion_completed orderId w Hrel Hall).
  apply order_status_patched.
Qed.

(** The aggregation on O3, the order of the kitchen that has no items. *)
Lemma checkOrderCompletion_empty_order_witness :
  order_status "O3" (after (checkOrderCompletion "O3") opening) = [ready].
Proof.
  apply (checkOrderCompletion_empty_order "O3" opening).
  - constructor.
  - reflexivity.
Defined.


(* ================================================================== *)
(** * The cart reducer and the objects of its state *)

Module CartMemoryFacts.
Import Cart CartMemory.

Section Memory.
Context {num : Type} `{Number num}.

Implicit Types (h : list (CartItem num)) (state : list Ref) (vs : list (CartItem num)).

Lemma deref_grow h h' (r : Ref) (c : CartItem num) :
  deref h r = Some c -> deref (h ++ h') r = Some c.
Proof.
  unfold deref. intros Hr. rewrite nth_error_app1; [exact Hr |].
  apply nth_error_Some. rewrite Hr. discriminate.
Qed.

Lemma view_grow h h' state vs :
  view h state = map Some vs -> view (h ++ h') state = map Some vs.
Proof.
  unfold view. revert vs. induction state as [| r state IH]; intros vs Hv.
  - exact Hv.
  - destruct vs as [| c vs]; [discriminate Hv |]. cbn [map] in Hv |- *.
    inversion Hv as [[Hr Hrest]]. rewrite (deref_grow h h' r c Hr), Hr.
    f_equal. rewrite Hrest. apply IH. exact Hrest.
Qed.

Lemma findIndex_view (p : CartItem num -> bool) h state vs :
  view h state = map Some vs ->
  findIndex (test p h) state = findIndex p vs.
Proof.
  unfold view. revert vs. induction state as [| r state IH]; intros vs Hv.
  - destruct vs; [reflexivity | discriminate Hv].
  - destruct vs as [| c vs]; [discriminate Hv |]. cbn [map] in Hv.
    inversion Hv as [[Hr Hrest]]. cbn [findIndex]. unfold test at 1. rewrite Hr.
    rewrite (IH vs Hrest). reflexivity.
Qed.

Lemma filter_view (p : CartItem num -> bool) h state vs :
  view h state = map Some vs ->
  view h (filter (test p h) state) = map Some (filter p vs).
Proof.
  unfold view. revert vs. induction state as [| r state IH]; intros vs Hv.
  - destruct vs; [reflexivity | discriminate Hv].
  - destruct vs as [| c vs]; [discriminate Hv |]. cbn [map] in Hv.
    inversion Hv as [[Hr Hrest]]. cbn [filter]. unfold test at 1. rewrite Hr.
    destruct (p c); cbn [map]; [rewrite Hr; f_equal |]; apply IH; exact Hrest.
Qed.

Lemma deref_change_at h (r r' : Ref) (f : CartItem num -> CartItem num) :
  deref (change_at r f h) r'
  = if Nat.eqb r' r then option_map f (deref h r) else deref h r'.
Proof.
  unfold deref. revert r r'. induction h as [| x h IH]; intros r r'.
  - destruct r, r'; cbn; try reflexivity; destruct (Nat.eqb r' r); reflexivity.
  - destruct r, r'; cbn [change_at nth_error Nat.eqb option_map]; try reflexivity.
    apply IH.
Qed.

Lemma view_change_at h state vs (i : nat) (r : Ref) (f : CartItem num -> CartItem num) :
  NoDup state ->
  view h state = map Some vs ->
  nth_error state i = Some r ->
  view (change_at r f h) state = map Some (change_at i f vs).
Proof.
  unfold view. revert vs i. induction state as [| r0 state IH]; intros vs i Hnd Hv Hi.
  - destruct i; discriminate Hi.
  - destruct vs as [| c vs]; [discriminate Hv |]. cbn [map] in Hv.
    inversion Hv as [[Hr Hrest]]. inversion Hnd as [| ? ? Hnotin Hnd']; subst.
    destruct i as [| i]; cbn [nth_error] in Hi.
    + inversion Hi; subst r0. cbn [map change_at].
      rewrite deref_change_at, Nat.eqb_refl, Hr. cbn [option_map]. f_equal.
      rewrite <- Hrest. apply map_ext_in. intros r' Hin.
      rewrite deref_change_at.
      destruct (Nat.eqb_spec r' r) as [-> | _]; [contradiction | reflexivity].
    + cbn [map change_at]. rewrite deref_change_at.
      destruct (Nat.eqb_spec r0 r) as [-> | _].
      * exfalso. apply Hnotin. apply nth_error_In with (n := i). exact Hi.
      * rewrite Hr. f_equal. apply IH; assumption.
Qed.

Lemma map_alloc_view (p : CartItem num -> bool) (f : CartItem num -> CartItem num)
  state h vs :
  view h state = map Some vs ->
  (exists extra, fst (map_alloc p f h state) = h ++ extra)
  /\ view (fst (map_alloc p f h state)) (snd (map_alloc p f h state))
     = map Some (map (fun c => if p c then f c else c) vs).
Proof.
  unfold view. revert h vs. induction state as [| r state IH]; intros h vs Hv.
  - destruct vs; [| discriminate Hv]. split; [exists []; symmetry; apply app_nil_r | reflexivity].
  - destruct vs as [| c vs]; [discriminate Hv |]. cbn [map] in Hv.
    inversion Hv as [[Hr Hrest]]. cbn [map_alloc]. rewrite Hr.
    destruct (p c) eqn:Ep.
    + assert (Hv' : map (deref (h ++ [f c])) state = map Some vs)
        by (apply (view_grow h [f c] state vs); exact Hrest).
      destruct (IH (h ++ [f c]) vs Hv') as [[extra Hex] Hview].
      destruct (map_alloc p f (h ++ [f c]) state) as [h' rest'] eqn:E.
      cbn [fst snd] in *. split.
      * exists (f c :: extra). rewrite Hex, <- app_assoc. reflexivity.
      * cbn [map]. rewrite Ep. f_equal; [| exact Hview].
        rewrite Hex, <- app_assoc. unfold deref.
        rewrite nth_error_app2 by lia. rewrite Nat.sub_diag. reflexivity.
    + destruct (IH h vs Hrest) as [[extra Hex] Hview].
      destruct (map_alloc p f h state) as [h' rest'] eqn:E.
      cbn [fst snd] in *. split; [exists extra; exact Hex |].
      cbn [map]. rewrite Ep. f_equal; [| exact Hview].
      rewrite Hex. apply deref_grow. exact Hr.
Qed.

Lemma view_seq h vs : view (h ++ vs) (seq (length h) (length vs)) = map Some vs.
Proof.
  unfold view. revert h. induction vs as [| c vs IH]; intros h; [reflexivity |].
  cbn [length seq map]. f_equal.
  - unfold deref. rewrite nth_error_app2 by lia. rewrite Nat.sub_diag. reflexivity.
  - specialize (IH (h ++ [c])). rewrite <- app_assoc, length_app in IH.
    cbn [length app] in IH. rewrite Nat.add_1_r in IH. exact IH.
Qed.

(** The state the reducer returns, in the memory it leaves. *)
Lemma cartReducer_on_objects_aux h state vs (action : CartAction num) :
  NoDup state ->
  view h state = map Some vs ->
  view (fst (CartMemory.cartReducer h state action))
    (snd (CartMemory.cartReducer h state action))
  = map Some (Cart.cartReducer vs action).
Proof.
  intros Hnd Hv.
  destruct action as [item q note | menuItemId | menuItemId q | menuItemId ins | | items];
    cbn [CartMemory.cartReducer Cart.cartReducer].
  - rewrite (findIndex_view _ h state vs Hv).
    destruct (findIndex (same_line (id item) note) vs) as [i |] eqn:E.
    + destruct (nth_error state i) as [r |] eqn:Er; cbn [fst snd].
      * apply view_change_at; assumption.
      * (* no such index: the arrays have the same length *)
        exfalso. apply nth_error_None in Er.
        assert (Hlen : length state = length vs).
        { unfold view in Hv. rewrite <- (length_map (deref h)), Hv, length_map.
          reflexivity. }
        assert (Hi : i < length vs).
        { clear - E. revert i E. induction vs as [| x l IH]; intros i E; [discriminate E |].
          cbn [findIndex] in E. destruct (same_line (id item) note x).
          - inversion E. cbn. lia.
          - destruct (findIndex _ l) as [j |]; [| discriminate E].
            inversion E. specialize (IH j eq_refl). cbn. lia. }
        lia.
    + cbn [fst snd]. unfold view. rewrite !map_app. f_equal.
      * apply (view_grow h _ state vs). exact Hv.
      * cbn [map]. f_equal. unfold deref.
        rewrite nth_error_app2 by lia. rewrite Nat.sub_diag. reflexivity.
  - cbn [fst snd]. apply filter_view. exact Hv.
  - destruct (lez q); [cbn [fst snd]; apply filter_view; exact Hv |].
    apply map_alloc_view. exact Hv.
  - apply map_alloc_view. exact Hv.
  - reflexivity.
  - cbn [fst snd]. apply view_seq.
Qed.

(** X25: the reducer on objects computes the reducer on values: when a state
    of distinct addresses shows the lines [vs] in the memory, the state it
    returns shows, in the memory it leaves, the lines of [Cart.cartReducer]
    on [vs]. *)
Theorem cartReducer_on_objects h state vs (action : CartAction num) :
  NoDup state ->
  view h state = map Some vs ->
  view (fst (CartMemory.cartReducer h state action))
    (snd (CartMemory.cartReducer h state action))
  = map Some (Cart.cartReducer vs action).
Proof. apply cartReducer_on_objects_aux. Qed.

(** The memory after the reducer, read at the addresses it had. *)
Lemma memory_kept h state vs (action : CartAction num) :
  view h state = map Some vs ->
  (forall item q note, action = ADD_ITEM item q note ->
     findIndex (same_line (id item) note) vs = None) ->
  view (fst (CartMemory.cartReducer h state action)) state = map Some vs.
Proof.
  intros Hv Hadd.
  destruct action as [item q note | menuItemId | menuItemId q | menuItemId ins | | items];
    cbn [CartMemory.cartReducer].
  - rewrite (findIndex_view _ h state vs Hv), (Hadd item q note eq_refl). cbn [fst].
    apply view_grow. exact Hv.
  - exact Hv.
  - destruct (lez q); [exact Hv |].
    destruct (map_alloc_view (fun c => String.eqb (id (menu_item c)) menuItemId)
                (with_quantity q) state h vs Hv) as [[extra Hex] _].
    rewrite Hex. apply view_grow. exact Hv.
  - destruct (map_alloc_view (fun c => String.eqb (id (menu_item c)) menuItemId)
                (with_instructions ins) state h vs Hv) as [[extra Hex] _].
    rewrite Hex. apply view_grow. exact Hv.
  - exact Hv.
  - cbn [fst]. apply view_grow. exact Hv.
Qed.

(** X26: the reducer writes into the state it is given in one case only.
    [ADD_ITEM] of an item and note that have a line returns the same array
    of addresses and has changed the line in place: the given state shows
    the new quantity too, and the same action on the same state again adds
    the quantity a second time.  In every other case the given state shows
    afterwards the lines it showed before. *)
Theorem cartReducer_writes_given_state h state vs (action : CartAction num) :
  NoDup state ->
  view h state = map Some vs ->
  ((forall item q note, action = ADD_ITEM item q note ->
      findIndex (same_line (id item) note) vs = None) ->
   view (fst (CartMemory.cartReducer h state action)) state = map Some vs)
  /\ (forall item q note i,
        action = ADD_ITEM item q note ->
        findIndex (same_line (id item) note) vs = Some i ->
        snd (CartMemory.cartReducer h state action) = state
        /\ view (fst (CartMemory.cartReducer h state action)) state
           = map Some (Cart.cartReducer vs action)
        /\ view (fst (CartMemory.cartReducer
                        (fst (CartMemory.cartReducer h state action)) state action))
             (snd (CartMemory.cartReducer
                     (fst (CartMemory.cartReducer h state action)) state action))
           = map Some (Cart.cartReducer (Cart.cartReducer vs action) action)).
Proof.
  intros Hnd Hv. split; [apply memory_kept; exact Hv |].
  intros item q note i Hact Hfound.
  assert (Hsame : snd (CartMemory.cartReducer h state action) = state).
  { subst action. cbn [CartMemory.cartReducer].
    rewrite (findIndex_view _ h state vs Hv), Hfound.
    destruct (nth_error state i); reflexivity. }
  assert (Hview := cartReducer_on_objects_aux h state vs action Hnd Hv).
  rewrite Hsame in Hview.
  split; [exact Hsame | split; [exact Hview |]].
  apply cartReducer_on_objects_aux; assumption.
Qed.

End Memory.
End CartMemoryFacts.


Module CartMemoryWitness.
Import Cart CartMemory.

(** A cart of one line of soup; one more soup is added, and tea. *)
Lemma cartReducer_on_objects_witness :
  view
    (fst (CartMemory.cartReducer [mkCartItem (mkMenuItem "soup" 7%Z) 1%Z None 7%Z] [0]
            (ADD_ITEM (mkMenuItem "tea" 2%Z) 3%Z None)))
    (snd (CartMemory.cartReducer [mkCartItem (mkMenuItem "soup" 7%Z) 1%Z None 7%Z] [0]
            (ADD_ITEM (mkMenuItem "tea" 2%Z) 3%Z None)))
  = map Some
      (Cart.cartReducer [mkCartItem (mkMenuItem "soup" 7%Z) 1%Z None 7%Z]
         (ADD_ITEM (mkMenuItem "tea" 2%Z) 3%Z None)).
Proof.
  apply CartMemoryFacts.cartReducer_on_objects.
  - repeat constructor. intros [].
  - reflexivity.
Defined.

Lemma cartReducer_writes_given_state_witness :
  view
    (fst (CartMemory.cartReducer [mkCartItem (mkMenuItem "soup" 7%Z) 1%Z None 7%Z] [0]
            (ADD_ITEM (mkMenuItem "soup" 7%Z) 2%Z None)))
    [0]
  = [Some (mkCartItem (mkMenuItem "soup" 7%Z) 3%Z None 21%Z)]
  /\ view
       (fst (CartMemory.cartReducer
               (fst (CartMemory.cartReducer
                       [mkCartItem (mkMenuItem "soup" 7%Z) 1%Z None 7%Z] [0]
                       (ADD_ITEM (mkMenuItem "soup" 7%Z) 2%Z None)))
               [0] (ADD_ITEM (mkMenuItem "soup" 7%Z) 2%Z None)))
       (snd (CartMemory.cartReducer
               (fst (CartMemory.cartReducer
                       [mkCartItem (mkMenuItem "soup" 7%Z) 1%Z None 7%Z] [0]
                       (ADD_ITEM (mkMenuItem "soup" 7%Z) 2%Z None)))
               [0] (ADD_ITEM (mkMenuItem "soup" 7%Z) 2%Z None)))
     = [Some (mkCartItem (mkMenuItem "soup" 7%Z) 5%Z None 35%Z)].
Proof.
  destruct (CartMemoryFacts.cartReducer_writes_given_state
              [mkCartItem (mkMenuItem "soup" 7%Z) 1%Z None 7%Z] [0]
              [mkCartItem (mkMenuItem "soup" 7%Z) 1%Z None 7%Z]
              (ADD_ITEM (mkMenuItem "soup" 7%Z) 2%Z None)) as [_ Hadd].
  - repeat constructor. intros [].
  - reflexivity.
  - destruct (Hadd (mkMenuItem "soup" 7%Z) 2%Z None 0 eq_refl eq_refl) as (_ & H1 & H2).
    split; [exact H1 | exact H2].
Defined.

End CartMemoryWitness.
